(** * Notebook: pages, raster canvases, undo/redo history and the pasted overlay

    A shallow embedding of [src/notebook.py] (classes [Page] and [Notebook]).

    Python objects that are mutated in place and may be reached through
    several references (the [QPixmap] canvases, which live both in pages and
    in the undo/redo stacks) are kept in an explicit store, addressed by
    locations.  The handlers of [Notebook] are written in a small state and
    exception monad: an exception leaves the store and the fields as they
    were when it was raised, as in Python. *)

From stdpp Require Import gmap strings list fin_maps.

Local Open Scope Z_scope.

(** ** The Qt values the program handles *)

(** A [QColor] / one pixel: red, green, blue and alpha channel, [0..255]. *)
Record Color := mkColor { red : Z; green : Z; blue : Z; alpha : Z }.

#[global] Instance Color_eq_dec : EqDecision Color.
Proof. solve_decision. Defined.

Definition white : Color := mkColor 255 255 255 255.   (* Qt.white *)
Definition black : Color := mkColor 0 0 0 255.         (* Qt.black *)

(** [QColor(QRgb)]: the alpha channel of the [QRgb] is ignored, the colour
    is solid. *)
Definition solid (c : Color) : Color :=
  mkColor (red c) (green c) (blue c) 255.

(** A [QPoint]. *)
Record QPoint := mkPoint { px : Z; py : Z }.

#[global] Instance QPoint_eq_dec : EqDecision QPoint.
Proof. solve_decision. Defined.

Definition padd (p q : QPoint) : QPoint := mkPoint (px p + px q) (py p + py q).
Definition psub (p q : QPoint) : QPoint := mkPoint (px p - px q) (py p - py q).

(** A [QPixmap] as a value: its rows of pixels, top row first.  The null
    pixmap has no rows. *)
Abbreviation Pixmap := (list (list Color)).

Definition null_pixmap : Pixmap := [].

Definition pm_height (p : Pixmap) : Z := Z.of_nat (length p).
Definition pm_width (p : Pixmap) : Z :=
  match p with
  | [] => 0
  | row :: _ => Z.of_nat (length row)
  end.

Definition isNull (p : Pixmap) : bool :=
  (pm_width p =? 0) || (pm_height p =? 0).

(** [QPixmap(w, h)] followed by [fill(c)]. *)
Definition filled (w h : Z) (c : Color) : Pixmap :=
  replicate (Z.to_nat h) (replicate (Z.to_nat w) c).

(** [img.pixel(p)]: the pixel in column [x] of row [y]. *)
Definition pixel (p : Pixmap) (x y : Z) : option Color :=
  if (0 <=? x) && (0 <=? y)
  then p !! Z.to_nat y ≫= λ row, row !! Z.to_nat x
  else None.

(** The default composition of [QPainter], source over destination.  An
    opaque source pixel replaces the destination pixel and a fully
    transparent one leaves it; how Qt mixes a translucent pixel is the
    parameter [mix]. *)
Definition source_over (mix : Color → Color → Color) (s d : Color) : Color :=
  if alpha s =? 255 then s
  else if alpha s =? 0 then d
  else mix s d.

(** [painter.drawPixmap(pos, src)] on the pixmap [dst]: every pixel of [dst]
    that [src], put with its top-left corner at [pos], covers is composed
    with the pixel of [src] over it.  Nothing is written outside [dst]. *)
Definition drawPixmap (mix : Color → Color → Color)
    (pos : QPoint) (src dst : Pixmap) : Pixmap :=
  imap (λ y row,
    imap (λ x d,
      match pixel src (Z.of_nat x - px pos) (Z.of_nat y - py pos) with
      | Some s => source_over mix s d
      | None => d
      end) row) dst.

(** [QPixmap.scaled(w, h, KeepAspectRatioByExpanding, SmoothTransformation)]:
    a null pixmap stays null and an empty size gives a null pixmap; the
    resampling itself is the parameter [resample]. *)
Definition scaled (resample : Z → Z → Pixmap → Pixmap)
    (w h : Z) (src : Pixmap) : Pixmap :=
  if isNull src || (w <=? 0) || (h <=? 0) then null_pixmap
  else resample w h src.

(** ** The objects of the program *)

(** A location of the store: the identity of one [QPixmap] object. *)
Definition loc := positive.

(** class [Page]: the attribute [canvas] refers to a [QPixmap] object. *)
Record Page := mkPage { canvas : loc; bg_image : option string }.

#[global] Instance Page_eq_dec : EqDecision Page.
Proof. solve_decision. Defined.

(** What the handlers read from the widgets: [self.width()],
    [self.height()] and [self.toolbar.geometry().height()]. *)
Record Geometry := mkGeometry
  { win_width : Z; win_height : Z; toolbar_height : Z }.

Inductive MouseButton := LeftButton | RightButton | MiddleButton.

(** A [QMouseEvent]: [event.button()], whether [event.buttons()] holds
    [Qt.LeftButton], and [event.pos()]. *)
Record MouseEvent := mkMouseEvent
  { button : MouseButton; left_held : bool; pos : QPoint }.

(** The clipboard: [cb.pixmap()] and [cb.image()], null when there is none. *)
Record Clipboard := mkClipboard { cb_pixmap : Pixmap; cb_image : Pixmap }.

Record QRect := mkRect { rx : Z; ry : Z; rw : Z; rh : Z }.
Definition topLeft (r : QRect) : QPoint := mkPoint (rx r) (ry r).

(** class [Notebook]: the attributes set in [__init__], the checked state
    of [eraser_act], and the store of the pixmap objects.  A stack is a
    Python list used with [append] and [pop]: the head of the Rocq list is
    the last element of the Python list. *)
Record Notebook := mkNotebook {
  store : gmap loc Pixmap;
  drawing : bool;
  last_point : QPoint;
  pen_color : Color;
  pen_width : Z;
  eraser : bool;
  eyedropper : bool;
  eraser_act : bool;
  floating_image : option Pixmap;
  floating_pos : QPoint;
  move_mode : bool;
  undo_stacks : gmap Z (list loc);
  redo_stacks : gmap Z (list loc);
  pages : list Page;
  current_page_idx : Z;
  canvas_top : Z
}.

Definition set_store (v : gmap loc Pixmap) (s : Notebook) : Notebook :=
  mkNotebook v (drawing s) (last_point s) (pen_color s) (pen_width s)
    (eraser s) (eyedropper s) (eraser_act s) (floating_image s)
    (floating_pos s) (move_mode s) (undo_stacks s) (redo_stacks s)
    (pages s) (current_page_idx s) (canvas_top s).
Definition set_drawing (v : bool) (s : Notebook) : Notebook :=
  mkNotebook (store s) v (last_point s) (pen_color s) (pen_width s)
    (eraser s) (eyedropper s) (eraser_act s) (floating_image s)
    (floating_pos s) (move_mode s) (undo_stacks s) (redo_stacks s)
    (pages s) (current_page_idx s) (canvas_top s).
Definition set_last_point (v : QPoint) (s : Notebook) : Notebook :=
  mkNotebook (store s) (drawing s) v (pen_color s) (pen_width s)
    (eraser s) (eyedropper s) (eraser_act s) (floating_image s)
    (floating_pos s) (move_mode s) (undo_stacks s) (redo_stacks s)
    (pages s) (current_page_idx s) (canvas_top s).
Definition set_pen_color_field (v : Color) (s : Notebook) : Notebook :=
  mkNotebook (store s) (drawing s) (last_point s) v (pen_width s)
    (eraser s) (eyedropper s) (eraser_act s) (floating_image s)
    (floating_pos s) (move_mode s) (undo_stacks s) (redo_stacks s)
    (pages s) (current_page_idx s) (canvas_top s).
Definition set_pen_width (v : Z) (s : Notebook) : Notebook :=
  mkNotebook (store s) (drawing s) (last_point s) (pen_color s) v
    (eraser s) (eyedropper s) (eraser_act s) (floating_image s)
    (floating_pos s) (move_mode s) (undo_stacks s) (redo_stacks s)
    (pages s) (current_page_idx s) (canvas_top s).
Definition set_eraser (v : bool) (s : Notebook) : Notebook :=
  mkNotebook (store s) (drawing s) (last_point s) (pen_color s) (pen_width s)
    v (eyedropper s) (eraser_act s) (floating_image s)
    (floating_pos s) (move_mode s) (undo_stacks s) (redo_stacks s)
    (pages s) (current_page_idx s) (canvas_top s).
Definition set_eyedropper (v : bool) (s : Notebook) : Notebook :=
  mkNotebook (store s) (drawing s) (last_point s) (pen_color s) (pen_width s)
    (eraser s) v (eraser_act s) (floating_image s)
    (floating_pos s) (move_mode s) (undo_stacks s) (redo_stacks s)
    (pages s) (current_page_idx s) (canvas_top s).
Definition set_eraser_act (v : bool) (s : Notebook) : Notebook :=
  mkNotebook (store s) (drawing s) (last_point s) (pen_color s) (pen_width s)
    (eraser s) (eyedropper s) v (floating_image s)
    (floating_pos s) (move_mode s) (undo_stacks s) (redo_stacks s)
    (pages s) (current_page_idx s) (canvas_top s).
Definition set_floating_image (v : option Pixmap) (s : Notebook) : Notebook :=
  mkNotebook (store s) (drawing s) (last_point s) (pen_color s) (pen_width s)
    (eraser s) (eyedropper s) (eraser_act s) v
    (floating_pos s) (move_mode s) (undo_stacks s) (redo_stacks s)
    (pages s) (current_page_idx s) (canvas_top s).
Definition set_floating_pos (v : QPoint) (s : Notebook) : Notebook :=
  mkNotebook (store s) (drawing s) (last_point s) (pen_color s) (pen_width s)
    (eraser s) (eyedropper s) (eraser_act s) (floating_image s)
    v (move_mode s) (undo_stacks s) (redo_stacks s)
    (pages s) (current_page_idx s) (canvas_top s).
Definition set_move_mode (v : bool) (s : Notebook) : Notebook :=
  mkNotebook (store s) (drawing s) (last_point s) (pen_color s) (pen_width s)
    (eraser s) (eyedropper s) (eraser_act s) (floating_image s)
    (floating_pos s) v (undo_stacks s) (redo_stacks s)
    (pages s) (current_page_idx s) (canvas_top s).
Definition set_undo_stacks (v : gmap Z (list loc)) (s : Notebook) : Notebook :=
  mkNotebook (store s) (drawing s) (last_point s) (pen_color s) (pen_width s)
    (eraser s) (eyedropper s) (eraser_act s) (floating_image s)
    (floating_pos s) (move_mode s) v (redo_stacks s)
    (pages s) (current_page_idx s) (canvas_top s).
Definition set_redo_stacks (v : gmap Z (list loc)) (s : Notebook) : Notebook :=
  mkNotebook (store s) (drawing s) (last_point s) (pen_color s) (pen_width s)
    (eraser s) (eyedropper s) (eraser_act s) (floating_image s)
    (floating_pos s) (move_mode s) (undo_stacks s) v
    (pages s) (current_page_idx s) (canvas_top s).
Definition set_pages (v : list Page) (s : Notebook) : Notebook :=
  mkNotebook (store s) (drawing s) (last_point s) (pen_color s) (pen_width s)
    (eraser s) (eyedropper s) (eraser_act s) (floating_image s)
    (floating_pos s) (move_mode s) (undo_stacks s) (redo_stacks s)
    v (current_page_idx s) (canvas_top s).
Definition set_current_page_idx (v : Z) (s : Notebook) : Notebook :=
  mkNotebook (store s) (drawing s) (last_point s) (pen_color s) (pen_width s)
    (eraser s) (eyedropper s) (eraser_act s) (floating_image s)
    (floating_pos s) (move_mode s) (undo_stacks s) (redo_stacks s)
    (pages s) v (canvas_top s).
Definition set_canvas_top (v : Z) (s : Notebook) : Notebook :=
  mkNotebook (store s) (drawing s) (last_point s) (pen_color s) (pen_width s)
    (eraser s) (eyedropper s) (eraser_act s) (floating_image s)
    (floating_pos s) (move_mode s) (undo_stacks s) (redo_stacks s)
    (pages s) (current_page_idx s) v.

(** ** State and exceptions *)

Inductive Exn := AttributeError | IndexError | KeyError.

Inductive Res (A : Type) := Ok (a : A) | Raise (e : Exn).
Arguments Ok {A} a.
Arguments Raise {A} e.

(** A method of [Notebook]: it runs on the object's state and either
    returns or raises; the state it leaves is kept in both cases. *)
Definition M (A : Type) : Type := Notebook → Res A * Notebook.

Definition ret {A} (a : A) : M A := λ s, (Ok a, s).
Definition bind {A B} (m : M A) (k : A → M B) : M B :=
  λ s, match m s with
       | (Ok a, s') => k a s'
       | (Raise e, s') => (Raise e, s')
       end.
Definition raise {A} (e : Exn) : M A := λ s, (Raise e, s).
Definition get : M Notebook := λ s, (Ok s, s).
Definition modify (f : Notebook → Notebook) : M unit := λ s, (Ok tt, f s).

Notation "'let*' x ':=' m 'in' k" := (bind m (λ x, k))
  (at level 10, x binder, m at level 100, k at level 200).
Notation "m ;; k" := (bind m (λ _, k))
  (at level 100, k at level 200, right associativity).

(** [run m s] is the state [m] leaves, whether it returned or raised. *)
Definition run {A} (m : M A) (s : Notebook) : Notebook := (m s).2.

(** ** Python's lists and dictionaries *)

(** The position an index [i] addresses in a list of [n] elements: a
    negative index counts from the end. *)
Definition py_index (n : nat) (i : Z) : option nat :=
  if (0 <=? i) && (i <? Z.of_nat n) then Some (Z.to_nat i)
  else if (- Z.of_nat n <=? i) && (i <? 0) then Some (Z.to_nat (i + Z.of_nat n))
  else None.

(** [d.setdefault(k, v)] *)
Definition setdefault {V} (k : Z) (v : V) (d : gmap Z V) : gmap Z V :=
  match d !! k with
  | Some _ => d
  | None => <[k:=v]> d
  end.

(** [d[k]] *)
Definition subscript {V} (d : gmap Z V) (k : Z) : M V :=
  match d !! k with
  | Some v => ret v
  | None => raise KeyError
  end.

(** The pixmap object at a location. *)
Definition pixmap_at (s : Notebook) (l : loc) : Pixmap :=
  default null_pixmap (store s !! l).

(** A new pixmap object. *)
Definition alloc (p : Pixmap) : M loc :=
  λ s, let l := fresh (dom (store s)) in
       (Ok l, set_store (<[l:=p]> (store s)) s).

(** [pm.copy()]: a new object with the pixels of the object at [l]. *)
Definition copy (l : loc) : M loc :=
  let* s := get in alloc (pixmap_at s l).

(** A [QPainter] on the object at [l], from its creation to [end()]: the
    object is changed in place. *)
Definition paint (l : loc) (f : Pixmap → Pixmap) : M unit :=
  modify (λ s, set_store (alter f l (store s)) s).

(** Truth value of an optional string: [None] and the empty string are
    false. *)
Definition truthy (o : option string) : bool :=
  match o with
  | Some EmptyString => false
  | Some _ => true
  | None => false
  end.

(** ** The methods of [Page] and [Notebook] *)

Section Notebook.

(** What the program leaves to Qt and to the file system. *)

(** How the painter mixes a translucent pixel with the pixel under it. *)
Variable mix : Color → Color → Color.
(** [QPixmap(path)]: the decoded image file, the null pixmap when the file
    cannot be decoded. *)
Variable loadPixmap : string → Pixmap.
(** The smooth resampling of [QPixmap.scaled]. *)
Variable resample : Z → Z → Pixmap → Pixmap.
(** [painter.drawLine(p, q)] with antialiasing, for a solid pen of a given
    colour and width with round caps and joins. *)
Variable drawLine : Color → Z → QPoint → QPoint → Pixmap → Pixmap.

(** *** Page *)

(** [Page.set_background] on the page object [pg]; the changed object is
    returned. *)
Definition Page_set_background (pg : Page) (image_path : string) : M Page :=
  let* s := get in
  let cv := pixmap_at s (canvas pg) in
  let bg := scaled resample (pm_width cv) (pm_height cv) (loadPixmap image_path) in
  paint (canvas pg) (drawPixmap mix (mkPoint 0 0) bg) ;;
  ret (mkPage (canvas pg) (Some image_path)).

(** [Page.__init__] with [bg_color = Qt.white]. *)
Definition Page_init (w h : Z) (bg : option string) : M Page :=
  let* l := alloc (filled w h white) in
  let pg := mkPage l None in
  if truthy bg
  then match bg with
       | Some path => Page_set_background pg path
       | None => ret pg
       end
  else ret pg.

(** [Page.size] *)
Definition Page_size (s : Notebook) (pg : Page) : Z * Z :=
  (pm_width (pixmap_at s (canvas pg)), pm_height (pixmap_at s (canvas pg))).

(** *** Utility *)

Definition page (s : Notebook) : option Page :=
  if (0 <=? current_page_idx s) &&
     (current_page_idx s <? Z.of_nat (length (pages s)))
  then pages s !! Z.to_nat (current_page_idx s)
  else None.

(** An attribute access on [self.page()]: [AttributeError] on [None]. *)
Definition the_page : M Page :=
  let* s := get in
  match page s with
  | Some pg => ret pg
  | None => raise AttributeError
  end.

(** An assignment to an attribute of the object [self.page()]. *)
Definition update_page (f : Page → Page) : M unit :=
  let* pg := the_page in
  modify (λ s, set_pages (<[Z.to_nat (current_page_idx s) := f pg]> (pages s)) s).

Definition drawing_rect (g : Geometry) : M QRect :=
  let top := toolbar_height g in
  modify (set_canvas_top top) ;;
  let* s := get in
  match page s with
  | None => ret (mkRect 0 top (win_width g) (win_height g - top))
  | Some pg => let '(w, h) := Page_size s pg in ret (mkRect 0 top w h)
  end.

Definition in_canvas (s : Notebook) (p : QPoint) : bool :=
  match page s with
  | None => false
  | Some pg =>
      let '(w, h) := Page_size s pg in
      ((0 <=? px p) && (px p <? w)) && ((0 <=? py p) && (py p <? h))
  end.

(** *** Undo/Redo *)

Definition ensure_stacks : M unit :=
  modify (λ s,
    let i := current_page_idx s in
    set_redo_stacks (setdefault i [] (redo_stacks s))
      (set_undo_stacks (setdefault i [] (undo_stacks s)) s)).

Definition snapshot : M unit :=
  ensure_stacks ;;
  let* s := get in
  let i := current_page_idx s in
  let* u := subscript (undo_stacks s) i in
  let* pg := the_page in
  let* c := copy (canvas pg) in
  modify (λ s, set_undo_stacks (<[i := c :: u]> (undo_stacks s)) s) ;;
  let* s := get in
  let* r := subscript (redo_stacks s) i in
  modify (λ s, set_redo_stacks (<[i := []]> (redo_stacks s)) s).

Definition undo : M unit :=
  ensure_stacks ;;
  let* s := get in
  let i := current_page_idx s in
  let* u := subscript (undo_stacks s) i in
  match u with
  | [] => ret tt
  | last :: u' =>
      let* pg := the_page in
      let* current_copy := copy (canvas pg) in
      modify (λ s, set_undo_stacks (<[i := u']> (undo_stacks s)) s) ;;
      let* s := get in
      let* r := subscript (redo_stacks s) i in
      modify (λ s, set_redo_stacks (<[i := current_copy :: r]> (redo_stacks s)) s) ;;
      update_page (λ pg, mkPage last (bg_image pg))
  end.

Definition redo : M unit :=
  ensure_stacks ;;
  let* s := get in
  let i := current_page_idx s in
  let* r := subscript (redo_stacks s) i in
  match r with
  | [] => ret tt
  | next_img :: r' =>
      let* pg := the_page in
      let* current_copy := copy (canvas pg) in
      modify (λ s, set_redo_stacks (<[i := r']> (redo_stacks s)) s) ;;
      let* s := get in
      let* u := subscript (undo_stacks s) i in
      modify (λ s, set_undo_stacks (<[i := current_copy :: u]> (undo_stacks s)) s) ;;
      update_page (λ pg, mkPage next_img (bg_image pg))
  end.

(** *** Pages *)

(** [update_page_list] rebuilds the list widget; the [currentRowChanged]
    signals it causes call [change_page] with [-1] and with the current
    index, which change nothing. *)
Definition add_page (g : Geometry) : M unit :=
  let top := toolbar_height g in
  let w := Z.max 200 (win_width g) in
  let h := Z.max 200 (win_height g - top) in
  let* s := get in
  let bg := match page s with Some p => bg_image p | None => None end in
  let* pg := Page_init w h bg in
  modify (λ s, set_pages (pages s ++ [pg]) s) ;;
  modify (λ s, set_current_page_idx (Z.of_nat (length (pages s)) - 1) s) ;;
  ensure_stacks ;;
  snapshot.

Definition add_page_same_bg (g : Geometry) : M unit := add_page g.

Definition delete_current_page : M unit :=
  let* s := get in
  match pages s with
  | [] => ret tt
  | _ :: _ =>
      let idx := current_page_idx s in
      match py_index (length (pages s)) idx with
      | None => raise IndexError
      | Some k =>
          modify (λ s, set_pages (delete k (pages s)) s) ;;
          modify (λ s, set_undo_stacks (delete idx (undo_stacks s)) s) ;;
          modify (λ s, set_redo_stacks (delete idx (redo_stacks s)) s) ;;
          let* s := get in
          match pages s with
          | [] => modify (set_current_page_idx (-1))
          | _ :: _ => modify (set_current_page_idx (Z.max 0 (idx - 1)))
          end
      end
  end.

Definition change_page (idx : Z) : M unit :=
  let* s := get in
  if (0 <=? idx) && (idx <? Z.of_nat (length (pages s)))
  then modify (set_current_page_idx idx)
  else ret tt.

(** *** Actions *)

Definition set_pen_color (c : Color) : M unit :=
  modify (set_pen_color_field c) ;;
  modify (set_eraser false) ;;
  modify (set_eraser_act false) ;;
  modify (set_eyedropper false).

Definition enable_eyedropper : M unit :=
  modify (set_eyedropper true) ;;
  modify (set_eraser false) ;;
  modify (set_eraser_act false).

Definition toggle_eraser (checked : bool) : M unit :=
  modify (set_eraser checked) ;;
  if checked then modify (set_eyedropper false) else ret tt.

Definition toggle_eraser_shortcut : M unit :=
  modify (λ s, set_eraser_act (negb (eraser_act s)) s) ;;
  let* s := get in
  toggle_eraser (eraser_act s).

(** [fname] is what the file dialog returned, the empty string when it was
    cancelled. *)
Definition set_background_image (fname : string) : M unit :=
  let* s := get in
  if truthy (Some fname) && bool_decide (is_Some (page s))
  then
    snapshot ;;
    let* pg := the_page in
    let* pg' := Page_set_background pg fname in
    update_page (λ _, pg')
  else ret tt.

Definition paste_image (cb : Clipboard) : M unit :=
  let pm := cb_pixmap cb in
  if isNull pm && isNull (cb_image cb)
  then ret tt                       (* warning "Clipboard has no image." *)
  else
    let pm := if isNull pm then cb_image cb else pm in
    let* s := get in
    match page s with
    | None => ret tt
    | Some pg =>
        modify (set_floating_image (Some pm)) ;;
        let '(w, h) := Page_size s pg in
        let fx := Z.max 0 ((w - pm_width pm) / 2) in
        let fy := Z.max 0 ((h - pm_height pm) / 2) in
        modify (set_floating_pos (mkPoint fx fy)) ;;
        modify (set_move_mode true)
    end.

(** The branch [toggle_move_mode] takes. *)
Inductive ToggleBranch := NoOverlay | Stamp (fi : Pixmap) | ReEnter.

Definition toggle_branch (s : Notebook) : ToggleBranch :=
  match floating_image s with
  | Some fi => if move_mode s then Stamp fi else ReEnter
  | None => NoOverlay
  end.

Definition toggle_move_mode : M unit :=
  let* s := get in
  match toggle_branch s with
  | Stamp fi =>
      snapshot ;;
      let* pg := the_page in
      let* s := get in
      paint (canvas pg) (drawPixmap mix (floating_pos s) fi) ;;
      modify (set_floating_image None) ;;
      modify (set_move_mode false)
  | ReEnter => modify (set_move_mode true)
  | NoOverlay => ret tt
  end.

(** *** Events *)

Definition isSome {A} (o : option A) : bool :=
  match o with Some _ => true | None => false end.

(** [img.pixel(p)] as the program calls it, on a point of the canvas. *)
Definition QImage_pixel (p : Pixmap) (pt : QPoint) : Color :=
  default (mkColor 0 0 0 0) (pixel p (px pt) (py pt)).

(** The test of [mousePressEvent] for a press on the floating image. *)
Definition inside_overlay (s : Notebook) (local : QPoint) : bool :=
  match floating_image s with
  | Some fi =>
      move_mode s &&
      (let rel := psub local (floating_pos s) in
       ((0 <=? px rel) && (px rel <? pm_width fi)) &&
       ((0 <=? py rel) && (py rel <? pm_height fi)))
  | None => false
  end.

(** The branch [mousePressEvent] takes on a press of the left button. *)
Inductive PressBranch :=
  BeginDrag | OutsideCanvas | PickColor | BeginStroke | Suppressed.

Definition press_branch (s : Notebook) (local : QPoint) : PressBranch :=
  if inside_overlay s local then BeginDrag
  else if negb (in_canvas s local) then OutsideCanvas
  else if eyedropper s && isSome (page s) then PickColor
  else if isSome (page s) && negb (isSome (floating_image s)) && negb (move_mode s)
       then BeginStroke
  else Suppressed.

Definition mousePressEvent (g : Geometry) (e : MouseEvent) : M unit :=
  let* rect := drawing_rect g in
  match button e with
  | LeftButton =>
      let local := psub (pos e) (topLeft rect) in
      let* s := get in
      match press_branch s local with
      | BeginDrag =>
          modify (set_drawing true) ;;
          modify (set_last_point local)
      | OutsideCanvas => ret tt
      | PickColor =>
          let* pg := the_page in
          let* s := get in
          let c := solid (QImage_pixel (pixmap_at s (canvas pg)) local) in
          set_pen_color c ;;
          modify (set_eyedropper false)
      | BeginStroke =>
          modify (set_drawing true) ;;
          modify (set_last_point local) ;;
          snapshot
      | Suppressed => ret tt
      end
  | _ => ret tt
  end.

(** The branch [mouseMoveEvent] takes when there is a page. *)
Inductive MoveBranch := DragOverlay (fi : Pixmap) | DrawSegment | NoMove.

Definition move_branch (s : Notebook) (e : MouseEvent) : MoveBranch :=
  match floating_image s with
  | Some fi => if move_mode s && drawing s then DragOverlay fi else NoMove
  | None =>
      if drawing s && left_held e && negb (move_mode s) then DrawSegment
      else NoMove
  end.

Definition clamp (x hi : Z) : Z := Z.max 0 (Z.min x hi).

Definition mouseMoveEvent (g : Geometry) (e : MouseEvent) : M unit :=
  let* rect := drawing_rect g in
  let* s := get in
  match page s with
  | None => ret tt
  | Some pg =>
      let local := psub (pos e) (topLeft rect) in
      match move_branch s e with
      | DragOverlay fi =>
          let delta := psub local (last_point s) in
          let p := padd (floating_pos s) delta in
          let '(w, h) := Page_size s pg in
          modify (set_floating_pos
                    (mkPoint (clamp (px p) (w - pm_width fi))
                             (clamp (py p) (h - pm_height fi)))) ;;
          modify (set_last_point local)
      | DrawSegment =>
          if negb (in_canvas s local) then ret tt
          else
            let color := if eraser s then white else pen_color s in
            paint (canvas pg) (drawLine color (pen_width s) (last_point s) local) ;;
            modify (set_last_point local)
      | NoMove => ret tt
      end
  end.

Definition mouseReleaseEvent (e : MouseEvent) : M unit :=
  match button e with
  | LeftButton => modify (set_drawing false)
  | _ => ret tt
  end.

(** *** The running program *)

(** The ink colours of the toolbar. *)
Definition palette : list Color :=
  [ mkColor 0 0 0 255; mkColor 255 255 255 255; mkColor 255 0 0 255;
    mkColor 0 160 0 255; mkColor 30 144 255 255; mkColor 255 0 255 255;
    mkColor 255 165 0 255; mkColor 138 43 226 255 ].

(** What the user and the window system can do to the window: the
    toolbar, the page dock, the shortcuts and the mouse. *)
Inductive Event :=
  | EvInk (n : nat)                          (* palette button [n] *)
  | EvPickColor                              (* "Pick Color" *)
  | EvEraserAction                           (* the checkable eraser action *)
  | EvEraserShortcut                         (* Ctrl+, *)
  | EvBrush (v : Z)                          (* the slider, 1..60 *)
  | EvSetBackground (fname : string)         (* dialog result *)
  | EvAddPage (g : Geometry)                 (* "Add", Ctrl+. *)
  | EvDeletePage                             (* "Delete" *)
  | EvSelectPage (row : Z)                   (* a row of the page list *)
  | EvUndo                                   (* Ctrl+Z *)
  | EvRedo                                   (* Ctrl+Y *)
  | EvPaste (cb : Clipboard)                 (* Ctrl+V *)
  | EvToggleMove                             (* Ctrl+M *)
  | EvMousePress (g : Geometry) (e : MouseEvent)
  | EvMouseMove (g : Geometry) (e : MouseEvent)
  | EvMouseRelease (e : MouseEvent).

Definition handle (ev : Event) : M unit :=
  match ev with
  | EvInk n =>
      match palette !! n with
      | Some c => set_pen_color c
      | None => ret tt
      end
  | EvPickColor => enable_eyedropper
  | EvEraserAction =>
      modify (λ s, set_eraser_act (negb (eraser_act s)) s) ;;
      let* s := get in
      toggle_eraser (eraser_act s)
  | EvEraserShortcut => toggle_eraser_shortcut
  | EvBrush v => modify (set_pen_width (Z.max 1 (Z.min v 60)))
  | EvSetBackground fname => set_background_image fname
  | EvAddPage g => add_page_same_bg g
  | EvDeletePage => delete_current_page
  | EvSelectPage row => change_page row
  | EvUndo => undo
  | EvRedo => redo
  | EvPaste cb => paste_image cb
  | EvToggleMove => toggle_move_mode
  | EvMousePress g e => mousePressEvent g e
  | EvMouseMove g e => mouseMoveEvent g e
  | EvMouseRelease e => mouseReleaseEvent e
  end.

(** The state an event leaves.  A handler that raises leaves the state it
    had reached, and the window goes on receiving events. *)
Definition step (s : Notebook) (ev : Event) : Notebook := run (handle ev) s.

(** [Notebook.__init__]: the attributes, then the first page. *)
Definition fresh_notebook : Notebook :=
  mkNotebook ∅ false (mkPoint 0 0) black 5 false false false
    None (mkPoint 100 100) false ∅ ∅ [] (-1) 0.

Definition Notebook_init (g : Geometry) : Notebook :=
  run (add_page g) fresh_notebook.

Inductive reachable : Notebook → Prop :=
  | reachable_init g : reachable (Notebook_init g)
  | reachable_step s ev : reachable s → reachable (step s ev).

(** The states of the pasted overlay. *)
Inductive OverlayState := Absent | Placed | Dragging.

Definition overlay_state (s : Notebook) : OverlayState :=
  match floating_image s with
  | None => Absent
  | Some _ => if move_mode s && drawing s then Dragging else Placed
  end.

(** The history of the page at position [i]: its undo and redo stacks. *)
Definition history (s : Notebook) (i : Z) : option (list loc) * option (list loc) :=
  (undo_stacks s !! i, redo_stacks s !! i).

(** The pixels the active page shows. *)
Definition live_buffer (s : Notebook) : option Pixmap :=
  page s ≫= λ pg, store s !! canvas pg.

(** ** What the handlers leave behind

    The states the methods reach, written out; the lemmas below show that
    the methods reach them. *)

(** The stack a dictionary holds for a page position, empty if it holds
    none (what [ensure_stacks] makes of it). *)
Definition stack_of (d : gmap Z (list loc)) (i : Z) : list loc :=
  default [] (d !! i).

(** After [snapshot()] with [pg] the active page. *)
Definition snapshot_state (s : Notebook) (pg : Page) : Notebook :=
  let i := current_page_idx s in
  let c := fresh (dom (store s)) in
  set_redo_stacks (<[i := []]> (redo_stacks s))
    (set_undo_stacks (<[i := c :: stack_of (undo_stacks s) i]> (undo_stacks s))
       (set_store (<[c := pixmap_at s (canvas pg)]> (store s)) s)).

(** After [undo()] that pops [last] and leaves [u']. *)
Definition undo_state (s : Notebook) (pg : Page) (last : loc) (u' : list loc)
    : Notebook :=
  let i := current_page_idx s in
  let c := fresh (dom (store s)) in
  set_pages (<[Z.to_nat i := mkPage last (bg_image pg)]> (pages s))
    (set_redo_stacks (<[i := c :: stack_of (redo_stacks s) i]> (redo_stacks s))
       (set_undo_stacks (<[i := u']> (undo_stacks s))
          (set_store (<[c := pixmap_at s (canvas pg)]> (store s)) s))).

(** After [redo()] that pops [next_img] and leaves [r']. *)
Definition redo_state (s : Notebook) (pg : Page) (next_img : loc) (r' : list loc)
    : Notebook :=
  let i := current_page_idx s in
  let c := fresh (dom (store s)) in
  set_pages (<[Z.to_nat i := mkPage next_img (bg_image pg)]> (pages s))
    (set_undo_stacks (<[i := c :: stack_of (undo_stacks s) i]> (undo_stacks s))
       (set_redo_stacks (<[i := r']> (redo_stacks s))
          (set_store (<[c := pixmap_at s (canvas pg)]> (store s)) s))).

(** After [toggle_move_mode()] has stamped the floating image [fi]. *)
Definition stamp_state (s : Notebook) (pg : Page) (fi : Pixmap) : Notebook :=
  let s1 := snapshot_state s pg in
  set_move_mode false
    (set_floating_image None
       (set_store (alter (drawPixmap mix (floating_pos s) fi) (canvas pg) (store s1))
          s1)).

(** After [set_background_image()] with the file [fname]. *)
Definition background_state (fname : string) (s : Notebook) (pg : Page)
    : Notebook :=
  let s1 := snapshot_state s pg in
  let cv := pixmap_at s1 (canvas pg) in
  let bg := scaled resample (pm_width cv) (pm_height cv) (loadPixmap fname) in
  set_pages
    (<[Z.to_nat (current_page_idx s) := mkPage (canvas pg) (Some fname)]> (pages s))
    (set_store (alter (drawPixmap mix (mkPoint 0 0) bg) (canvas pg) (store s1)) s1).

(** After a [mouseMoveEvent] that drags the floating image [fi]. *)
Definition drag_state (g : Geometry) (e : MouseEvent) (s : Notebook)
    (pg : Page) (fi : Pixmap) : Notebook :=
  let local := psub (pos e) (mkPoint 0 (toolbar_height g)) in
  let p := padd (floating_pos s) (psub local (last_point s)) in
  set_last_point local
    (set_floating_pos
       (mkPoint (clamp (px p) (pm_width (pixmap_at s (canvas pg)) - pm_width fi))
                (clamp (py p) (pm_height (pixmap_at s (canvas pg)) - pm_height fi)))
       (set_canvas_top (toolbar_height g) s)).

(** After a [mousePressEvent] that picks the colour under the pointer. *)
Definition pick_state (g : Geometry) (e : MouseEvent) (s : Notebook) (pg : Page)
    : Notebook :=
  let local := psub (pos e) (mkPoint 0 (toolbar_height g)) in
  set_eyedropper false
    (set_eraser_act false
       (set_eraser false
          (set_pen_color_field
             (solid (QImage_pixel (pixmap_at s (canvas pg)) local))
             (set_canvas_top (toolbar_height g) s)))).

(** The image [paste_image] takes from the clipboard. *)
Definition pasted (cb : Clipboard) : Pixmap :=
  if isNull (cb_pixmap cb) then cb_image cb else cb_pixmap cb.

(** ** Sequences of operations *)

(** A destructive operation as the handlers perform it: [snapshot()], then
    a painter on the canvas of the active page.  [f] is what the painter
    does to the pixels (a stroke, a stamp, a background). *)
Definition destructive (f : Pixmap → Pixmap) : M unit :=
  snapshot ;;
  let* pg := the_page in
  paint (canvas pg) f.

Fixpoint operations (fs : list (Pixmap → Pixmap)) : M unit :=
  match fs with
  | [] => ret tt
  | f :: fs => destructive f ;; operations fs
  end.

(** [m], [n] times. *)
Fixpoint times (n : nat) (m : M unit) : M unit :=
  match n with
  | O => ret tt
  | S n => m ;; times n m
  end.

(** The buffers before each operation of [fs] on the buffer [b], the first
    operation first. *)
Fixpoint befores (b : Pixmap) (fs : list (Pixmap → Pixmap)) : list Pixmap :=
  match fs with
  | [] => []
  | f :: fs => b :: befores (f b) fs
  end.

(** The states after each of a sequence of mouse moves. *)
Fixpoint drag_trace (s : Notebook) (evs : list (Geometry * MouseEvent))
    : list Notebook :=
  match evs with
  | [] => []
  | (g, e) :: evs =>
      let s' := run (mouseMoveEvent g e) s in
      s' :: drag_trace s' evs
  end.

(** The state after a sequence of events, and the states each of the
    events finds. *)
Definition steps (s : Notebook) (evs : list Event) : Notebook :=
  foldl step s evs.

Fixpoint trace (s : Notebook) (evs : list Event) : list Notebook :=
  match evs with
  | [] => []
  | ev :: evs => s :: trace (step s ev) evs
  end.

(** ** The rest of the two classes *)

(** [Page.clone]: a page object of the same size is made, then given a copy
    of the canvas and the background reference. *)
Definition Page_clone (pg : Page) : M Page :=
  let* s := get in
  let '(w, h) := Page_size s pg in
  let* p := Page_init w h None in
  let* c := copy (canvas pg) in
  ret (mkPage c (bg_image pg)).

(** [Notebook.to_canvas_point] *)
Definition to_canvas_point (s : Notebook) (p : QPoint) : QPoint :=
  mkPoint (px p) (py p - canvas_top s).

(** ** More of what the handlers leave behind *)

(** The pixels [Page.__init__] leaves on the canvas, and the page object
    it makes of the canvas [l]. *)
Definition Page_pixels (w h : Z) (bg : option string) : Pixmap :=
  let cv := filled w h white in
  if truthy bg
  then match bg with
       | Some path =>
           drawPixmap mix (mkPoint 0 0)
             (scaled resample (pm_width cv) (pm_height cv) (loadPixmap path)) cv
       | None => cv
       end
  else cv.

Definition Page_made (l : loc) (bg : option string) : Page :=
  mkPage l (if truthy bg then bg else None).

(** After [add_page()]. *)
Definition add_page_state (g : Geometry) (s : Notebook) : Notebook :=
  let w := Z.max 200 (win_width g) in
  let h := Z.max 200 (win_height g - toolbar_height g) in
  let bg := match page s with Some p => bg_image p | None => None end in
  let l := fresh (dom (store s)) in
  snapshot_state
    (set_current_page_idx (Z.of_nat (length (pages s)))
       (set_pages (pages s ++ [Page_made l bg])
          (set_store (<[l := Page_pixels w h bg]> (store s)) s)))
    (Page_made l bg).

(** After a [mouseMoveEvent] that draws a segment of a stroke on the
    canvas of [pg]. *)
Definition segment_state (g : Geometry) (e : MouseEvent) (s : Notebook)
    (pg : Page) : Notebook :=
  let local := psub (pos e) (mkPoint 0 (toolbar_height g)) in
  let color := if eraser s then white else pen_color s in
  set_last_point local
    (set_store
       (alter (drawLine color (pen_width s) (last_point s) local) (canvas pg)
          (store s))
       (set_canvas_top (toolbar_height g) s)).

(** [event.pos() - rect.topLeft()], the pointer in the coordinates of the
    canvas. *)
Definition local_point (ge : Geometry * MouseEvent) : QPoint :=
  psub (pos ge.2) (mkPoint 0 (toolbar_height ge.1)).

(** The events of one stroke or drag: the press, the moves, the release. *)
Definition gesture (g : Geometry) (e : MouseEvent)
    (evs : list (Geometry * MouseEvent)) (e' : MouseEvent) : list Event :=
  EvMousePress g e :: ((λ ge, EvMouseMove ge.1 ge.2) <$> evs) ++ [EvMouseRelease e'].

End Notebook.

(** ** Predicates of the statements *)

(** The object at [c] has the pixels [x]. *)
Definition holds (s : Notebook) (c : loc) (x : Pixmap) : Prop :=
  store s !! c = Some x.

(** All the snapshots a dictionary of stacks refers to. *)
Definition flat (d : gmap Z (list loc)) : list loc := map_to_list d ≫= snd.

(** The canvases of the pages. *)
Definition canvases (s : Notebook) : list loc := canvas <$> pages s.

(** Every reference to a pixmap object the notebook holds. *)
Definition refs (s : Notebook) : list loc :=
  canvases s ++ flat (undo_stacks s) ++ flat (redo_stacks s).

(** No pixmap object is referred to twice, and every reference is to an
    object of the store. *)
Definition inv (s : Notebook) : Prop :=
  NoDup (refs s) ∧ ∀ l, l ∈ refs s → l ∈ dom (store s).

(** [l] is a snapshot on the undo or redo stack of some page position. *)
Definition stored (s : Notebook) (l : loc) : Prop :=
  ∃ i st, (undo_stacks s !! i = Some st ∨ redo_stacks s !! i = Some st) ∧ l ∈ st.

(** From [s] to [s'] only canvases of pages were painted on, and every new
    canvas is a new object. *)
Definition paints_only (s s' : Notebook) : Prop :=
  dom (store s) ⊆ dom (store s') ∧
  (∀ l, l ∈ dom (store s) → l ∉ canvases s → store s' !! l = store s !! l) ∧
  (∀ l, l ∈ canvases s' → l ∈ canvases s ∨ l ∉ dom (store s)).

Definition safe (s s' : Notebook) : Prop :=
  (inv s → inv s') ∧ paints_only s s'.

(** [m] relates every state to the state it leaves. *)
Definition keeps {A} (R : Notebook → Notebook → Prop) (m : M A) : Prop :=
  ∀ s, R s (run m s).

Definition same_overlay (s s' : Notebook) : Prop :=
  floating_image s' = floating_image s ∧ move_mode s' = move_mode s.

(** There is a floating image exactly when move mode is on. *)
Definition overlay_inv (s : Notebook) : Prop :=
  isSome (floating_image s) = move_mode s.

(** A coordinate [x] of an overlay of extent [over] on a page of extent
    [len]: inside the page if the overlay fits, [0] if it does not. *)
Definition within (len over x : Z) : Prop :=
  (over ≤ len → 0 ≤ x ≤ len - over) ∧ (len < over → x = 0).

Definition overlay_in_page (pw ph : Z) (fi : Pixmap) (s : Notebook) : Prop :=
  within pw (pm_width fi) (px (floating_pos s)) ∧
  within ph (pm_height fi) (py (floating_pos s)).

(** The top-left corner that centres the image [pm] on a page of size
    [pw] x [ph]. *)
Definition centred_origin (pw ph : Z) (pm : Pixmap) : QPoint :=
  mkPoint ((pw - pm_width pm) / 2) ((ph - pm_height pm) / 2).

Definition opaque_red : Color := mkColor 255 0 0 255.

(** ** Further predicates *)

(** The active index is [-1] with no pages and a position of the list
    otherwise. *)
Definition index_ok (s : Notebook) : Prop :=
  (pages s = [] ∧ current_page_idx s = -1) ∨
  0 ≤ current_page_idx s < Z.of_nat (length (pages s)).

(** No snapshot is kept under a negative key. *)
Definition no_negative_history (s : Notebook) : Prop :=
  ∀ i, i < 0 → stack_of (undo_stacks s) i = [] ∧ stack_of (redo_stacks s) i = [].

Definition book_ok (s : Notebook) : Prop := index_ok s ∧ no_negative_history s.

(** The eraser flag is the checked state of its action, and eraser and
    eyedropper are not both armed. *)
Definition tools_ok (s : Notebook) : Prop :=
  eraser s = eraser_act s ∧ eraser s && eyedropper s = false.

(** The pixels of the snapshots of a stack, top first. *)
Definition stack_pixels (s : Notebook) (d : gmap Z (list loc)) (i : Z)
    : list (option Pixmap) :=
  (λ l, store s !! l) <$> stack_of d i.

(** What undo and redo are about on the active page: the pixels on its
    undo stack, its buffer, and the pixels on its redo stack. *)
Definition view (s : Notebook)
    : list (option Pixmap) * option Pixmap * list (option Pixmap) :=
  (stack_pixels s (undo_stacks s) (current_page_idx s),
   live_buffer s,
   stack_pixels s (redo_stacks s) (current_page_idx s)).

(** A method returns (it does not raise) on [s]. *)
Definition returns {A} (m : M A) (s : Notebook) : Prop :=
  ∃ a, (m s).1 = Ok a.

Definition never_raises {A} (m : M A) : Prop := ∀ s, returns m s.

Definition same_book (s s' : Notebook) : Prop :=
  pages s' = pages s ∧ current_page_idx s' = current_page_idx s ∧
  undo_stacks s' = undo_stacks s ∧ redo_stacks s' = redo_stacks s.

(** [P] passes from [s] to [s']. *)
Definition pres (P : Notebook → Prop) (s s' : Notebook) : Prop := P s → P s'.

(** From [s] to [s'] the pages, the active index, the history and the
    overlay flags are kept, no object is made, and no object but the canvas
    of the active page has changed. *)
Definition moved (s s' : Notebook) : Prop :=
  same_book s s' ∧ same_overlay s s' ∧
  dom (store s') = dom (store s) ∧
  ∀ l, (∀ pg, page s = Some pg → canvas pg ≠ l) → store s' !! l = store s !! l.

(** The overlay [fi] with its corner at [p] lies inside a page of
    [pw] x [ph]. *)
Definition fits (pw ph : Z) (fi : Pixmap) (p : QPoint) : Prop :=
  0 ≤ px p ≤ pw - pm_width fi ∧ 0 ≤ py p ≤ ph - pm_height fi.

(** The store has only grown. *)
Definition store_grows (s s' : Notebook) : Prop := store s ⊆ store s'.

(** The active index is kept, and so is the history of every other
    position. *)
Definition history_local (s s' : Notebook) : Prop :=
  current_page_idx s' = current_page_idx s ∧
  ∀ j, j ≠ current_page_idx s → history s' j = history s j.

(** ** Sample runs

    Instances of the parameters and some states, for the concrete runs
    below. *)

Definition ex_mix (s d : Color) : Color := mkColor (red s) (green s) (blue s) 255.
(** No file can be decoded. *)
Definition ex_load (path : string) : Pixmap := null_pixmap.
Definition ex_resample (w h : Z) (p : Pixmap) : Pixmap :=
  filled w h (QImage_pixel p (mkPoint 0 0)).
(** A line drawn as its end point. *)
Definition ex_drawLine (c : Color) (w : Z) (p q : QPoint) (pm : Pixmap) : Pixmap :=
  drawPixmap ex_mix q (filled 1 1 c) pm.

Definition ex_geometry : Geometry := mkGeometry 200 200 0.

Definition ex_step : Notebook → Event → Notebook :=
  step ex_mix ex_load ex_resample ex_drawLine.

(** The window as it opens: one page of 200 x 200. *)
Definition ex_start : Notebook :=
  Notebook_init ex_mix ex_load ex_resample ex_geometry.

(** Two more pages added, then the first page selected. *)
Definition ex_three_pages : Notebook :=
  ex_step
    (ex_step (ex_step ex_start (EvAddPage ex_geometry)) (EvAddPage ex_geometry))
    (EvSelectPage 0).

Definition ex_press : MouseEvent := mkMouseEvent LeftButton true (mkPoint 10 10).
Definition ex_move : MouseEvent := mkMouseEvent LeftButton true (mkPoint 12 15).
Definition ex_move2 : MouseEvent := mkMouseEvent LeftButton true (mkPoint 30 40).

(** A stroke begun on the first page. *)
Definition ex_stroke_started : Notebook :=
  ex_step ex_start (EvMousePress ex_geometry ex_press).

(** A stroke drawn and undone: the redo stack of the page holds it. *)
Definition ex_undone : Notebook :=
  ex_step
    (ex_step (ex_step ex_stroke_started (EvMouseMove ex_geometry ex_move))
       (EvMouseRelease ex_move))
    EvUndo.

Definition ex_moves : list Event :=
  [EvMouseMove ex_geometry ex_move; EvMouseMove ex_geometry ex_move2].

Definition ex_bad_background : Notebook :=
  run (set_background_image ex_mix ex_load ex_resample "bad.png") ex_undone.

Definition ex_clipboard : Clipboard :=
  mkClipboard (filled 20 20 opaque_red) null_pixmap.
Definition ex_big_clipboard : Clipboard :=
  mkClipboard (filled 300 300 opaque_red) null_pixmap.

Definition ex_pasted : Notebook := ex_step ex_start (EvPaste ex_clipboard).
Definition ex_big_pasted : Notebook := run (paste_image ex_big_clipboard) ex_start.

(** One page of 4 x 4 with one snapshot on its undo stack and one on its
    redo stack. *)
Definition ex_small : Notebook :=
  mkNotebook
    (<[1%positive := filled 4 4 white]>
       (<[2%positive := filled 4 4 black]>
          (<[3%positive := filled 4 4 opaque_red]> ∅)))
    false (mkPoint 0 0) black 5 false false false
    None (mkPoint 100 100) false
    (<[0 := [2%positive]]> ∅) (<[0 := [3%positive]]> ∅)
    [mkPage 1%positive None] 0 0.

Definition ex_ops : list (Pixmap → Pixmap) :=
  [ ex_drawLine black 1 (mkPoint 0 0) (mkPoint 1 1);
    drawPixmap ex_mix (mkPoint 2 2) (filled 2 2 opaque_red) ].

Definition ex_after_undo_snapshot : Notebook := run snapshot (run undo ex_small).

(** A white page of 100 x 100 with a red floating image of 20 x 20 at
    (45, 45), move mode on. *)
Definition ex_overlay : Notebook :=
  mkNotebook
    (<[1%positive := filled 100 100 white]> ∅)
    false (mkPoint 0 0) black 5 false false false
    (Some (filled 20 20 opaque_red)) (mkPoint 45 45) true
    ∅ ∅ [mkPage 1%positive None] 0 0.

Definition ex_dragging : Notebook := set_drawing true ex_overlay.

Definition ex_drag_events : list (Geometry * MouseEvent) :=
  [ (ex_geometry, mkMouseEvent LeftButton true (mkPoint 500 (-300)));
    (ex_geometry, mkMouseEvent LeftButton true (mkPoint (-700) 900)) ].

Definition ex_eyedropper : Notebook := set_eyedropper true ex_small.
Definition ex_pick_press : MouseEvent :=
  mkMouseEvent LeftButton true (mkPoint 1 9).

(** An image pasted on the only page, and the page deleted: the image
    floats and there is no page. *)
Definition ex_orphan : Notebook := ex_step ex_pasted EvDeletePage.

(** The eyedropper armed, then the eraser switched on. *)
Definition ex_tools : Notebook :=
  ex_step (ex_step ex_start EvPickColor) EvEraserAction.

(** A stroke on the page of [ex_small]. *)
Definition ex_small_press : MouseEvent :=
  mkMouseEvent LeftButton true (mkPoint 1 1).
Definition ex_small_moves : list (Geometry * MouseEvent) :=
  [ (ex_geometry, mkMouseEvent LeftButton true (mkPoint 2 2));
    (ex_geometry, mkMouseEvent LeftButton true (mkPoint 3 1)) ].

(** A drag of the floating image of [ex_overlay], the toolbar growing by
    ten pixels before the second move. *)
Definition ex_overlay_press : MouseEvent :=
  mkMouseEvent LeftButton true (mkPoint 50 50).
Definition ex_overlay_moves : list (Geometry * MouseEvent) :=
  [ (ex_geometry, mkMouseEvent LeftButton true (mkPoint 60 55));
    (mkGeometry 200 200 10, mkMouseEvent LeftButton true (mkPoint 30 80)) ].

(** * Properties *)

Ltac mrun := unfold bind, ret, raise, get, modify, run; simpl.

(** The attributes of [s], named. *)
Ltac fields s :=
  destruct s as [st dr lp pc pw er ey ea fi fp mm us rs ps ix ct].

(** Rewrite [page] of a state that differs from [s] in other attributes
    only. *)
Ltac fold_page s :=
  repeat match goal with
  | |- context [page ?x] =>
      tryif constr_eq x s then fail else
      replace (page x) with (page s) by (destruct s; reflexivity)
  end.

Section Properties.

Context (mix : Color → Color → Color) (loadPixmap : string → Pixmap)
  (resample : Z → Z → Pixmap → Pixmap)
  (drawLine : Color → Z → QPoint → QPoint → Pixmap → Pixmap).

(** ** Dictionaries and [snapshot] *)

Lemma lookup_setdefault (d : gmap Z (list loc)) i :
  setdefault i [] d !! i = Some (stack_of d i).
Proof.
  unfold setdefault, stack_of. destruct (d !! i) eqn:E; simpl; [done|].
  by rewrite lookup_insert_eq.
Qed.

Lemma insert_setdefault (d : gmap Z (list loc)) i x :
  <[i:=x]> (setdefault i [] d) = <[i:=x]> d.
Proof.
  unfold setdefault. destruct (d !! i); [done|]. by rewrite insert_insert_eq.
Qed.

Lemma setdefault_id (d : gmap Z (list loc)) i :
  is_Some (d !! i) → setdefault i [] d = d.
Proof. intros [x Hx]. unfold setdefault. by rewrite Hx. Qed.

Lemma snapshot_spec s pg :
  page s = Some pg → snapshot s = (Ok tt, snapshot_state s pg).
Proof.
  intros Hp. destruct s.
  unfold snapshot, snapshot_state, ensure_stacks, the_page, copy, alloc, subscript.
  unfold page in *. simpl in *. mrun.
  rewrite lookup_setdefault. simpl. unfold page. simpl. rewrite Hp. simpl.
  rewrite lookup_setdefault. simpl.
  by rewrite !insert_setdefault.
Qed.

Lemma snapshot_raises s :
  page s = None → snapshot s = (Raise AttributeError, run ensure_stacks s).
Proof.
  intros Hp. destruct s.
  unfold snapshot, ensure_stacks, the_page, copy, alloc, subscript.
  unfold page in *. simpl in *. mrun.
  rewrite lookup_setdefault. simpl. unfold page. simpl. by rewrite Hp.
Qed.

(** ** [undo] and [redo] *)

Lemma undo_spec s pg last u' :
  page s = Some pg → stack_of (undo_stacks s) (current_page_idx s) = last :: u' →
  undo s = (Ok tt, undo_state s pg last u').
Proof.
  intros Hp Hu. destruct s.
  unfold undo, undo_state, ensure_stacks, update_page, the_page, copy, alloc, subscript.
  unfold page in *. simpl in *. mrun.
  rewrite lookup_setdefault, Hu. simpl. unfold page. simpl. rewrite Hp. simpl.
  rewrite lookup_setdefault. simpl. unfold page. simpl. rewrite Hp. simpl.
  by rewrite !insert_setdefault.
Qed.

Lemma undo_noop s :
  stack_of (undo_stacks s) (current_page_idx s) = [] →
  undo s = (Ok tt, run ensure_stacks s).
Proof.
  intros Hu. destruct s. unfold undo, ensure_stacks, subscript. simpl in *. mrun.
  by rewrite lookup_setdefault, Hu.
Qed.

Lemma redo_spec s pg next_img r' :
  page s = Some pg → stack_of (redo_stacks s) (current_page_idx s) = next_img :: r' →
  redo s = (Ok tt, redo_state s pg next_img r').
Proof.
  intros Hp Hu. destruct s.
  unfold redo, redo_state, ensure_stacks, update_page, the_page, copy, alloc, subscript.
  unfold page in *. simpl in *. mrun.
  rewrite lookup_setdefault, Hu. simpl. unfold page. simpl. rewrite Hp. simpl.
  rewrite lookup_setdefault. simpl. unfold page. simpl. rewrite Hp. simpl.
  by rewrite !insert_setdefault.
Qed.

Lemma redo_noop s :
  stack_of (redo_stacks s) (current_page_idx s) = [] →
  redo s = (Ok tt, run ensure_stacks s).
Proof.
  intros Hu. destruct s. unfold redo, ensure_stacks, subscript. simpl in *. mrun.
  by rewrite lookup_setdefault, Hu.
Qed.

Lemma ensure_stacks_id s :
  is_Some (undo_stacks s !! current_page_idx s) →
  is_Some (redo_stacks s !! current_page_idx s) →
  run ensure_stacks s = s.
Proof.
  intros Hu Hr. destruct s. unfold ensure_stacks. simpl in *. mrun.
  by rewrite !setdefault_id.
Qed.

Lemma snapshot_ok_inv s s' :
  snapshot s = (Ok tt, s') → ∃ pg, page s = Some pg ∧ s' = snapshot_state s pg.
Proof.
  destruct (page s) as [pg|] eqn:Hp.
  - rewrite (snapshot_spec _ _ Hp). intros [= <-]. eauto.
  - rewrite (snapshot_raises _ Hp). discriminate.
Qed.

Lemma redo_on_empty_stack s :
  is_Some (undo_stacks s !! current_page_idx s) →
  redo_stacks s !! current_page_idx s = Some [] →
  redo s = (Ok tt, s).
Proof.
  intros Hu Hr. rewrite redo_noop by (unfold stack_of; by rewrite Hr).
  rewrite ensure_stacks_id; [done|done|by rewrite Hr].
Qed.

(** ** Operations, undone and redone *)

Lemma page_idx_range s pg :
  page s = Some pg →
  pages s !! Z.to_nat (current_page_idx s) = Some pg.
Proof.
  unfold page. destruct (_ && _); [done|discriminate].
Qed.

Lemma page_set_canvas s pg pg' :
  page s = Some pg →
  ∀ s', pages s' = <[Z.to_nat (current_page_idx s) := pg']> (pages s) →
  current_page_idx s' = current_page_idx s →
  page s' = Some pg'.
Proof.
  intros Hp s' Hps Hi. unfold page in *. rewrite Hps, Hi, length_insert.
  destruct (_ && _); [|discriminate].
  apply list_lookup_insert_eq. by eapply lookup_lt_Some.
Qed.

Lemma page_same s s' :
  pages s' = pages s → current_page_idx s' = current_page_idx s →
  page s' = page s.
Proof. intros Hp Hi. unfold page. by rewrite Hp, Hi. Qed.

Lemma fresh_store_ne (m : gmap loc Pixmap) l :
  l ∈ dom m → l ≠ fresh (dom m).
Proof. intros Hl ->. by apply (is_fresh (dom m)). Qed.

Lemma store_alloc_subseteq (m : gmap loc Pixmap) x :
  m ⊆ <[fresh (dom m) := x]> m.
Proof.
  apply insert_subseteq, not_elem_of_dom, is_fresh.
Qed.

Lemma holds_mono s s' c x :
  store s ⊆ store s' → holds s c x → holds s' c x.
Proof. unfold holds. intros Hsub Hc. by eapply lookup_weaken. Qed.

Lemma destructive_spec f s pg :
  page s = Some pg →
  destructive f s =
    (Ok tt, set_store (alter f (canvas pg) (store (snapshot_state s pg)))
              (snapshot_state s pg)).
Proof.
  intros Hp. unfold destructive. unfold bind at 1.
  rewrite (snapshot_spec _ _ Hp).
  unfold the_page, paint. mrun.
  assert (page (snapshot_state s pg) = Some pg) as ->.
  { rewrite <- Hp. apply page_same; by destruct s. }
  done.
Qed.

(** C6.  Redo invalidation.  Once the snapshot of a new destructive operation
    has been taken after an undo, the redo stack of the page is empty, and
    [redo] returns leaving the whole state, buffer and stacks, as it is;
    so it is after the whole operation, whatever it paints. *)
Theorem redo_after_new_snapshot_is_noop (s s' : Notebook) :
  snapshot (run undo s) = (Ok tt, s') →
  (redo_stacks s' !! current_page_idx s' = Some [] ∧
   redo s' = (Ok tt, s')) ∧
  ∀ f, ∃ s'',
    destructive f (run undo s) = (Ok tt, s'') ∧
    redo_stacks s'' !! current_page_idx s'' = Some [] ∧
    redo s'' = (Ok tt, s'').
Proof.
  intros Hs. apply snapshot_ok_inv in Hs as (pg & Hp & ->).
  set (s1 := run undo s) in *.
  assert (Hu : is_Some (undo_stacks (snapshot_state s1 pg)
                          !! current_page_idx (snapshot_state s1 pg))).
  { destruct s1; simpl. rewrite lookup_insert_eq. eauto. }
  assert (Hr : redo_stacks (snapshot_state s1 pg)
                 !! current_page_idx (snapshot_state s1 pg) = Some []).
  { destruct s1; simpl. apply lookup_insert_eq. }
  split; [split; [done|by apply redo_on_empty_stack]|].
  intros f. eexists. split; [by apply destructive_spec|].
  split; [exact Hr|]. by apply redo_on_empty_stack.
Qed.

Lemma operations_spec fs : ∀ s pg b,
  page s = Some pg → holds s (canvas pg) b →
  ∃ s' cs,
    operations fs s = (Ok tt, s') ∧
    page s' = Some pg ∧
    current_page_idx s' = current_page_idx s ∧
    stack_of (undo_stacks s') (current_page_idx s)
      = cs ++ stack_of (undo_stacks s) (current_page_idx s) ∧
    Forall2 (holds s') cs (rev (befores b fs)) ∧
    holds s' (canvas pg) (foldl (λ b f, f b) b fs) ∧
    (∀ l, l ∈ dom (store s) → l ≠ canvas pg → store s' !! l = store s !! l).
Proof.
  induction fs as [|f fs IH]; intros s pg b Hp Hb.
  - exists s, []. simpl. repeat split; eauto.
  - simpl. unfold bind. rewrite (destructive_spec _ _ _ Hp).
    set (s1 := set_store _ _).
    assert (Hl : canvas pg ∈ dom (store s)) by (apply elem_of_dom; eauto).
    assert (Hne : canvas pg ≠ fresh (dom (store s))) by by apply fresh_store_ne.
    assert (Hp1 : page s1 = Some pg).
    { rewrite <- Hp. apply page_same; by destruct s. }
    assert (Hb1 : holds s1 (canvas pg) (f b)).
    { unfold holds, s1. destruct s; simpl in *.
      rewrite lookup_alter_eq, lookup_insert_ne by done.
      unfold holds in Hb. simpl in Hb. by rewrite Hb. }
    destruct (IH s1 pg (f b) Hp1 Hb1) as (s' & cs & Hrun & Hp' & Hi' & Hu' & Hcs & Hb' & Hfr).
    assert (Hi1 : current_page_idx s1 = current_page_idx s) by by destruct s.
    assert (Hu1 : stack_of (undo_stacks s1) (current_page_idx s)
                  = fresh (dom (store s)) :: stack_of (undo_stacks s) (current_page_idx s)).
    { unfold s1, stack_of. destruct s; simpl. by rewrite lookup_insert_eq. }
    assert (Hc1 : holds s1 (fresh (dom (store s))) b).
    { unfold holds, s1. destruct s; simpl in *.
      rewrite lookup_alter_ne, lookup_insert_eq by done.
      unfold pixmap_at. simpl. unfold holds in Hb. simpl in Hb. by rewrite Hb. }
    assert (Hd1 : dom (store s1) = {[fresh (dom (store s))]} ∪ dom (store s)).
    { unfold s1. destruct s; simpl. by rewrite dom_alter_L, dom_insert_L. }
    exists s', (cs ++ [fresh (dom (store s))]).
    split; [done|]. split; [done|]. split; [congruence|].
    split. { rewrite Hi1 in Hu'. rewrite Hu', Hu1. by rewrite <- app_assoc. }
    split.
    { apply Forall2_app; [done|]. constructor; [|constructor].
      unfold holds. rewrite Hfr; [done| |done].
      rewrite Hd1, elem_of_union, elem_of_singleton. by left. }
    split; [done|].
    intros l Hl' Hn. rewrite Hfr; [| rewrite Hd1, elem_of_union; by right | done].
    unfold s1. fields s; simpl in *.
    rewrite lookup_alter_ne by done.
    rewrite lookup_insert_ne; [done|]. intros <-. by apply (is_fresh (dom st)).
Qed.

Lemma undo_times cs : ∀ s pg b bs U0,
  page s = Some pg → holds s (canvas pg) b →
  stack_of (undo_stacks s) (current_page_idx s) = cs ++ U0 →
  Forall2 (holds s) cs bs →
  ∃ s' pg' ds b' dbs,
    times (length cs) undo s = (Ok tt, s') ∧
    current_page_idx s' = current_page_idx s ∧
    page s' = Some pg' ∧ holds s' (canvas pg') b' ∧
    stack_of (undo_stacks s') (current_page_idx s) = U0 ∧
    stack_of (redo_stacks s') (current_page_idx s)
      = ds ++ stack_of (redo_stacks s) (current_page_idx s) ∧
    Forall2 (holds s') ds dbs ∧
    rev (b :: bs) = b' :: dbs ∧
    store s ⊆ store s'.
Proof.
  induction cs as [|c cs IH]; intros s pg b bs U0 Hp Hb Hu Hcs.
  - apply Forall2_nil_inv_l in Hcs as ->.
    exists s, pg, [], b, []. simpl. repeat split; eauto.
  - apply Forall2_cons_inv_l in Hcs as (x & bs' & Hc & Hcs & ->).
    simpl in Hu. simpl. unfold bind. rewrite (undo_spec _ _ _ _ Hp Hu).
    set (s1 := undo_state _ _ _ _).
    assert (Hi1 : current_page_idx s1 = current_page_idx s) by by destruct s.
    assert (Hsub : store s ⊆ store s1).
    { unfold s1. destruct s; simpl. apply store_alloc_subseteq. }
    assert (Hp1 : page s1 = Some (mkPage c (bg_image pg))).
    { eapply page_set_canvas; [exact Hp| |done]. by destruct s. }
    assert (Hb1 : holds s1 (canvas (mkPage c (bg_image pg))) x).
    { simpl. by eapply holds_mono. }
    assert (Hu1 : stack_of (undo_stacks s1) (current_page_idx s1) = cs ++ U0).
    { unfold s1, stack_of. destruct s; simpl. by rewrite lookup_insert_eq. }
    assert (Hcs1 : Forall2 (holds s1) cs bs').
    { eapply Forall2_impl; [exact Hcs|]. intros. by eapply holds_mono. }
    destruct (IH s1 _ x bs' U0 Hp1 Hb1 Hu1 Hcs1)
      as (s' & pg' & ds & b' & dbs & Hrun & Hi' & Hp' & Hb' & Hu' & Hr' & Hds & Hrev & Hsub').
    assert (Hr1 : stack_of (redo_stacks s1) (current_page_idx s)
                  = fresh (dom (store s)) :: stack_of (redo_stacks s) (current_page_idx s)).
    { unfold s1, stack_of. destruct s; simpl. by rewrite lookup_insert_eq. }
    assert (Hd1 : holds s1 (fresh (dom (store s))) b).
    { unfold holds, s1. destruct s; simpl in *. rewrite lookup_insert_eq.
      unfold pixmap_at. simpl. unfold holds in Hb. simpl in Hb. by rewrite Hb. }
    exists s', pg', (ds ++ [fresh (dom (store s))]), b', (dbs ++ [b]).
    rewrite Hi1 in *.
    split; [done|]. split; [done|]. split; [done|]. split; [done|].
    split; [done|].
    split. { rewrite Hr', Hr1. by rewrite <- app_assoc. }
    split. { apply Forall2_app; [done|]. constructor; [|constructor].
             by eapply holds_mono. }
    split. { simpl in *. by rewrite Hrev. }
    by etrans.
Qed.

Lemma redo_times cs : ∀ s pg b bs R0,
  page s = Some pg → holds s (canvas pg) b →
  stack_of (redo_stacks s) (current_page_idx s) = cs ++ R0 →
  Forall2 (holds s) cs bs →
  ∃ s' pg' ds b' dbs,
    times (length cs) redo s = (Ok tt, s') ∧
    current_page_idx s' = current_page_idx s ∧
    page s' = Some pg' ∧ holds s' (canvas pg') b' ∧
    stack_of (redo_stacks s') (current_page_idx s) = R0 ∧
    stack_of (undo_stacks s') (current_page_idx s)
      = ds ++ stack_of (undo_stacks s) (current_page_idx s) ∧
    Forall2 (holds s') ds dbs ∧
    rev (b :: bs) = b' :: dbs ∧
    store s ⊆ store s'.
Proof.
  induction cs as [|c cs IH]; intros s pg b bs R0 Hp Hb Hu Hcs.
  - apply Forall2_nil_inv_l in Hcs as ->.
    exists s, pg, [], b, []. simpl. repeat split; eauto.
  - apply Forall2_cons_inv_l in Hcs as (x & bs' & Hc & Hcs & ->).
    simpl in Hu. simpl. unfold bind. rewrite (redo_spec _ _ _ _ Hp Hu).
    set (s1 := redo_state _ _ _ _).
    assert (Hi1 : current_page_idx s1 = current_page_idx s) by by destruct s.
    assert (Hsub : store s ⊆ store s1).
    { unfold s1. destruct s; simpl. apply store_alloc_subseteq. }
    assert (Hp1 : page s1 = Some (mkPage c (bg_image pg))).
    { eapply page_set_canvas; [exact Hp| |done]. by destruct s. }
    assert (Hb1 : holds s1 (canvas (mkPage c (bg_image pg))) x).
    { simpl. by eapply holds_mono. }
    assert (Hu1 : stack_of (redo_stacks s1) (current_page_idx s1) = cs ++ R0).
    { unfold s1, stack_of. destruct s; simpl. by rewrite lookup_insert_eq. }
    assert (Hcs1 : Forall2 (holds s1) cs bs').
    { eapply Forall2_impl; [exact Hcs|]. intros. by eapply holds_mono. }
    destruct (IH s1 _ x bs' R0 Hp1 Hb1 Hu1 Hcs1)
      as (s' & pg' & ds & b' & dbs & Hrun & Hi' & Hp' & Hb' & Hu' & Hr' & Hds & Hrev & Hsub').
    assert (Hr1 : stack_of (undo_stacks s1) (current_page_idx s)
                  = fresh (dom (store s)) :: stack_of (undo_stacks s) (current_page_idx s)).
    { unfold s1, stack_of. destruct s; simpl. by rewrite lookup_insert_eq. }
    assert (Hd1 : holds s1 (fresh (dom (store s))) b).
    { unfold holds, s1. destruct s; simpl in *. rewrite lookup_insert_eq.
      unfold pixmap_at. simpl. unfold holds in Hb. simpl in Hb. by rewrite Hb. }
    exists s', pg', (ds ++ [fresh (dom (store s))]), b', (dbs ++ [b]).
    rewrite Hi1 in *.
    split; [done|]. split; [done|]. split; [done|]. split; [done|].
    split; [done|].
    split. { rewrite Hr', Hr1. by rewrite <- app_assoc. }
    split. { apply Forall2_app; [done|]. constructor; [|constructor].
             by eapply holds_mono. }
    split. { simpl in *. by rewrite Hrev. }
    by etrans.
Qed.

Lemma live_buffer_holds s pg b :
  page s = Some pg → holds s (canvas pg) b → live_buffer s = Some b.
Proof. intros Hp Hb. unfold live_buffer. by rewrite Hp. Qed.

Lemma befores_length b fs : length (befores b fs) = length fs.
Proof. revert b. induction fs; intros; simpl; auto. Qed.

Lemma befores_head b fs :
  head (befores b fs ++ [foldl (λ b f, f b) b fs]) = Some b.
Proof. by destruct fs. Qed.

(** C2.  Undo/redo inverse law.  On the active page, after any sequence of
    destructive operations, each preceded by exactly one snapshot, as many
    undos as there were operations bring back the buffer as it was before
    the first operation, and as many redos after that bring back the buffer
    as it was after the last one.  All three runs return without raising. *)
Theorem undo_redo_inverse (s : Notebook) (pg : Page) (fs : list (Pixmap → Pixmap)) :
  page s = Some pg →
  canvas pg ∈ dom (store s) →
  ∃ s1 s2 s3,
    operations fs s = (Ok tt, s1) ∧
    times (length fs) undo s1 = (Ok tt, s2) ∧
    times (length fs) redo s2 = (Ok tt, s3) ∧
    is_Some (live_buffer s) ∧
    live_buffer s2 = live_buffer s ∧
    live_buffer s3 = live_buffer s1.
Proof.
  intros Hp Hd. apply elem_of_dom in Hd as [b Hb].
  destruct (operations_spec fs s pg b Hp Hb)
    as (s1 & cs & Hops & Hp1 & Hi1 & Hu1 & Hcs & Hb1 & _).
  assert (Hlen : length cs = length fs).
  { apply Forall2_length in Hcs. by rewrite Hcs, length_rev, befores_length. }
  rewrite <- Hi1 in Hu1.
  destruct (undo_times cs s1 pg _ _ _ Hp1 Hb1 Hu1 Hcs)
    as (s2 & pg2 & ds & b2 & dbs & Hun & Hi2 & Hp2 & Hb2 & _ & Hr2 & Hds & Hrev & _).
  assert (Hlen2 : length ds = length fs).
  { apply Forall2_length in Hds. apply (f_equal length) in Hrev.
    rewrite length_rev in Hrev. simpl in Hrev.
    rewrite length_rev, befores_length in Hrev. lia. }
  rewrite <- Hi2 in Hr2.
  destruct (redo_times ds s2 pg2 _ _ _ Hp2 Hb2 Hr2 Hds)
    as (s3 & pg3 & es & b3 & ebs & Hre & _ & Hp3 & Hb3 & _ & _ & _ & Hrev' & _).
  exists s1, s2, s3. rewrite <- Hlen at 1. rewrite <- Hlen2.
  split; [done|]. split; [done|]. split; [done|].
  rewrite (live_buffer_holds _ _ _ Hp Hb), (live_buffer_holds _ _ _ Hp1 Hb1),
    (live_buffer_holds _ _ _ Hp2 Hb2), (live_buffer_holds _ _ _ Hp3 Hb3).
  split; [eauto|].
  simpl in Hrev. rewrite rev_involutive in Hrev.
  split.
  - pose proof (befores_head b fs) as Hh. rewrite Hrev in Hh. simpl in Hh. done.
  - rewrite <- Hrev in Hrev'. simpl in Hrev'.
    rewrite rev_app_distr in Hrev'. simpl in Hrev'. by injection Hrev' as <- _.
Qed.

(** ** References to pixmap objects *)

Lemma submseteq_NoDup (l k : list loc) : l ⊆+ k → NoDup k → NoDup l.
Proof.
  intros [k' Hk]%submseteq_Permutation. rewrite Hk, NoDup_app. tauto.
Qed.

Lemma flat_insert d i x : flat (<[i:=x]> d) ≡ₚ x ++ flat (delete i d).
Proof.
  unfold flat. rewrite <- insert_delete_eq.
  rewrite map_to_list_insert by apply lookup_delete_eq. done.
Qed.

Lemma flat_stack d i : flat d ≡ₚ stack_of d i ++ flat (delete i d).
Proof.
  unfold flat, stack_of. destruct (d !! i) as [x|] eqn:E; simpl.
  - by rewrite <- (map_to_list_delete d i x E).
  - by rewrite delete_id.
Qed.

Lemma flat_setdefault d i : flat (setdefault i [] d) ≡ₚ flat d.
Proof.
  unfold setdefault. destruct (d !! i) eqn:E; [done|].
  rewrite flat_insert. by rewrite delete_id.
Qed.

Lemma flat_delete d i : flat (delete i d) ⊆+ flat d.
Proof. rewrite (flat_stack d i). by apply submseteq_inserts_l. Qed.

Lemma elem_of_flat d l :
  l ∈ flat d ↔ ∃ i st, d !! i = Some st ∧ l ∈ st.
Proof.
  unfold flat. rewrite list_elem_of_bind. split.
  - intros ([i st] & Hl & Hm%elem_of_map_to_list). eauto.
  - intros (i & st & Hm & Hl). exists (i, st). by rewrite elem_of_map_to_list.
Qed.

Lemma stored_refs s l : stored s l → l ∈ refs s.
Proof.
  intros (i & st & [H|H] & Hl); unfold refs; rewrite !elem_of_app, !elem_of_flat;
    eauto 10.
Qed.

Lemma stored_not_canvas s l : inv s → stored s l → l ∉ canvases s.
Proof.
  intros [Hnd _] Hst Hc. unfold refs in Hnd.
  apply NoDup_app in Hnd as (_ & Hdisj & _). apply (Hdisj l Hc).
  destruct Hst as (i & st & [H|H] & Hl); rewrite elem_of_app, !elem_of_flat; eauto 10.
Qed.

Lemma inv_transport s s' new :
  inv s → refs s' ⊆+ new ++ refs s → NoDup new →
  (∀ l, l ∈ new → l ∉ dom (store s)) →
  (∀ l, l ∈ new ∨ l ∈ dom (store s) → l ∈ dom (store s')) →
  inv s'.
Proof.
  intros [Hnd Hdom] Hsub Hnew Hfresh Hd. split.
  - eapply submseteq_NoDup; [exact Hsub|]. apply NoDup_app. naive_solver.
  - intros l Hl. apply Hd. eapply elem_of_submseteq in Hl; [|exact Hsub].
    apply elem_of_app in Hl as [?|?]; auto.
Qed.

Lemma inv_ensure_stacks s : inv s → inv (run ensure_stacks s).
Proof.
  intros H. apply (inv_transport s _ []); auto.
  - unfold refs, canvases. destruct s; simpl. by rewrite !flat_setdefault.
  - constructor.
  - intros l Hl. by apply elem_of_nil in Hl.
  - intros l [Hl|Hl]; [by apply elem_of_nil in Hl|]. by destruct s.
Qed.

Lemma page_canvas_in s pg : page s = Some pg → canvas pg ∈ canvases s.
Proof.
  intros Hp%page_idx_range. unfold canvases.
  apply list_elem_of_fmap. exists pg. split; [done|].
  by eapply list_elem_of_lookup_2.
Qed.

Lemma inv_snapshot_state s pg : inv s → inv (snapshot_state s pg).
Proof.
  intros H. apply (inv_transport s _ [fresh (dom (store s))]); auto.
  - unfold refs, canvases. fields s; simpl.
    rewrite !flat_insert. rewrite (flat_stack us ix).
    rewrite (flat_stack rs ix).
    solve_submseteq.
  - apply NoDup_singleton.
  - intros l ->%list_elem_of_singleton. apply is_fresh.
  - intros l Hl. destruct s; simpl in *. rewrite dom_insert_L.
    rewrite list_elem_of_singleton in Hl. set_solver.
Qed.

Lemma canvases_set_canvas (ps : list Page) k pg l bg :
  ps !! k = Some pg →
  canvas <$> <[k := mkPage l bg]> ps ⊆+ l :: (canvas <$> ps).
Proof.
  intros Hk. rewrite list_fmap_insert. simpl.
  assert (Hk' : (canvas <$> ps) !! k = Some (canvas pg)) by by rewrite list_lookup_fmap, Hk.
  rewrite insert_take_drop by by eapply lookup_lt_Some.
  rewrite <- (take_drop_middle _ _ _ Hk') at 3.
  solve_submseteq.
Qed.

Lemma inv_undo_state s pg last u' :
  page s = Some pg →
  stack_of (undo_stacks s) (current_page_idx s) = last :: u' →
  inv s → inv (undo_state s pg last u').
Proof.
  intros Hp Hu H. apply (inv_transport s _ [fresh (dom (store s))]); auto.
  - apply page_idx_range in Hp. unfold refs, canvases. fields s; simpl in *.
    rewrite !flat_insert. rewrite (flat_stack us ix).
    rewrite (flat_stack rs ix). rewrite Hu.
    etrans; [apply submseteq_app;
               [exact (canvases_set_canvas _ _ _ _ _ Hp)|reflexivity]|].
    solve_submseteq.
  - apply NoDup_singleton.
  - intros l ->%list_elem_of_singleton. apply is_fresh.
  - intros l Hl. destruct s; simpl in *. rewrite dom_insert_L.
    rewrite list_elem_of_singleton in Hl. set_solver.
Qed.

Lemma inv_redo_state s pg next_img r' :
  page s = Some pg →
  stack_of (redo_stacks s) (current_page_idx s) = next_img :: r' →
  inv s → inv (redo_state s pg next_img r').
Proof.
  intros Hp Hu H. apply (inv_transport s _ [fresh (dom (store s))]); auto.
  - apply page_idx_range in Hp. unfold refs, canvases. fields s; simpl in *.
    rewrite !flat_insert. rewrite (flat_stack us ix).
    rewrite (flat_stack rs ix). rewrite Hu.
    etrans; [apply submseteq_app;
               [exact (canvases_set_canvas _ _ _ _ _ Hp)|reflexivity]|].
    solve_submseteq.
  - apply NoDup_singleton.
  - intros l ->%list_elem_of_singleton. apply is_fresh.
  - intros l Hl. destruct s; simpl in *. rewrite dom_insert_L.
    rewrite list_elem_of_singleton in Hl. set_solver.
Qed.

(** ** Steps that keep snapshots apart *)

Lemma paints_only_refl s : paints_only s s.
Proof. split; [done|]. split; auto. Qed.

Lemma paints_only_trans s1 s2 s3 :
  paints_only s1 s2 → paints_only s2 s3 → paints_only s1 s3.
Proof.
  intros (Hd1 & Hf1 & Hc1) (Hd2 & Hf2 & Hc2). split; [set_solver|]. split.
  - intros l Hl Hn. rewrite Hf2, Hf1; auto.
    intros Hc. destruct (Hc1 l Hc); auto.
  - intros l Hl. destruct (Hc2 l Hl) as [H|H]; [auto|].
    right. intros Hd. apply H. by apply Hd1.
Qed.

Lemma safe_refl s : safe s s.
Proof. split; [done|apply paints_only_refl]. Qed.

Lemma safe_trans s1 s2 s3 : safe s1 s2 → safe s2 s3 → safe s1 s3.
Proof.
  intros [Hi1 Hp1] [Hi2 Hp2]. split; [auto|by eapply paints_only_trans].
Qed.

Lemma safe_ensure_stacks s : safe s (run ensure_stacks s).
Proof.
  split; [apply inv_ensure_stacks|].
  destruct s. unfold paints_only, canvases. simpl. split; [done|]. split; auto.
Qed.

Lemma safe_snapshot_state s pg : safe s (snapshot_state s pg).
Proof.
  split; [apply inv_snapshot_state|].
  fields s. unfold paints_only, canvases. simpl. split; [|split].
  - rewrite dom_insert_L. set_solver.
  - intros l Hl _. apply lookup_insert_ne. intros <-. by apply (is_fresh (dom st)).
  - auto.
Qed.

Lemma safe_snapshot s : safe s (run snapshot s).
Proof.
  unfold run. destruct (page s) as [pg|] eqn:Hp.
  - rewrite (snapshot_spec _ _ Hp). apply safe_snapshot_state.
  - rewrite (snapshot_raises _ Hp). apply safe_ensure_stacks.
Qed.

(** A page object replaced by one with the same canvas. *)
Lemma canvases_update (ps : list Page) k pg pg' :
  ps !! k = Some pg → canvas pg' = canvas pg →
  canvas <$> <[k := pg']> ps = canvas <$> ps.
Proof.
  intros Hk Hc. rewrite list_fmap_insert, Hc.
  apply list_insert_id. by rewrite list_lookup_fmap, Hk.
Qed.

Lemma page_snapshot_state s pg : page (snapshot_state s pg) = page s.
Proof. apply page_same; by destruct s. Qed.

(** [delete_current_page] with an active page: the page and the stacks kept
    for its position go, the active index steps back, and every other
    stack stays under the key it had. *)
Lemma delete_current_page_spec s pg :
  page s = Some pg →
  delete_current_page s =
    (Ok tt,
     set_current_page_idx
       (match delete (Z.to_nat (current_page_idx s)) (pages s) with
        | [] => -1
        | _ :: _ => Z.max 0 (current_page_idx s - 1)
        end)
       (set_redo_stacks (delete (current_page_idx s) (redo_stacks s))
          (set_undo_stacks (delete (current_page_idx s) (undo_stacks s))
             (set_pages (delete (Z.to_nat (current_page_idx s)) (pages s)) s)))).
Proof.
  intros Hp.
  assert (Hk : py_index (length (pages s)) (current_page_idx s)
               = Some (Z.to_nat (current_page_idx s))).
  { unfold page in Hp. unfold py_index. by destruct (_ && _). }
  apply page_idx_range in Hp.
  unfold delete_current_page, bind, get. cbv beta iota.
  destruct (pages s) as [|p0 ps] eqn:Hps; [by rewrite lookup_nil in Hp|].
  rewrite <- Hps in Hk |- *. rewrite Hk. unfold modify. cbv beta iota.
  set (s' := set_redo_stacks _ _).
  assert (Hd : pages s' = delete (Z.to_nat (current_page_idx s)) (pages s))
    by by destruct s.
  rewrite Hd.
  by destruct (delete (Z.to_nat (current_page_idx s)) (pages s)).
Qed.

Lemma delete_current_page_history s pg j :
  page s = Some pg →
  history (run delete_current_page s) (current_page_idx s) = (None, None) ∧
  (j ≠ current_page_idx s → history (run delete_current_page s) j = history s j).
Proof.
  intros Hp. unfold run. rewrite (delete_current_page_spec s pg Hp).
  unfold history. destruct s; simpl. split.
  - by rewrite !lookup_delete_eq.
  - intros Hj. by rewrite !lookup_delete_ne.
Qed.

(** ** Pixels *)

Lemma pixel_filled w h c x y :
  pixel (filled w h c) x y =
    if ((0 <=? x) && (x <? w)) && ((0 <=? y) && (y <? h)) then Some c else None.
Proof.
  unfold pixel, filled.
  destruct (Z.leb_spec 0 x), (Z.leb_spec 0 y); simpl; try done.
  2:{ by rewrite andb_false_r. }
  destruct (Z.ltb_spec y h); simpl.
  - rewrite lookup_replicate_2 by lia. simpl.
    destruct (Z.ltb_spec x w); simpl.
    + by rewrite lookup_replicate_2 by lia.
    + apply lookup_replicate_None. lia.
  - rewrite andb_false_r.
    assert (replicate (Z.to_nat h) (replicate (Z.to_nat w) c) !! Z.to_nat y
            = None) as -> by (apply lookup_replicate_None; lia).
    done.
Qed.

Lemma pixel_drawPixmap pos src dst x y :
  pixel (drawPixmap mix pos src dst) x y =
    (λ d, match pixel src (x - px pos) (y - py pos) with
          | Some s => source_over mix s d
          | None => d
          end) <$> pixel dst x y.
Proof.
  unfold pixel at 1 3, drawPixmap.
  destruct ((0 <=? x) && (0 <=? y)) eqn:Hxy; [|done].
  apply andb_prop in Hxy as [Hx%Z.leb_le Hy%Z.leb_le].
  rewrite list_lookup_imap.
  destruct (dst !! Z.to_nat y) as [row|]; [|done]. simpl.
  rewrite list_lookup_imap.
  destruct (row !! Z.to_nat x) as [d|]; [|done]. simpl.
  by rewrite !Z2Nat.id by done.
Qed.

Lemma imap_id {A} (l : list A) : ∀ f : nat → A → A,
  (∀ i x, f i x = x) → imap f l = l.
Proof.
  induction l as [|x l IH]; intros f Hf; [done|].
  simpl. rewrite Hf. f_equal. apply IH. intros. apply Hf.
Qed.

Lemma pixel_null x y : pixel null_pixmap x y = None.
Proof. unfold pixel. by destruct (_ && _). Qed.

Lemma drawPixmap_null pos dst : drawPixmap mix pos null_pixmap dst = dst.
Proof.
  unfold drawPixmap. apply imap_id. intros y row.
  apply imap_id. intros x d. by rewrite pixel_null.
Qed.

(** ** The floating image *)

Lemma toggle_move_mode_stamp s fi pg :
  floating_image s = Some fi → move_mode s = true → page s = Some pg →
  toggle_move_mode mix s = (Ok tt, stamp_state mix s pg fi).
Proof.
  intros Hf Hm Hp. unfold toggle_move_mode, toggle_branch, stamp_state. mrun.
  rewrite Hf, Hm. rewrite (snapshot_spec _ _ Hp).
  unfold the_page, paint. mrun. rewrite page_snapshot_state, Hp. simpl.
  by destruct s.
Qed.

Lemma toggle_move_mode_raises s fi :
  floating_image s = Some fi → move_mode s = true → page s = None →
  toggle_move_mode mix s = (Raise AttributeError, run ensure_stacks s).
Proof.
  intros Hf Hm Hp. unfold toggle_move_mode, toggle_branch. mrun.
  rewrite Hf, Hm. by rewrite (snapshot_raises _ Hp).
Qed.

(** The stamp is a destructive operation in the sense of [destructive]. *)
Lemma toggle_move_mode_destructive s fi pg :
  floating_image s = Some fi → move_mode s = true → page s = Some pg →
  toggle_move_mode mix s =
    (destructive (drawPixmap mix (floating_pos s) fi) ;;
     modify (set_floating_image None) ;;
     modify (set_move_mode false)) s.
Proof.
  intros Hf Hm Hp. rewrite (toggle_move_mode_stamp s fi pg Hf Hm Hp).
  unfold bind at 1. by rewrite (destructive_spec _ _ _ Hp).
Qed.

(** C4.  Commit of the overlay.  With a floating image, move mode on and an
    active page, [toggle_move_mode] pushes a snapshot of the buffer as it is
    before the blit onto the undo stack of the page, blits the floating
    image at its position into the buffer, drops the floating image and
    leaves the overlay absent.  A red image of 20 x 20 committed at (45, 45)
    on a white page of 100 x 100 leaves the page white except for the red
    block of 20 x 20 with its top-left corner at (45, 45). *)
Theorem commit_stamps_overlay (s : Notebook) (fi b : Pixmap) (pg : Page) :
  floating_image s = Some fi → move_mode s = true →
  page s = Some pg → store s !! canvas pg = Some b →
  ∃ s' c,
    toggle_move_mode mix s = (Ok tt, s') ∧
    undo_stacks s' !! current_page_idx s
      = Some (c :: stack_of (undo_stacks s) (current_page_idx s)) ∧
    store s' !! c = Some b ∧
    page s' = Some pg ∧
    live_buffer s' = Some (drawPixmap mix (floating_pos s) fi b) ∧
    floating_image s' = None ∧ move_mode s' = false ∧
    overlay_state s' = Absent ∧
    (b = filled 100 100 white → fi = filled 20 20 opaque_red →
     floating_pos s = mkPoint 45 45 →
     ∀ x y, 0 ≤ x < 100 → 0 ≤ y < 100 →
       (live_buffer s' ≫= λ p, pixel p x y)
       = Some (if ((45 <=? x) && (x <? 65)) && ((45 <=? y) && (y <? 65))
               then opaque_red else white)).
Proof.
  intros Hf Hm Hp Hb.
  assert (Hd : canvas pg ∈ dom (store s)) by (apply elem_of_dom; eauto).
  assert (Hne : canvas pg ≠ fresh (dom (store s))) by by apply fresh_store_ne.
  exists (stamp_state mix s pg fi), (fresh (dom (store s))).
  split; [by apply toggle_move_mode_stamp|].
  assert (Hp' : page (stamp_state mix s pg fi) = Some pg).
  { rewrite <- Hp. apply page_same; by destruct s. }
  assert (Hl : live_buffer (stamp_state mix s pg fi)
               = Some (drawPixmap mix (floating_pos s) fi b)).
  { unfold live_buffer. rewrite Hp'. simpl. destruct s; simpl in *.
    rewrite lookup_alter_eq, lookup_insert_ne by done.
    unfold pixmap_at; simpl. by rewrite Hb. }
  split. { destruct s; simpl. apply lookup_insert_eq. }
  split. { destruct s; simpl in *. rewrite lookup_alter_ne, lookup_insert_eq by done.
           unfold pixmap_at; simpl. by rewrite Hb. }
  split; [done|]. split; [done|].
  split; [by destruct s|]. split; [by destruct s|]. split; [by destruct s|].
  intros -> -> Hpos x y Hx Hy. rewrite Hl, Hpos. simpl.
  rewrite pixel_drawPixmap, !pixel_filled. simpl.
  replace ((0 <=? x) && (x <? 100)) with true by lia.
  replace ((0 <=? y) && (y <? 100)) with true by lia.
  simpl. f_equal.
  replace (0 <=? x - 45) with (45 <=? x) by lia.
  replace (x - 45 <? 20) with (x <? 65) by lia.
  replace (0 <=? y - 45) with (45 <=? y) by lia.
  replace (y - 45 <? 20) with (y <? 65) by lia.
  by destruct (_ && _).
Qed.

Lemma paste_image_no_image s cb :
  isNull (cb_pixmap cb) = true → isNull (cb_image cb) = true →
  paste_image cb s = (Ok tt, s).
Proof. intros H1 H2. unfold paste_image. by rewrite H1, H2. Qed.

Lemma paste_image_no_page s cb :
  page s = None → paste_image cb s = (Ok tt, s).
Proof.
  intros Hp. unfold paste_image. destruct (_ && _); [done|].
  mrun. by rewrite Hp.
Qed.

Lemma paste_image_spec s cb pg :
  isNull (pasted cb) = false → page s = Some pg →
  paste_image cb s =
    (Ok tt,
     let pm := pasted cb in
     let '(w, h) := Page_size s pg in
     set_move_mode true
       (set_floating_pos (mkPoint (Z.max 0 ((w - pm_width pm) / 2))
                                  (Z.max 0 ((h - pm_height pm) / 2)))
          (set_floating_image (Some pm) s))).
Proof.
  intros Hn Hp. unfold paste_image, pasted in *.
  destruct (isNull (cb_pixmap cb)) eqn:H1; simpl.
  - rewrite Hn. mrun. by rewrite Hp.
  - mrun. by rewrite Hp.
Qed.

(** ** Mouse events *)

Lemma mouseMoveEvent_drag g e s pg fi :
  page s = Some pg → floating_image s = Some fi →
  move_mode s = true → drawing s = true →
  mouseMoveEvent drawLine g e s = (Ok tt, drag_state g e s pg fi).
Proof.
  intros Hp Hf Hm Hd. unfold mouseMoveEvent, drawing_rect, move_branch, drag_state.
  mrun.
  replace (page (set_canvas_top (toolbar_height g) s)) with (page s)
    by (symmetry; apply page_same; by destruct s).
  rewrite Hp. simpl.
  replace (page (set_canvas_top (toolbar_height g) s)) with (page s)
    by (symmetry; apply page_same; by destruct s).
  rewrite Hp. destruct s; simpl in *. by rewrite Hf, Hm, Hd.
Qed.

Lemma clamp_within len over x : 0 ≤ len → within len over (clamp x (len - over)).
Proof. unfold within, clamp. lia. Qed.

Lemma pm_width_nonneg (p : Pixmap) : 0 ≤ pm_width p.
Proof. unfold pm_width. destruct p; lia. Qed.
Lemma pm_height_nonneg (p : Pixmap) : 0 ≤ pm_height p.
Proof. unfold pm_height. lia. Qed.

(** C5.  Overlay clamp.  While the floating image is dragged, after every
    mouse move, whatever the pointer positions, each coordinate of its
    position lies between [0] and the extent of the page minus the extent
    of the image when the image fits on that axis, and is [0] when the
    image is larger than the page on that axis. *)
Theorem drag_keeps_overlay_in_page (s : Notebook) (pg : Page) (fi : Pixmap)
    (evs : list (Geometry * MouseEvent)) :
  page s = Some pg → floating_image s = Some fi →
  move_mode s = true → drawing s = true →
  length (drag_trace drawLine s evs) = length evs ∧
  Forall (λ s', floating_image s' = Some fi ∧
                Page_size s' pg = Page_size s pg ∧
                overlay_in_page (Page_size s pg).1 (Page_size s pg).2 fi s')
         (drag_trace drawLine s evs).
Proof.
  revert s. induction evs as [|[g e] evs IH]; intros s Hp Hf Hm Hd.
  - split; [done|constructor].
  - simpl. unfold run at 1 2 3. rewrite (mouseMoveEvent_drag g e s pg fi Hp Hf Hm Hd).
    simpl.
    assert (Hsz : Page_size (drag_state g e s pg fi) pg = Page_size s pg)
      by by destruct s.
    destruct (IH (drag_state g e s pg fi)) as [Hlen Hall].
    { rewrite <- Hp. apply page_same; by destruct s. }
    { by destruct s. } { by destruct s. } { by destruct s. }
    split; [by rewrite Hlen|]. constructor.
    + split; [by destruct s|]. split; [done|].
      unfold overlay_in_page. destruct s; simpl.
      split; apply clamp_within; [apply pm_width_nonneg|apply pm_height_nonneg].
    + eapply Forall_impl; [exact Hall|]. simpl. intros s' (? & Hs' & ?).
      rewrite Hsz in *. by rewrite Hs'.
Qed.

(** C8.  Eyedropper.  A press of the left button with the eyedropper armed,
    inside the canvas and not on the floating image, makes the colour of
    the pixel under the pointer the pen colour, disarms the eyedropper and
    the eraser, and changes nothing else but the cached toolbar height:
    no pixel is drawn and the undo and redo stacks are as they were. *)
Theorem eyedropper_press_picks_color (g : Geometry) (e : MouseEvent)
    (s : Notebook) (pg : Page) :
  let local := psub (pos e) (mkPoint 0 (toolbar_height g)) in
  button e = LeftButton →
  eyedropper s = true →
  page s = Some pg →
  in_canvas s local = true →
  inside_overlay s local = false →
  ∃ s',
    mousePressEvent g e s = (Ok tt, s') ∧
    s' = pick_state g e s pg ∧
    pen_color s' = solid (QImage_pixel (pixmap_at s (canvas pg)) local) ∧
    (∀ q, pixel (pixmap_at s (canvas pg)) (px local) (py local) = Some q →
          pen_color s' = solid q) ∧
    eyedropper s' = false ∧ eraser s' = false ∧
    store s' = store s ∧ pages s' = pages s ∧
    current_page_idx s' = current_page_idx s ∧
    undo_stacks s' = undo_stacks s ∧ redo_stacks s' = redo_stacks s ∧
    drawing s' = drawing s ∧ last_point s' = last_point s ∧
    pen_width s' = pen_width s ∧
    floating_image s' = floating_image s ∧ floating_pos s' = floating_pos s ∧
    move_mode s' = move_mode s.
Proof.
  intros local Hb He Hp Hin Hov. exists (pick_state g e s pg).
  split.
  - unfold mousePressEvent, drawing_rect, set_pen_color, the_page. mrun.
    fold_page s. rewrite Hp. simpl. rewrite Hb. unfold press_branch.
    replace (inside_overlay (set_canvas_top (toolbar_height g) s) _)
      with (inside_overlay s local) by by destruct s.
    replace (in_canvas (set_canvas_top (toolbar_height g) s) _)
      with (in_canvas s local) by by destruct s.
    rewrite Hov, Hin. simpl. fold_page s. rewrite Hp.
    simpl. rewrite He. simpl. fold_page s. rewrite Hp. by destruct s.
  - split; [done|]. split; [by destruct s|]. split.
    { intros q Hq. unfold pick_state, QImage_pixel. subst local.
      simpl in *. by rewrite Hq. }
    by destruct s.
Qed.

(** ** What a method leaves unchanged *)

Section keeps.
Context (R : Notebook → Notebook → Prop).
Hypothesis R_refl : ∀ s, R s s.
Hypothesis R_trans : ∀ s1 s2 s3, R s1 s2 → R s2 s3 → R s1 s3.

Lemma keeps_ret {A} (a : A) : keeps R (ret a).
Proof. intros s. apply R_refl. Qed.

Lemma keeps_raise {A} e : keeps R (@raise A e).
Proof. intros s. apply R_refl. Qed.

Lemma keeps_get : keeps R get.
Proof. intros s. apply R_refl. Qed.

Lemma keeps_modify f : (∀ s, R s (f s)) → keeps R (modify f).
Proof. intros H s. apply H. Qed.

Lemma keeps_bind {A B} (m : M A) (k : A → M B) :
  keeps R m → (∀ a, keeps R (k a)) → keeps R (bind m k).
Proof.
  intros Hm Hk s. unfold run, bind. specialize (Hm s). unfold run in Hm.
  destruct (m s) as [[a|e] s1]; simpl in *; [|done].
  eapply R_trans; [exact Hm|]. apply Hk.
Qed.

Lemma keeps_subscript {V} (d : gmap Z V) k : keeps R (subscript d k).
Proof. unfold subscript. destruct (d !! k); [apply keeps_ret|apply keeps_raise]. Qed.

Lemma keeps_the_page : keeps R the_page.
Proof.
  unfold the_page. apply keeps_bind; [apply keeps_get|]. intros s.
  destruct (page s); [apply keeps_ret|apply keeps_raise].
Qed.
End keeps.

Lemma same_overlay_refl s : same_overlay s s.
Proof. by split. Qed.
Lemma same_overlay_trans s1 s2 s3 :
  same_overlay s1 s2 → same_overlay s2 s3 → same_overlay s1 s3.
Proof. intros [??] [??]. split; congruence. Qed.

Ltac keeps_step R_refl R_trans :=
  lazymatch goal with
  | |- keeps _ (bind _ _) => apply (keeps_bind _ R_trans); [|intros ?]
  | |- keeps _ (ret _) => apply (keeps_ret _ R_refl)
  | |- keeps _ (raise _) => apply (keeps_raise _ R_refl)
  | |- keeps _ get => apply (keeps_get _ R_refl)
  | |- keeps _ (subscript _ _) => apply (keeps_subscript _ R_refl)
  | |- keeps _ the_page => apply (keeps_the_page _ R_refl R_trans)
  | |- keeps _ (modify _) => apply keeps_modify; intros ?
  | |- keeps _ (match ?x with _ => _ end) => destruct x
  end.

Ltac as_keeps :=
  match goal with |- ?R ?s (run ?m ?s) => refine ((_ : keeps R m) s) end.

Ltac overlay_solve :=
  repeat keeps_step same_overlay_refl same_overlay_trans;
  try (match goal with |- same_overlay ?s _ => by destruct s end).
Lemma overlay_alloc p : keeps same_overlay (alloc p).
Proof. intros s. by destruct s. Qed.

Lemma overlay_copy l : keeps same_overlay (copy l).
Proof. unfold copy. overlay_solve; try apply overlay_alloc. Qed.

Lemma overlay_paint l f : keeps same_overlay (paint l f).
Proof. unfold paint. overlay_solve. Qed.

Lemma overlay_ensure_stacks : keeps same_overlay ensure_stacks.
Proof. unfold ensure_stacks. overlay_solve. Qed.

Lemma overlay_update_page f : keeps same_overlay (update_page f).
Proof. unfold update_page. overlay_solve. Qed.

Lemma overlay_snapshot : keeps same_overlay snapshot.
Proof.
  unfold snapshot. overlay_solve;
    try first [apply overlay_ensure_stacks | apply overlay_copy].
Qed.

Lemma overlay_undo : keeps same_overlay undo.
Proof.
  unfold undo. overlay_solve;
    try first [apply overlay_ensure_stacks | apply overlay_copy | apply overlay_update_page].
Qed.

Lemma overlay_redo : keeps same_overlay redo.
Proof.
  unfold redo. overlay_solve;
    try first [apply overlay_ensure_stacks | apply overlay_copy | apply overlay_update_page].
Qed.

Lemma overlay_Page_set_background pg path :
  keeps same_overlay (Page_set_background mix loadPixmap resample pg path).
Proof. unfold Page_set_background. overlay_solve; try apply overlay_paint. Qed.

Lemma overlay_Page_init w h bg :
  keeps same_overlay (Page_init mix loadPixmap resample w h bg).
Proof.
  unfold Page_init. overlay_solve;
    try first [apply overlay_alloc | apply overlay_Page_set_background].
Qed.

Lemma overlay_add_page g : keeps same_overlay (add_page mix loadPixmap resample g).
Proof.
  unfold add_page. overlay_solve;
    try first [apply overlay_Page_init | apply overlay_ensure_stacks | apply overlay_snapshot].
Qed.

Lemma overlay_delete_current_page : keeps same_overlay delete_current_page.
Proof. unfold delete_current_page. overlay_solve. Qed.

Lemma overlay_change_page idx : keeps same_overlay (change_page idx).
Proof. unfold change_page. overlay_solve. Qed.

Lemma overlay_set_pen_color c : keeps same_overlay (set_pen_color c).
Proof. unfold set_pen_color. overlay_solve. Qed.

Lemma overlay_toggle_eraser b : keeps same_overlay (toggle_eraser b).
Proof. unfold toggle_eraser. overlay_solve. Qed.

Lemma overlay_set_background_image fname :
  keeps same_overlay (set_background_image mix loadPixmap resample fname).
Proof.
  unfold set_background_image. overlay_solve;
    try first [apply overlay_snapshot | apply overlay_Page_set_background
          | apply overlay_update_page].
Qed.

Lemma overlay_drawing_rect g : keeps same_overlay (drawing_rect g).
Proof. unfold drawing_rect. overlay_solve. Qed.

Lemma overlay_mousePressEvent g e : keeps same_overlay (mousePressEvent g e).
Proof.
  unfold mousePressEvent. overlay_solve;
    try first [apply overlay_drawing_rect | apply overlay_set_pen_color
          | apply overlay_snapshot].
Qed.

Lemma overlay_mouseMoveEvent g e : keeps same_overlay (mouseMoveEvent drawLine g e).
Proof.
  unfold mouseMoveEvent. overlay_solve;
    try first [apply overlay_drawing_rect | apply overlay_paint].
Qed.

Lemma overlay_mouseReleaseEvent e : keeps same_overlay (mouseReleaseEvent e).
Proof. unfold mouseReleaseEvent. overlay_solve. Qed.

Lemma overlay_inv_same s s' : same_overlay s s' → overlay_inv s → overlay_inv s'.
Proof. unfold overlay_inv. intros [-> ->]. done. Qed.

Lemma overlay_inv_paste cb s : overlay_inv s → overlay_inv (run (paste_image cb) s).
Proof.
  intros H. unfold run, paste_image. destruct (_ && _); [done|]. mrun.
  destruct (page s) as [pg|]; [|done]. simpl. by destruct (Page_size s pg).
Qed.

Lemma overlay_inv_toggle s :
  overlay_inv s → overlay_inv (run (toggle_move_mode mix) s).
Proof.
  intros H. unfold run. destruct (floating_image s) as [fi|] eqn:Hf.
  - destruct (move_mode s) eqn:Hm.
    + destruct (page s) as [pg|] eqn:Hp.
      * rewrite (toggle_move_mode_stamp s fi pg Hf Hm Hp). by destruct s.
      * rewrite (toggle_move_mode_raises s fi Hf Hm Hp).
        eapply overlay_inv_same; [apply overlay_ensure_stacks|done].
    + unfold overlay_inv in H. rewrite Hf, Hm in H. discriminate.
  - unfold toggle_move_mode, toggle_branch. mrun. by rewrite Hf.
Qed.

Lemma overlay_inv_step s ev :
  overlay_inv s → overlay_inv (step mix loadPixmap resample drawLine s ev).
Proof.
  intros H. unfold step. destruct ev; cbn [handle];
    lazymatch goal with
    | |- overlay_inv (run (paste_image _) _) => by apply overlay_inv_paste
    | |- overlay_inv (run (toggle_move_mode _) _) => by apply overlay_inv_toggle
    | _ => eapply overlay_inv_same; [|exact H]; as_keeps
    end.
  - destruct (palette !! n); [apply overlay_set_pen_color|overlay_solve].
  - unfold enable_eyedropper. overlay_solve.
  - overlay_solve; try apply overlay_toggle_eraser.
  - unfold toggle_eraser_shortcut. overlay_solve; try apply overlay_toggle_eraser.
  - overlay_solve.
  - apply overlay_set_background_image.
  - apply overlay_add_page.
  - apply overlay_delete_current_page.
  - apply overlay_change_page.
  - apply overlay_undo.
  - apply overlay_redo.
  - apply overlay_mousePressEvent.
  - apply overlay_mouseMoveEvent.
  - apply overlay_mouseReleaseEvent.
Qed.

Lemma overlay_inv_init g : overlay_inv (Notebook_init mix loadPixmap resample g).
Proof.
  unfold Notebook_init. eapply overlay_inv_same; [apply overlay_add_page|]. done.
Qed.

Lemma reachable_overlay_inv s :
  reachable mix loadPixmap resample drawLine s → overlay_inv s.
Proof.
  induction 1; [apply overlay_inv_init|by apply overlay_inv_step].
Qed.

(** ** Handlers keep snapshots apart *)

Lemma run_bind {A B} (m : M A) (k : A → M B) s :
  run (bind m k) s =
    match m s with
    | (Ok a, s1) => run (k a) s1
    | (Raise _, s1) => s1
    end.
Proof. unfold run, bind. by destruct (m s) as [[a|e] s1]. Qed.

Lemma safe_unchanged s s' :
  store s' = store s → canvases s' = canvases s →
  undo_stacks s' = undo_stacks s → redo_stacks s' = redo_stacks s →
  safe s s'.
Proof.
  intros Hs Hc Hu Hr. split.
  - unfold inv, refs. by rewrite Hs, Hc, Hu, Hr.
  - unfold paints_only. rewrite Hs, Hc. split; [done|]. split; auto.
Qed.

Lemma safe_repaint s s' l f :
  l ∈ canvases s → store s' = alter f l (store s) →
  canvases s' = canvases s →
  undo_stacks s' = undo_stacks s → redo_stacks s' = redo_stacks s →
  safe s s'.
Proof.
  intros Hl Hs Hc Hu Hr. split.
  - unfold inv, refs. rewrite Hs, Hc, Hu, Hr, dom_alter_L. done.
  - unfold paints_only. rewrite Hs, Hc, dom_alter_L. split; [done|]. split.
    + intros l' _ Hn. apply lookup_alter_ne. by intros <-.
    + auto.
Qed.

Lemma safe_shrink s s' :
  store s' = store s → refs s' ⊆+ refs s → canvases s' ⊆+ canvases s →
  safe s s'.
Proof.
  intros Hs Hr Hc. split.
  - intros H. apply (inv_transport s s' []); auto.
    + constructor.
    + intros l Hl. by apply elem_of_nil in Hl.
    + intros l [Hl|Hl]; [by apply elem_of_nil in Hl|by rewrite Hs].
  - unfold paints_only. rewrite Hs. split; [done|]. split; [done|].
    intros l Hl. left. by eapply elem_of_submseteq.
Qed.

Lemma safe_new_page s s' content pg :
  canvas pg = fresh (dom (store s)) →
  store s' = <[canvas pg := content]> (store s) →
  pages s' = pages s ++ [pg] →
  undo_stacks s' = undo_stacks s → redo_stacks s' = redo_stacks s →
  safe s s'.
Proof.
  intros Hc Hs Hp Hu Hr.
  assert (Hcs : canvases s' = canvases s ++ [canvas pg]).
  { unfold canvases. by rewrite Hp, fmap_app. }
  split.
  - intros H. apply (inv_transport s s' [canvas pg]); auto.
    + unfold refs. rewrite Hcs, Hu, Hr. solve_submseteq.
    + apply NoDup_singleton.
    + intros l ->%list_elem_of_singleton. rewrite Hc. apply is_fresh.
    + intros l Hl. rewrite Hs, dom_insert_L, elem_of_union, elem_of_singleton.
      rewrite list_elem_of_singleton in Hl. tauto.
  - unfold paints_only. rewrite Hs, Hcs, dom_insert_L. split; [|split].
    + apply union_subseteq_r.
    + intros l Hl _. apply lookup_insert_ne. rewrite Hc. intros <-.
      by apply (is_fresh (dom (store s))).
    + intros l [Hl| ->%list_elem_of_singleton]%elem_of_app; [by left|right].
      rewrite Hc. apply is_fresh.
Qed.

Ltac safe_fields :=
  match goal with |- safe ?s _ => apply safe_unchanged; by destruct s end.

Ltac safe_solve :=
  repeat keeps_step safe_refl safe_trans; try safe_fields.
Lemma keeps_safe_ensure_stacks : keeps safe ensure_stacks.
Proof. intros s. apply safe_ensure_stacks. Qed.

Lemma keeps_safe_snapshot : keeps safe snapshot.
Proof. intros s. apply safe_snapshot. Qed.

Lemma keeps_safe_drawing_rect g : keeps safe (drawing_rect g).
Proof. unfold drawing_rect. safe_solve. Qed.

Lemma keeps_safe_set_pen_color c : keeps safe (set_pen_color c).
Proof. unfold set_pen_color. safe_solve. Qed.

Lemma keeps_safe_toggle_eraser b : keeps safe (toggle_eraser b).
Proof. unfold toggle_eraser. safe_solve. Qed.

Lemma keeps_safe_change_page idx : keeps safe (change_page idx).
Proof. unfold change_page. safe_solve. Qed.

Lemma keeps_safe_paste_image cb : keeps safe (paste_image cb).
Proof. unfold paste_image. safe_solve. Qed.

Lemma keeps_safe_mousePressEvent g e : keeps safe (mousePressEvent g e).
Proof.
  unfold mousePressEvent. safe_solve;
    try first [apply keeps_safe_drawing_rect | apply keeps_safe_set_pen_color
              | apply keeps_safe_snapshot].
Qed.

Lemma keeps_safe_mouseReleaseEvent e : keeps safe (mouseReleaseEvent e).
Proof. unfold mouseReleaseEvent. safe_solve. Qed.

Lemma keeps_safe_delete_current_page : keeps safe delete_current_page.
Proof.
  unfold delete_current_page. safe_solve.
  - apply safe_shrink; [by destruct s| |].
    + unfold refs, canvases. destruct s; simpl. rewrite list_fmap_delete.
      apply submseteq_app; [apply submseteq_delete|done].
    + unfold canvases. destruct s; simpl. rewrite list_fmap_delete.
      apply submseteq_delete.
  - apply safe_shrink; [by destruct s| |by destruct s].
    unfold refs, canvases. destruct s; simpl.
    apply submseteq_app; [done|]. apply submseteq_app; [apply flat_delete|done].
  - apply safe_shrink; [by destruct s| |by destruct s].
    unfold refs, canvases. destruct s; simpl.
    apply submseteq_app; [done|]. apply submseteq_app; [done|apply flat_delete].
Qed.

(** ** Every reachable state *)

Lemma undo_raises s last u' :
  page s = None → stack_of (undo_stacks s) (current_page_idx s) = last :: u' →
  undo s = (Raise AttributeError, run ensure_stacks s).
Proof.
  intros Hp Hu. destruct s.
  unfold undo, ensure_stacks, the_page, subscript. unfold page in *. simpl in *.
  mrun. rewrite lookup_setdefault, Hu. simpl. unfold page. simpl. by rewrite Hp.
Qed.

Lemma redo_raises s next_img r' :
  page s = None → stack_of (redo_stacks s) (current_page_idx s) = next_img :: r' →
  redo s = (Raise AttributeError, run ensure_stacks s).
Proof.
  intros Hp Hu. destruct s.
  unfold redo, ensure_stacks, the_page, subscript. unfold page in *. simpl in *.
  mrun. rewrite lookup_setdefault, Hu. simpl. unfold page. simpl. by rewrite Hp.
Qed.

Lemma undo_cases s :
  run undo s = run ensure_stacks s ∨
  ∃ pg last u', page s = Some pg ∧
    stack_of (undo_stacks s) (current_page_idx s) = last :: u' ∧
    run undo s = undo_state s pg last u'.
Proof.
  destruct (stack_of (undo_stacks s) (current_page_idx s)) as [|last u'] eqn:Hu.
  - left. unfold run at 1. by rewrite undo_noop.
  - destruct (page s) as [pg|] eqn:Hp.
    + right. exists pg, last, u'. unfold run. by rewrite (undo_spec _ _ _ _ Hp Hu).
    + left. unfold run at 1. by rewrite (undo_raises _ _ _ Hp Hu).
Qed.

Lemma redo_cases s :
  run redo s = run ensure_stacks s ∨
  ∃ pg next_img r', page s = Some pg ∧
    stack_of (redo_stacks s) (current_page_idx s) = next_img :: r' ∧
    run redo s = redo_state s pg next_img r'.
Proof.
  destruct (stack_of (redo_stacks s) (current_page_idx s)) as [|last u'] eqn:Hu.
  - left. unfold run at 1. by rewrite redo_noop.
  - destruct (page s) as [pg|] eqn:Hp.
    + right. exists pg, last, u'. unfold run. by rewrite (redo_spec _ _ _ _ Hp Hu).
    + left. unfold run at 1. by rewrite (redo_raises _ _ _ Hp Hu).
Qed.

Lemma inv_undo s : inv s → inv (run undo s).
Proof.
  intros H. destruct (undo_cases s) as [->|(pg & last & u' & Hp & Hu & ->)].
  - by apply inv_ensure_stacks.
  - by apply inv_undo_state.
Qed.

Lemma inv_redo s : inv s → inv (run redo s).
Proof.
  intros H. destruct (redo_cases s) as [->|(pg & last & u' & Hp & Hu & ->)].
  - by apply inv_ensure_stacks.
  - by apply inv_redo_state.
Qed.

Lemma store_undo s : store s ⊆ store (run undo s).
Proof.
  destruct (undo_cases s) as [->|(pg & last & u' & Hp & Hu & ->)].
  - by destruct s.
  - destruct s; simpl. apply store_alloc_subseteq.
Qed.

Lemma store_redo s : store s ⊆ store (run redo s).
Proof.
  destruct (redo_cases s) as [->|(pg & last & u' & Hp & Hu & ->)].
  - by destruct s.
  - destruct s; simpl. apply store_alloc_subseteq.
Qed.

Lemma safe_mouseMoveEvent g e s : safe s (run (mouseMoveEvent drawLine g e) s).
Proof.
  unfold mouseMoveEvent, drawing_rect, run. mrun. fold_page s.
  destruct (page s) as [pg|] eqn:Hp; simpl; fold_page s; rewrite ?Hp;
    [|safe_fields].
  destruct (move_branch _ e); simpl.
  - safe_fields.
  - destruct (in_canvas _ _); simpl; [|safe_fields].
    unfold paint. mrun.
    apply (safe_repaint _ _ (canvas pg)
             (drawLine (if eraser s then white else pen_color s) (pen_width s)
                (last_point s) (psub (pos e) (mkPoint 0 (toolbar_height g)))));
      [by apply page_canvas_in|by destruct s..].
  - safe_fields.
Qed.

Lemma safe_toggle_move_mode s : safe s (run (toggle_move_mode mix) s).
Proof.
  unfold run. destruct (floating_image s) as [fi|] eqn:Hf.
  - destruct (move_mode s) eqn:Hm.
    + destruct (page s) as [pg|] eqn:Hp.
      * rewrite (toggle_move_mode_stamp s fi pg Hf Hm Hp).
        eapply safe_trans; [apply (safe_snapshot_state s pg)|].
        apply (safe_repaint _ _ (canvas pg) (drawPixmap mix (floating_pos s) fi)).
        -- apply page_canvas_in. by rewrite page_snapshot_state.
        -- by destruct s.
        -- by destruct s.
        -- by destruct s.
        -- by destruct s.
      * rewrite (toggle_move_mode_raises s fi Hf Hm Hp).
        apply safe_ensure_stacks.
    + unfold toggle_move_mode, toggle_branch. mrun. rewrite Hf, Hm. safe_fields.
  - unfold toggle_move_mode, toggle_branch. mrun. rewrite Hf. apply safe_refl.
Qed.

Lemma set_background_image_run fname s pg :
  truthy (Some fname) = true → page s = Some pg →
  set_background_image mix loadPixmap resample fname s
  = (Ok tt, background_state mix loadPixmap resample fname s pg).
Proof.
  intros Ht Hp. destruct fname as [|a fname]; [discriminate|].
  unfold set_background_image, background_state. mrun.
  rewrite Hp. simpl.
  rewrite (snapshot_spec _ _ Hp).
  unfold Page_set_background, update_page, the_page, paint. mrun.
  rewrite page_snapshot_state, Hp. simpl.
  match goal with |- context [page ?x] => replace (page x) with (page s) end.
  2:{ symmetry. apply page_same; by destruct s. }
  rewrite Hp. simpl. by destruct s.
Qed.

(** The background change is a destructive operation too. *)
Lemma set_background_image_destructive fname s pg :
  truthy (Some fname) = true → page s = Some pg →
  let cv := pixmap_at (snapshot_state s pg) (canvas pg) in
  let bg := scaled resample (pm_width cv) (pm_height cv) (loadPixmap fname) in
  set_background_image mix loadPixmap resample fname s =
    (destructive (drawPixmap mix (mkPoint 0 0) bg) ;;
     update_page (λ _, mkPage (canvas pg) (Some fname))) s.
Proof.
  intros Ht Hp cv bg. rewrite (set_background_image_run _ _ _ Ht Hp).
  unfold bind at 1. rewrite (destructive_spec _ _ _ Hp).
  unfold update_page, the_page. mrun.
  match goal with |- context [page ?x] => replace (page x) with (page s) end.
  2:{ symmetry. apply page_same; by destruct s. }
  rewrite Hp. by destruct s.
Qed.

Lemma set_background_image_skip fname s :
  truthy (Some fname) && bool_decide (is_Some (page s)) = false →
  set_background_image mix loadPixmap resample fname s = (Ok tt, s).
Proof.
  intros H. unfold set_background_image, bind, get. cbv beta iota.
  by rewrite H.
Qed.

Lemma safe_set_background_image fname s :
  safe s (run (set_background_image mix loadPixmap resample fname) s).
Proof.
  unfold run.
  destruct (truthy (Some fname) && bool_decide (is_Some (page s))) eqn:Hc.
  - apply andb_prop in Hc as [Ht Hp]. apply bool_decide_eq_true in Hp as [pg Hp].
    rewrite (set_background_image_run _ _ _ Ht Hp).
    eapply safe_trans; [apply (safe_snapshot_state s pg)|].
    unfold background_state.
    eapply (safe_repaint _ _ (canvas pg)).
    + apply page_canvas_in. by rewrite page_snapshot_state.
    + simpl. reflexivity.
    + apply page_idx_range in Hp. unfold canvases. destruct s; simpl in *.
      by eapply canvases_update.
    + by destruct s.
    + by destruct s.
  - rewrite (set_background_image_skip _ _ Hc). apply safe_refl.
Qed.

Lemma Page_init_spec w h bg s :
  ∃ content bgo,
    Page_init mix loadPixmap resample w h bg s =
      (Ok (mkPage (fresh (dom (store s))) bgo),
       set_store (<[fresh (dom (store s)) := content]> (store s)) s).
Proof.
  destruct s. unfold Page_init, alloc. mrun. destruct (truthy bg) eqn:Ht.
  - destruct bg as [path|]; [|discriminate].
    unfold Page_set_background, paint. mrun.
    eexists _, _. f_equal. unfold set_store. simpl. f_equal.
    rewrite alter_insert_eq. reflexivity.
  - eexists _, _. reflexivity.
Qed.

Lemma safe_add_page g s : safe s (run (add_page mix loadPixmap resample g) s).
Proof.
  unfold add_page. rewrite run_bind. unfold get at 1.
  rewrite run_bind.
  destruct (Page_init_spec (Z.max 200 (win_width g))
              (Z.max 200 (win_height g - toolbar_height g))
              (match page s with Some p => bg_image p | None => None end) s)
    as (content & bgo & ->).
  rewrite run_bind. unfold modify at 1. cbv beta iota.
  match goal with |- safe s (run ?m ?s') =>
    apply (safe_trans s s'); [|refine ((_ : keeps safe m) s')] end.
  - apply (safe_new_page _ _ content (mkPage (fresh (dom (store s))) bgo));
      by destruct s.
  - safe_solve; first [apply keeps_safe_ensure_stacks | apply keeps_safe_snapshot].
Qed.

Lemma safe_step s ev :
  ev ≠ EvUndo → ev ≠ EvRedo →
  safe s (step mix loadPixmap resample drawLine s ev).
Proof.
  intros Hu Hr. unfold step. destruct ev; cbn [handle]; try done.
  - as_keeps. destruct (palette !! n); [apply keeps_safe_set_pen_color|safe_solve].
  - as_keeps. unfold enable_eyedropper. safe_solve.
  - as_keeps. safe_solve. apply keeps_safe_toggle_eraser.
  - as_keeps. unfold toggle_eraser_shortcut. safe_solve. apply keeps_safe_toggle_eraser.
  - as_keeps. safe_solve.
  - apply safe_set_background_image.
  - apply safe_add_page.
  - apply keeps_safe_delete_current_page.
  - apply keeps_safe_change_page.
  - apply keeps_safe_paste_image.
  - apply safe_toggle_move_mode.
  - apply keeps_safe_mousePressEvent.
  - apply safe_mouseMoveEvent.
  - apply keeps_safe_mouseReleaseEvent.
Qed.

Lemma inv_fresh_notebook : inv fresh_notebook.
Proof.
  split; [constructor|]. intros l Hl. by apply elem_of_nil in Hl.
Qed.

Lemma inv_step s ev :
  inv s → inv (step mix loadPixmap resample drawLine s ev).
Proof.
  intros H. destruct ev; try (by apply safe_step).
  - by apply inv_undo.
  - by apply inv_redo.
Qed.

Lemma reachable_inv s :
  reachable mix loadPixmap resample drawLine s → inv s.
Proof.
  induction 1 as [g|s ev _ IH].
  - apply safe_add_page, inv_fresh_notebook.
  - by apply inv_step.
Qed.

(** ** Isolation, overlay, background and paste *)

Lemma snapshot_isolation_step (s : Notebook) (l : loc) (ev : Event) :
  reachable mix loadPixmap resample drawLine s →
  stored s l →
  is_Some (store s !! l) ∧
  (∀ pg, pg ∈ pages s → canvas pg ≠ l) ∧
  store (step mix loadPixmap resample drawLine s ev) !! l = store s !! l.
Proof.
  intros Hinv%reachable_inv Hst.
  assert (Hd : l ∈ dom (store s)) by (apply Hinv; by apply stored_refs).
  assert (Hc : l ∉ canvases s) by by apply stored_not_canvas.
  split; [by apply elem_of_dom|]. split.
  { intros pg Hpg <-. apply Hc. unfold canvases. by apply list_elem_of_fmap_2. }
  apply elem_of_dom in Hd as [x Hx]. rewrite Hx.
  destruct ev;
    try (match goal with |- store (step _ _ _ _ _ ?ev) !! _ = _ =>
           rewrite <- Hx;
           apply (safe_step s ev); try done;
           apply elem_of_dom; eauto
         end).
  - eapply lookup_weaken; [exact Hx|apply store_undo].
  - eapply lookup_weaken; [exact Hx|apply store_redo].
Qed.

Lemma snapshot_isolation_steps l evs : ∀ s,
  reachable mix loadPixmap resample drawLine s →
  Forall (λ s', stored s' l) (trace mix loadPixmap resample drawLine s evs) →
  store (steps mix loadPixmap resample drawLine s evs) !! l = store s !! l.
Proof.
  induction evs as [|ev evs IH]; intros s Hr Hst; [done|].
  cbn [trace] in Hst. apply Forall_cons in Hst as [H0 Hst].
  change (steps mix loadPixmap resample drawLine s (ev :: evs))
    with (steps mix loadPixmap resample drawLine
            (step mix loadPixmap resample drawLine s ev) evs).
  rewrite IH; [|by apply reachable_step|done].
  by apply snapshot_isolation_step.
Qed.

(** C9.  Snapshot isolation.  In every reachable state, a snapshot on an
    undo or redo stack is an object of the store that is the canvas of no
    page, and whatever the window does next (strokes, stamps, backgrounds,
    anything), its pixels stay as they are for as long as it is on a
    stack. *)
Theorem snapshot_isolation (s : Notebook) (l : loc) (evs : list Event) :
  reachable mix loadPixmap resample drawLine s →
  stored s l →
  Forall (λ s', stored s' l) (trace mix loadPixmap resample drawLine s evs) →
  is_Some (store s !! l) ∧
  (∀ pg, pg ∈ pages s → canvas pg ≠ l) ∧
  store (steps mix loadPixmap resample drawLine s evs) !! l = store s !! l.
Proof.
  intros Hr Hst Hall.
  destruct (snapshot_isolation_step s l EvUndo Hr Hst) as (Hs & Hc & _).
  split; [done|]. split; [done|]. by apply snapshot_isolation_steps.
Qed.

Lemma press_branch_overlay s local :
  is_Some (floating_image s) → press_branch s local ≠ BeginStroke.
Proof.
  intros [fi Hf]. unfold press_branch.
  destruct (inside_overlay s local); [done|].
  destruct (negb (in_canvas s local)); [done|].
  destruct (eyedropper s && isSome (page s)); [done|].
  rewrite Hf. simpl. by rewrite andb_false_r.
Qed.

Lemma mousePressEvent_overlay g e s :
  is_Some (floating_image s) →
  let s' := run (mousePressEvent g e) s in
  store s' = store s ∧ undo_stacks s' = undo_stacks s ∧
  redo_stacks s' = redo_stacks s.
Proof.
  intros Hf. unfold mousePressEvent, drawing_rect, run. mrun.
  assert (Hpage : ∀ r, (match page (set_canvas_top (toolbar_height g) s) with
            | Some pg => let '(w, h) := Page_size (set_canvas_top (toolbar_height g) s) pg in
                         ret (mkRect 0 (toolbar_height g) w h)
            | None => ret r
            end (set_canvas_top (toolbar_height g) s)).2
          = set_canvas_top (toolbar_height g) s).
  { intros r. by destruct (page _). }
  destruct (page (set_canvas_top (toolbar_height g) s)) as [pg|] eqn:Hp; simpl;
    (destruct (button e); simpl; [|by destruct s..]);
    (match goal with |- context [press_branch ?s0 ?p] =>
       pose proof (press_branch_overlay s0 p) as Hb;
       destruct (press_branch s0 p) end);
    try (by destruct s); try (exfalso; apply Hb; by destruct s; done).
  - unfold the_page, set_pen_color. mrun. rewrite Hp. by destruct s.
  - unfold the_page, set_pen_color. mrun. rewrite Hp. by destruct s.
Qed.

Lemma mouseMoveEvent_overlay g e s :
  is_Some (floating_image s) →
  store (run (mouseMoveEvent drawLine g e) s) = store s.
Proof.
  intros [fi Hf]. unfold mouseMoveEvent, drawing_rect, run, move_branch. mrun.
  destruct (page (set_canvas_top (toolbar_height g) s)) as [pg|] eqn:Hp; simpl;
    rewrite ?Hp; [|by destruct s].
  rewrite Hf. destruct (_ && _); by destruct s.
Qed.

(** C10.  In every reachable state, a floating image implies that move mode
    is on.  So [toggle_move_mode] never takes its branch that re-enters
    move mode, and while there is a floating image a press never begins a
    stroke (it takes no snapshot and paints nothing) and a mouse move
    paints nothing. *)
Theorem overlay_implies_move_mode (s : Notebook) :
  reachable mix loadPixmap resample drawLine s →
  toggle_branch s ≠ ReEnter ∧
  (is_Some (floating_image s) →
   move_mode s = true ∧
   (∀ s0 local, floating_image s0 = floating_image s →
                press_branch s0 local ≠ BeginStroke) ∧
   (∀ g e, let s' := step mix loadPixmap resample drawLine s (EvMousePress g e) in
           store s' = store s ∧ undo_stacks s' = undo_stacks s ∧
           redo_stacks s' = redo_stacks s) ∧
   (∀ g e, store (step mix loadPixmap resample drawLine s (EvMouseMove g e))
           = store s)).
Proof.
  intros Hov%reachable_overlay_inv. unfold overlay_inv in Hov. split.
  { unfold toggle_branch. destruct (floating_image s); [|done].
    simpl in Hov. by rewrite <- Hov. }
  intros Hf.
  split. { destruct Hf as [fi Hf]. by rewrite Hf in Hov. }
  split. { intros s0 local Hs0. apply press_branch_overlay. by rewrite Hs0. }
  split; [intros; by apply mousePressEvent_overlay|].
  intros. by apply mouseMoveEvent_overlay.
Qed.

(** C3, as the code has it.  [set_background_image] with a file that cannot
    be decoded, while a page is active, raises nothing: the pixels of the
    page and the active index stay as they were, but a snapshot of the
    buffer is pushed onto the undo stack of the page, its redo stack is
    emptied and the background reference of the page becomes the path. *)
Theorem set_background_undecodable (s : Notebook) (pg : Page) (fname : string) :
  isNull (loadPixmap fname) = true →
  fname ≠ EmptyString →
  page s = Some pg →
  canvas pg ∈ dom (store s) →
  ∃ s' c,
    set_background_image mix loadPixmap resample fname s = (Ok tt, s') ∧
    live_buffer s' = live_buffer s ∧
    current_page_idx s' = current_page_idx s ∧
    page s' = Some (mkPage (canvas pg) (Some fname)) ∧
    undo_stacks s' !! current_page_idx s
      = Some (c :: stack_of (undo_stacks s) (current_page_idx s)) ∧
    store s' !! c = store s !! canvas pg ∧
    redo_stacks s' !! current_page_idx s = Some [].
Proof.
  intros Hnull Hne Hp Hd.
  assert (Ht : truthy (Some fname) = true) by by destruct fname.
  assert (Hfr : canvas pg ≠ fresh (dom (store s))) by by apply fresh_store_ne.
  exists (background_state mix loadPixmap resample fname s pg), (fresh (dom (store s))).
  split; [by apply set_background_image_run|].
  assert (Hp' : page (background_state mix loadPixmap resample fname s pg)
                = Some (mkPage (canvas pg) (Some fname))).
  { eapply page_set_canvas; [exact Hp| |]; by destruct s. }
  apply elem_of_dom in Hd as [b Hb].
  assert (Hst : store (background_state mix loadPixmap resample fname s pg)
                  !! canvas pg = Some b).
  { unfold background_state, scaled. rewrite Hnull. simpl.
    destruct s; simpl in *.
    rewrite lookup_alter_eq, lookup_insert_ne by done. rewrite Hb. simpl.
    by rewrite drawPixmap_null. }
  split. { by rewrite (live_buffer_holds _ _ b Hp' Hst),
                      (live_buffer_holds _ _ b Hp Hb). }
  split; [by destruct s|]. split; [done|].
  split. { destruct s; simpl. apply lookup_insert_eq. }
  split. { destruct s; simpl in *. rewrite lookup_alter_ne, lookup_insert_eq by done.
           unfold pixmap_at. simpl. by rewrite Hb. }
  destruct s; simpl. apply lookup_insert_eq.
Qed.

(** C7, as the code has it.  [paste_image] changes nothing when the
    clipboard holds no image or no page is active.  Otherwise the image
    becomes the floating image with move mode on, placed on each axis at
    half the free space when it fits on the page (centred) and at [0] when
    it is larger than the page; an image of 20 x 20 on a page of 100 x 100
    is placed at (40, 40). *)
Theorem paste_places_overlay (cb : Clipboard) (s : Notebook) :
  (isNull (pasted cb) = true → paste_image cb s = (Ok tt, s)) ∧
  (page s = None → paste_image cb s = (Ok tt, s)) ∧
  (∀ pg, isNull (pasted cb) = false → page s = Some pg →
     ∃ s', paste_image cb s = (Ok tt, s') ∧
       floating_image s' = Some (pasted cb) ∧
       move_mode s' = true ∧
       (drawing s = false → overlay_state s' = Placed) ∧
       (let '(pw, ph) := Page_size s pg in
        let ow := pm_width (pasted cb) in
        let oh := pm_height (pasted cb) in
        floating_pos s' = mkPoint (Z.max 0 ((pw - ow) / 2)) (Z.max 0 ((ph - oh) / 2)) ∧
        (ow ≤ pw → px (floating_pos s') = (pw - ow) / 2) ∧
        (pw < ow → px (floating_pos s') = 0) ∧
        (oh ≤ ph → py (floating_pos s') = (ph - oh) / 2) ∧
        (ph < oh → py (floating_pos s') = 0) ∧
        (pw = 100 → ph = 100 → ow = 20 → oh = 20 →
         floating_pos s' = mkPoint 40 40)) ∧
       store s' = store s ∧ pages s' = pages s ∧
       current_page_idx s' = current_page_idx s ∧
       undo_stacks s' = undo_stacks s ∧ redo_stacks s' = redo_stacks s).
Proof.
  split.
  { intros Hn. apply paste_image_no_image; unfold pasted in Hn;
      destruct (isNull (cb_pixmap cb)) eqn:E; congruence. }
  split; [apply paste_image_no_page|].
  intros pg Hn Hp. rewrite (paste_image_spec s cb pg Hn Hp).
  eexists. split; [reflexivity|].
  unfold Page_size. cbv zeta.
  set (pw := pm_width _). set (ph := pm_height _).
  split; [by destruct s|]. split; [by destruct s|].
  split. { intros Hd. unfold overlay_state. destruct s; simpl in *. by rewrite Hd. }
  split.
  { split; [by destruct s|].
    assert (floating_pos
       (set_move_mode true
          (set_floating_pos
             {| px := 0 `max` ((pw - pm_width (pasted cb)) `div` 2);
                py := 0 `max` ((ph - pm_height (pasted cb)) `div` 2) |}
             (set_floating_image (Some (pasted cb)) s)))
       = mkPoint (0 `max` ((pw - pm_width (pasted cb)) `div` 2))
                 (0 `max` ((ph - pm_height (pasted cb)) `div` 2))) as ->
      by by destruct s.
    simpl.
    split. { intros. apply Z.max_r. apply Z.div_pos; lia. }
    split. { intros. apply Z.max_l.
             assert ((pw - pm_width (pasted cb)) `div` 2 < 0); [|lia].
             apply Z.div_lt_upper_bound; lia. }
    split. { intros. apply Z.max_r. apply Z.div_pos; lia. }
    split. { intros. apply Z.max_l.
             assert ((ph - pm_height (pasted cb)) `div` 2 < 0); [|lia].
             apply Z.div_lt_upper_bound; lia. }
    intros -> -> -> ->. reflexivity. }
  by destruct s.
Qed.

(** * Further properties of the handlers *)

(** ** Invariants, handler by handler *)

Lemma pres_refl P s : pres P s s.
Proof. by intros H. Qed.

Lemma pres_trans P s1 s2 s3 : pres P s1 s2 → pres P s2 s3 → pres P s1 s3.
Proof. unfold pres. auto. Qed.

Ltac head_of t := lazymatch t with ?f _ => head_of f | _ => t end.

(** One step through a handler: a known method by [atoms], a monad
    operation by its rule, any other method by its definition. *)
Ltac frame_step refl trans atoms :=
  first
    [ atoms ()
    | keeps_step refl trans
    | lazymatch goal with
      | |- keeps _ ?m => let h := head_of m in progress unfold h
      end ].

Ltac frame refl trans atoms := repeat frame_step refl trans atoms.

(** ** The tool flags *)

Ltac tools_leaf :=
  lazymatch goal with
  | |- pres tools_ok ?s _ =>
      unfold pres, tools_ok; simpl;
      destruct (eraser s), (eyedropper s), (eraser_act s); simpl;
      intros [? ?]; first [discriminate | done]
  end.

Lemma tools_alloc p : keeps (pres tools_ok) (alloc p).
Proof. intros s. unfold alloc, run; simpl. tools_leaf. Qed.

Lemma tools_set_pen_color c : keeps (pres tools_ok) (set_pen_color c).
Proof. intros s. unfold set_pen_color, run. mrun. tools_leaf. Qed.

Lemma tools_enable_eyedropper : keeps (pres tools_ok) enable_eyedropper.
Proof. intros s. unfold enable_eyedropper, run. mrun. tools_leaf. Qed.

Lemma tools_toggle_eraser_shortcut : keeps (pres tools_ok) toggle_eraser_shortcut.
Proof.
  intros s. unfold toggle_eraser_shortcut, toggle_eraser, run. mrun.
  tools_leaf.
Qed.

Ltac tools_atoms _ :=
  lazymatch goal with
  | |- keeps _ (alloc _) => apply tools_alloc
  | |- keeps _ (set_pen_color _) => apply tools_set_pen_color
  | |- keeps _ enable_eyedropper => apply tools_enable_eyedropper
  | |- keeps _ toggle_eraser_shortcut => apply tools_toggle_eraser_shortcut
  end.

Lemma tools_step s ev :
  tools_ok s → tools_ok (step mix loadPixmap resample drawLine s ev).
Proof.
  intros H. unfold step.
  refine ((_ : keeps (pres tools_ok) (handle mix loadPixmap resample drawLine ev)) s H).
  destruct ev; cbn [handle];
    try (frame (pres_refl tools_ok) (pres_trans tools_ok) tools_atoms; tools_leaf).
  apply tools_toggle_eraser_shortcut.
Qed.

(** X1.  The eraser flag always equals the checked state of the eraser action,
    and the eraser and the eyedropper are never armed together, in every
    state the window can reach. *)
Theorem reachable_tools_ok (s : Notebook) :
  reachable mix loadPixmap resample drawLine s →
  eraser s = eraser_act s ∧ ¬ (eraser s = true ∧ eyedropper s = true).
Proof.
  intros Hr.
  assert (H : tools_ok s).
  { induction Hr as [g|s ev _ IH]; [|by apply tools_step].
    unfold Notebook_init.
    refine ((_ : keeps (pres tools_ok) (add_page mix loadPixmap resample g))
              fresh_notebook _); [|done].
    frame (pres_refl tools_ok) (pres_trans tools_ok) tools_atoms; tools_leaf. }
  destruct H as [H1 H2]. split; [done|]. intros [He Hy]. by rewrite He, Hy in H2.
Qed.


(** ** New pages *)

Lemma Page_init_run w h bg s :
  Page_init mix loadPixmap resample w h bg s =
    (Ok (Page_made (fresh (dom (store s))) bg),
     set_store (<[fresh (dom (store s)) := Page_pixels mix loadPixmap resample w h bg]>
                  (store s)) s).
Proof.
  destruct s. unfold Page_init, Page_made, Page_pixels, alloc. mrun.
  destruct (truthy bg) eqn:Ht; [|done].
  destruct bg as [path|]; [|discriminate].
  unfold Page_set_background, paint, pixmap_at. mrun.
  rewrite lookup_insert_eq. simpl. unfold set_store. simpl.
  by rewrite alter_insert_eq.
Qed.

Lemma stack_of_setdefault (d : gmap Z (list loc)) i j :
  stack_of (setdefault i [] d) j = stack_of d j.
Proof.
  unfold stack_of, setdefault. destruct (d !! i) eqn:E; [done|].
  destruct (decide (i = j)) as [->|Hne].
  - by rewrite lookup_insert_eq, E.
  - by rewrite lookup_insert_ne.
Qed.

Lemma snapshot_state_ensure_stacks s pg :
  snapshot_state (run ensure_stacks s) pg = snapshot_state s pg.
Proof.
  unfold snapshot_state, pixmap_at.
  assert (E1 : store (run ensure_stacks s) = store s) by by destruct s.
  assert (E2 : current_page_idx (run ensure_stacks s) = current_page_idx s)
    by by destruct s.
  assert (E3 : undo_stacks (run ensure_stacks s)
               = setdefault (current_page_idx s) [] (undo_stacks s))
    by by destruct s.
  assert (E4 : redo_stacks (run ensure_stacks s)
               = setdefault (current_page_idx s) [] (redo_stacks s))
    by by destruct s.
  rewrite E1, E2, E3, E4, !insert_setdefault, stack_of_setdefault.
  by destruct s.
Qed.

Lemma page_last (s : Notebook) pg ps :
  pages s = ps ++ [pg] → current_page_idx s = Z.of_nat (length ps) →
  page s = Some pg.
Proof.
  intros Hp Hi. unfold page. rewrite Hp, Hi, length_app. simpl.
  rewrite Nat2Z.id.
  replace (_ && _) with true
    by (symmetry; rewrite andb_true_iff, Z.leb_le, Z.ltb_lt; lia).
  by rewrite list_lookup_middle.
Qed.

Lemma add_page_run g s :
  add_page mix loadPixmap resample g s
  = (Ok tt, add_page_state mix loadPixmap resample g s).
Proof.
  unfold add_page, add_page_state. unfold bind at 1, get at 1. cbv beta iota zeta.
  unfold bind at 1. rewrite Page_init_run.
  set (pg := Page_made _ _). set (cv := Page_pixels _ _ _ _ _ _).
  set (s1 := set_store _ s).
  transitivity
    (snapshot (run ensure_stacks
       (set_current_page_idx (Z.of_nat (length (pages s1 ++ [pg])) - 1)
          (set_pages (pages s1 ++ [pg]) s1)))); [reflexivity|].
  assert (Hi : Z.of_nat (length (pages s1 ++ [pg])) - 1 = Z.of_nat (length (pages s))).
  { subst s1. destruct s; simpl. rewrite length_app. simpl. lia. }
  rewrite Hi. rewrite (snapshot_spec _ pg).
  - rewrite snapshot_state_ensure_stacks. subst s1. by destruct s.
  - apply (page_last _ _ (pages s)); subst s1; by destruct s.
Qed.

(** ** The active index and the keys of the history *)

Lemma page_Some_range s pg :
  page s = Some pg → 0 ≤ current_page_idx s < Z.of_nat (length (pages s)).
Proof.
  unfold page. destruct (_ && _) eqn:E; [|done]. intros _.
  apply andb_prop in E as [H1 H2]. apply Z.leb_le in H1. apply Z.ltb_lt in H2. lia.
Qed.

Lemma page_None_empty s :
  index_ok s → page s = None → pages s = [] ∧ current_page_idx s = -1.
Proof.
  intros [H|H] Hp; [done|]. unfold page in Hp.
  replace (_ && _) with true in Hp
    by (symmetry; rewrite andb_true_iff, Z.leb_le, Z.ltb_lt; lia).
  apply lookup_ge_None in Hp. lia.
Qed.

Lemma index_ok_page s :
  index_ok s → pages s ≠ [] → is_Some (page s).
Proof.
  intros H Hne. destruct (page s) eqn:Hp; [eauto|].
  by destruct (page_None_empty s H Hp).
Qed.

Lemma stack_of_insert_ne (d : gmap Z (list loc)) i j x :
  i ≠ j → stack_of (<[i:=x]> d) j = stack_of d j.
Proof. intros H. unfold stack_of. by rewrite lookup_insert_ne. Qed.

Lemma stack_of_insert (d : gmap Z (list loc)) i x : stack_of (<[i:=x]> d) i = x.
Proof. unfold stack_of. by rewrite lookup_insert_eq. Qed.

Lemma book_ok_same s s' : same_book s s' → book_ok s → book_ok s'.
Proof.
  intros (Hp & Hi & Hu & Hr). unfold book_ok, index_ok, no_negative_history.
  by rewrite Hp, Hi, Hu, Hr.
Qed.

Ltac book_leaf :=
  unfold pres;
  lazymatch goal with
  | |- book_ok ?s → _ => apply book_ok_same; unfold same_book; by destruct s
  end.

Lemma book_alloc p : keeps (pres book_ok) (alloc p).
Proof. intros s. unfold alloc, run; simpl. book_leaf. Qed.

Lemma book_ensure_stacks : keeps (pres book_ok) ensure_stacks.
Proof.
  intros s [Hi Hn]. split; [by destruct s|].
  intros j Hj. destruct (Hn j Hj) as [Hu Hr]. destruct s; simpl in *.
  by rewrite !stack_of_setdefault.
Qed.

(** A state that differs from [s] in the store, in the canvases of the
    pages and in the stacks of the active position only. *)
Lemma book_ok_history s s' :
  0 ≤ current_page_idx s →
  length (pages s') = length (pages s) →
  current_page_idx s' = current_page_idx s →
  (∀ j, j ≠ current_page_idx s →
     stack_of (undo_stacks s') j = stack_of (undo_stacks s) j ∧
     stack_of (redo_stacks s') j = stack_of (redo_stacks s) j) →
  book_ok s → book_ok s'.
Proof.
  intros H0 Hl Hi Hj [Hix Hn]. split.
  - right. rewrite Hl, Hi. destruct Hix as [[Hp Hx]|Hx]; [lia|done].
  - intros j Hneg. destruct (Hj j) as [-> ->]; [lia|]. by apply Hn.
Qed.

Lemma book_snapshot_state s pg :
  page s = Some pg → book_ok s → book_ok (snapshot_state s pg).
Proof.
  intros Hp%page_Some_range. apply book_ok_history; try by destruct s.
  - lia.
  - intros j Hj. destruct s; simpl in *. by rewrite !stack_of_insert_ne.
Qed.

Lemma book_undo_state s pg last u' :
  page s = Some pg → book_ok s → book_ok (undo_state s pg last u').
Proof.
  intros Hp%page_Some_range. apply book_ok_history; try by destruct s.
  - lia.
  - destruct s; simpl. by rewrite length_insert.
  - intros j Hj. destruct s; simpl in *. by rewrite !stack_of_insert_ne.
Qed.

Lemma book_redo_state s pg next_img r' :
  page s = Some pg → book_ok s → book_ok (redo_state s pg next_img r').
Proof.
  intros Hp%page_Some_range. apply book_ok_history; try by destruct s.
  - lia.
  - destruct s; simpl. by rewrite length_insert.
  - intros j Hj. destruct s; simpl in *. by rewrite !stack_of_insert_ne.
Qed.

Lemma book_snapshot : keeps (pres book_ok) snapshot.
Proof.
  intros s H. unfold run. destruct (page s) as [pg|] eqn:Hp.
  - rewrite (snapshot_spec _ _ Hp). by apply book_snapshot_state.
  - rewrite (snapshot_raises _ Hp). by apply book_ensure_stacks.
Qed.

Lemma book_undo : keeps (pres book_ok) undo.
Proof.
  intros s H. destruct (undo_cases s) as [->|(pg & last & u' & Hp & Hu & ->)].
  - by apply book_ensure_stacks.
  - by apply book_undo_state.
Qed.

Lemma book_redo : keeps (pres book_ok) redo.
Proof.
  intros s H. destruct (redo_cases s) as [->|(pg & last & u' & Hp & Hu & ->)].
  - by apply book_ensure_stacks.
  - by apply book_redo_state.
Qed.

Lemma book_update_page f : keeps (pres book_ok) (update_page f).
Proof.
  intros s H. unfold update_page, the_page, run. mrun.
  destruct (page s) as [pg|] eqn:Hp; simpl; [|done].
  revert H. apply book_ok_history; try by destruct s.
  - apply page_Some_range in Hp. lia.
  - destruct s; simpl. by rewrite length_insert.
Qed.

Lemma book_change_page idx : keeps (pres book_ok) (change_page idx).
Proof.
  intros s [Hi Hn]. unfold change_page, run. mrun.
  destruct (_ && _) eqn:E; simpl; [|done].
  apply andb_prop in E as [H1 H2]. apply Z.leb_le in H1. apply Z.ltb_lt in H2.
  split; [right; by destruct s|by destruct s].
Qed.

Lemma delete_current_page_empty s :
  pages s = [] → delete_current_page s = (Ok tt, s).
Proof. intros H. unfold delete_current_page. mrun. by rewrite H. Qed.

Lemma stack_of_delete_ne (d : gmap Z (list loc)) i j :
  i ≠ j → stack_of (delete i d) j = stack_of d j.
Proof. intros H. unfold stack_of. by rewrite lookup_delete_ne. Qed.

Lemma book_delete_current_page : keeps (pres book_ok) delete_current_page.
Proof.
  intros s [Hi Hn]. unfold run.
  destruct (page s) as [pg|] eqn:Hp.
  - rewrite (delete_current_page_spec _ _ Hp).
    pose proof (page_Some_range _ _ Hp) as Hr.
    assert (Hl : length (delete (Z.to_nat (current_page_idx s)) (pages s))
                 = pred (length (pages s))).
    { rewrite length_delete; [lia|]. apply lookup_lt_is_Some_2. lia. }
    split.
    + unfold index_ok. destruct s; simpl in *.
      destruct (delete _ _) as [|p0 l0] eqn:E; [by left|]. right.
      change (length (p0 :: l0)) with (S (length l0)) in *. lia.
    + intros j Hj. destruct (Hn j Hj) as [Hu Hr']. destruct s; simpl in *.
      rewrite !stack_of_delete_ne by lia. done.
  - destruct (page_None_empty s Hi Hp) as [He _].
    by rewrite (delete_current_page_empty _ He).
Qed.

Lemma book_add_page g : keeps (pres book_ok) (add_page mix loadPixmap resample g).
Proof.
  intros s [Hi Hn]. unfold run. rewrite add_page_run. unfold add_page_state.
  apply book_snapshot_state.
  - apply (page_last _ _ (pages s)); by destruct s.
  - split.
    + right. destruct s; simpl. rewrite length_app. simpl. lia.
    + by destruct s.
Qed.

Ltac book_atoms _ :=
  lazymatch goal with
  | |- keeps _ (alloc _) => apply book_alloc
  | |- keeps _ ensure_stacks => apply book_ensure_stacks
  | |- keeps _ snapshot => apply book_snapshot
  | |- keeps _ undo => apply book_undo
  | |- keeps _ redo => apply book_redo
  | |- keeps _ (update_page _) => apply book_update_page
  | |- keeps _ (change_page _) => apply book_change_page
  | |- keeps _ delete_current_page => apply book_delete_current_page
  | |- keeps _ (add_page _ _ _ _) => apply book_add_page
  end.

Lemma book_step s ev :
  book_ok s → book_ok (step mix loadPixmap resample drawLine s ev).
Proof.
  intros H. unfold step.
  refine ((_ : keeps (pres book_ok) (handle mix loadPixmap resample drawLine ev)) s H).
  destruct ev; cbn [handle];
    frame (pres_refl book_ok) (pres_trans book_ok) book_atoms; book_leaf.
Qed.

Lemma book_ok_fresh_notebook : book_ok fresh_notebook.
Proof. split; [by left|]. intros j _. done. Qed.

(** X2.  In every state the window can reach the active index is a position of
    the page list, or [-1] when there is no page, and nothing is kept in
    the history under a negative key. *)
Theorem reachable_book_ok (s : Notebook) :
  reachable mix loadPixmap resample drawLine s →
  ((pages s = [] ∧ current_page_idx s = -1 ∧ page s = None) ∨
   (0 ≤ current_page_idx s < Z.of_nat (length (pages s)) ∧ is_Some (page s))) ∧
  ∀ i, i < 0 →
    stack_of (undo_stacks s) i = [] ∧ stack_of (redo_stacks s) i = [].
Proof.
  intros Hr.
  assert (H : book_ok s).
  { induction Hr as [g|s ev _ IH]; [|by apply book_step].
    apply book_add_page, book_ok_fresh_notebook. }
  destruct H as [Hi Hn]. split; [|done].
  destruct Hi as [[Hp Hx]|Hx].
  - left. split; [done|]. split; [done|]. unfold page. by rewrite Hp, Hx.
  - right. split; [done|]. apply index_ok_page; [by right|].
    intros E. rewrite E in Hx. simpl in Hx. lia.
Qed.

(** ** Which handlers can raise *)

Lemma nr_ret {A} (a : A) : never_raises (ret a).
Proof. intros s. by exists a. Qed.

Lemma nr_get : never_raises get.
Proof. intros s. by exists s. Qed.

Lemma nr_modify f : never_raises (modify f).
Proof. intros s. by exists tt. Qed.

Lemma nr_alloc p : never_raises (alloc p).
Proof. intros s. by eexists. Qed.

Lemma nr_bind {A B} (m : M A) (k : A → M B) :
  never_raises m → (∀ a, never_raises (k a)) → never_raises (bind m k).
Proof.
  intros Hm Hk s. destruct (Hm s) as [a Ha]. unfold returns, bind.
  destruct (m s) as [[a'|e] s1]; [|discriminate]. apply Hk.
Qed.

Ltac nr_step :=
  lazymatch goal with
  | |- never_raises (bind _ _) => apply nr_bind; [|intros ?]
  | |- never_raises (ret _) => apply nr_ret
  | |- never_raises get => apply nr_get
  | |- never_raises (modify _) => apply nr_modify
  | |- never_raises (alloc _) => apply nr_alloc
  | |- never_raises (match ?x with _ => _ end) => destruct x
  | |- never_raises ?m => let h := head_of m in progress unfold h
  end.

Lemma returns_unit (m : M unit) s : returns m s → (m s).1 = Ok tt.
Proof. by intros [[] H]. Qed.

Lemma drawing_rect_run g s :
  ∃ w h, drawing_rect g s =
           (Ok (mkRect 0 (toolbar_height g) w h), set_canvas_top (toolbar_height g) s).
Proof.
  unfold drawing_rect. mrun. destruct (page _) as [pg|]; simpl; eauto.
Qed.

Lemma press_branch_canvas_top t s p :
  press_branch (set_canvas_top t s) p = press_branch s p.
Proof. by destruct s. Qed.

Lemma press_branch_page s p :
  press_branch s p = PickColor ∨ press_branch s p = BeginStroke →
  is_Some (page s).
Proof.
  unfold press_branch. destruct (inside_overlay s p); [by intros [|]|].
  destruct (in_canvas s p) eqn:Hin; simpl; [|by intros [|]].
  intros _. unfold in_canvas in Hin. destruct (page s); [eauto|done].
Qed.

(** The first steps of [mousePressEvent]: the rectangle is computed and the
    button tested. *)
Ltac press_start g s :=
  unfold mousePressEvent; unfold bind at 1;
  let w := fresh "w" in let h := fresh "h" in
  destruct (drawing_rect_run g s) as (w & h & ->);
  cbv beta iota; unfold topLeft; cbn [rx ry].

Lemma mousePressEvent_stroke g e s pg :
  let local := psub (pos e) (mkPoint 0 (toolbar_height g)) in
  button e = LeftButton → page s = Some pg →
  press_branch s local = BeginStroke →
  mousePressEvent g e s =
    (Ok tt,
     snapshot_state
       (set_last_point local (set_drawing true (set_canvas_top (toolbar_height g) s)))
       pg).
Proof.
  intros local Hb Hp Hbr. press_start g s. rewrite Hb.
  unfold bind at 1, get at 1. cbv beta iota.
  rewrite press_branch_canvas_top. fold local. rewrite Hbr.
  unfold bind, modify. cbv beta iota.
  apply snapshot_spec. by destruct s.
Qed.

Lemma mousePressEvent_returns g e : never_raises (mousePressEvent g e).
Proof.
  intros s. unfold returns. press_start g s.
  destruct (button e); [|by eexists..].
  unfold bind at 1, get at 1. cbv beta iota.
  set (s0 := set_canvas_top _ s). set (local := psub _ _).
  destruct (press_branch s0 local) eqn:Hbr; try (by eexists).
  - destruct (press_branch_page s0 local) as [pg Hp]; [by left|].
    unfold the_page. mrun. rewrite Hp. by eexists.
  - destruct (press_branch_page s0 local) as [pg Hp]; [by right|].
    unfold bind, modify. cbv beta iota.
    rewrite (snapshot_spec _ pg); [by eexists|]. subst s0. by destruct s.
Qed.

Lemma set_background_image_returns fname :
  never_raises (set_background_image mix loadPixmap resample fname).
Proof.
  intros s. unfold returns.
  destruct (truthy (Some fname) && bool_decide (is_Some (page s))) eqn:Hc.
  - apply andb_prop in Hc as [Ht Hp]. apply bool_decide_eq_true in Hp as [pg Hp].
    rewrite (set_background_image_run _ _ _ Ht Hp). by eexists.
  - rewrite (set_background_image_skip _ _ Hc). by eexists.
Qed.

Lemma undo_returns s : book_ok s → returns undo s.
Proof.
  intros [Hi Hn]. unfold returns.
  destruct (stack_of (undo_stacks s) (current_page_idx s)) as [|last u'] eqn:Hu.
  - rewrite (undo_noop _ Hu). by eexists.
  - destruct (page s) as [pg|] eqn:Hp.
    + rewrite (undo_spec _ _ _ _ Hp Hu). by eexists.
    + destruct (page_None_empty _ Hi Hp) as [_ Hx].
      destruct (Hn (current_page_idx s)) as [Hu' _]; [lia|]. congruence.
Qed.

Lemma redo_returns s : book_ok s → returns redo s.
Proof.
  intros [Hi Hn]. unfold returns.
  destruct (stack_of (redo_stacks s) (current_page_idx s)) as [|next r'] eqn:Hu.
  - rewrite (redo_noop _ Hu). by eexists.
  - destruct (page s) as [pg|] eqn:Hp.
    + rewrite (redo_spec _ _ _ _ Hp Hu). by eexists.
    + destruct (page_None_empty _ Hi Hp) as [_ Hx].
      destruct (Hn (current_page_idx s)) as [_ Hr']; [lia|]. congruence.
Qed.

Lemma delete_current_page_returns s : index_ok s → returns delete_current_page s.
Proof.
  intros Hi. unfold returns. destruct (page s) as [pg|] eqn:Hp.
  - rewrite (delete_current_page_spec _ _ Hp). by eexists.
  - destruct (page_None_empty _ Hi Hp) as [He _].
    rewrite (delete_current_page_empty _ He). by eexists.
Qed.

Lemma reachable_book s :
  reachable mix loadPixmap resample drawLine s → book_ok s.
Proof.
  induction 1 as [g|s ev _ IH]; [|by apply book_step].
  apply book_add_page, book_ok_fresh_notebook.
Qed.

(** X3.  In every state the window can reach, every handler but that of Ctrl+M
    returns: no palette button, tool, page, history, paste or mouse event
    raises an exception. *)
Theorem only_toggle_move_mode_raises (s : Notebook) (ev : Event) :
  reachable mix loadPixmap resample drawLine s →
  ev ≠ EvToggleMove →
  (handle mix loadPixmap resample drawLine ev s).1 = Ok tt.
Proof.
  intros Hr%reachable_book Hev. apply returns_unit.
  destruct ev; cbn [handle]; try done;
    try (match goal with |- returns ?m ?s => refine ((_ : never_raises m) s) end;
         repeat nr_step; fail).
  - apply set_background_image_returns.
  - unfold add_page_same_bg, returns. rewrite add_page_run. by eexists.
  - apply delete_current_page_returns, Hr.
  - by apply undo_returns.
  - by apply redo_returns.
  - apply mousePressEvent_returns.
Qed.

(** X4.  Ctrl+M raises exactly when an image is floating and there is no page
    to stamp it on.  The exception is the [AttributeError] of
    [self.page().canvas] in [snapshot()]; the floating image stays as it
    was, and all the call has done is [ensure_stacks()]. *)
Theorem toggle_move_mode_raises_without_page (s : Notebook) :
  reachable mix loadPixmap resample drawLine s →
  ((toggle_move_mode mix s).1 = Raise AttributeError ↔
     is_Some (floating_image s) ∧ pages s = []) ∧
  ((toggle_move_mode mix s).1 ≠ Raise AttributeError →
     (toggle_move_mode mix s).1 = Ok tt) ∧
  ((toggle_move_mode mix s).1 = Raise AttributeError →
     run (toggle_move_mode mix) s = run ensure_stacks s ∧
     floating_image (run (toggle_move_mode mix) s) = floating_image s ∧
     move_mode (run (toggle_move_mode mix) s) = true).
Proof.
  intros Hr. pose proof (reachable_overlay_inv _ Hr) as Ho.
  apply reachable_book in Hr as [Hi Hn]. unfold overlay_inv in Ho.
  destruct (floating_image s) as [fi|] eqn:Hf; simpl in Ho.
  - symmetry in Ho. destruct (page s) as [pg|] eqn:Hp.
    + unfold run. rewrite (toggle_move_mode_stamp s fi pg Hf Ho Hp). simpl.
      split; [|done]. split; [done|]. intros [_ He].
      apply page_Some_range in Hp. rewrite He in Hp. simpl in Hp. lia.
    + unfold run. rewrite (toggle_move_mode_raises s fi Hf Ho Hp). simpl.
      destruct (page_None_empty _ Hi Hp) as [He _].
      split; [split; eauto|]. split; [done|]. intros _.
      split; [done|]. by destruct s.
  - assert (E : toggle_move_mode mix s = (Ok tt, s)).
    { unfold toggle_move_mode, toggle_branch. mrun. by rewrite Hf. }
    unfold run. rewrite E. simpl. split; [|done].
    split; [done|]. by intros [[? ?] _].
Qed.

(** ** Undo and redo are inverse to each other *)

Lemma lookup_alloc_old (m : gmap loc Pixmap) x l :
  l ∈ dom m → <[fresh (dom m) := x]> m !! l = m !! l.
Proof. intros H. apply lookup_insert_ne. symmetry. by apply fresh_store_ne. Qed.

Lemma elem_of_stack_of d i l : l ∈ stack_of d i → l ∈ flat d.
Proof.
  unfold stack_of. destruct (d !! i) as [st|] eqn:E; simpl.
  - intros H. apply elem_of_flat. eauto.
  - by intros H%elem_of_nil.
Qed.

Lemma refs_canvas s pg : page s = Some pg → canvas pg ∈ refs s.
Proof. intros H. apply elem_of_app. left. by apply page_canvas_in. Qed.

Lemma refs_undo_stack s i l : l ∈ stack_of (undo_stacks s) i → l ∈ refs s.
Proof.
  intros H. apply elem_of_app. right. apply elem_of_app. left.
  by eapply elem_of_stack_of.
Qed.

Lemma refs_redo_stack s i l : l ∈ stack_of (redo_stacks s) i → l ∈ refs s.
Proof.
  intros H. apply elem_of_app. right. apply elem_of_app. right.
  by eapply elem_of_stack_of.
Qed.

Lemma lookup_two_allocs (m : gmap loc Pixmap) x y (ls : list loc) :
  (∀ l, l ∈ ls → l ∈ dom m) →
  let m1 := <[fresh (dom m) := x]> m in
  (λ l, <[fresh (dom m1) := y]> m1 !! l) <$> ls = (λ l, m !! l) <$> ls.
Proof.
  intros H m1. apply list_fmap_ext. intros i l Hl.
  assert (Hd : l ∈ dom m) by (apply H; by eapply list_elem_of_lookup_2).
  rewrite lookup_alloc_old; [by apply lookup_alloc_old|].
  subst m1. rewrite dom_insert. set_solver.
Qed.

Lemma undo_then_redo_state s pg last u' :
  (∀ l, l ∈ refs s → l ∈ dom (store s)) →
  page s = Some pg →
  stack_of (undo_stacks s) (current_page_idx s) = last :: u' →
  ∃ s1 s2,
    undo s = (Ok tt, s1) ∧ redo s1 = (Ok tt, s2) ∧
    view s2 = view s ∧
    current_page_idx s2 = current_page_idx s ∧
    (bg_image <$> page s2) = Some (bg_image pg).
Proof.
  intros Hd Hp Hu.
  set (s1 := undo_state s pg last u').
  assert (Hp1 : page s1 = Some (mkPage last (bg_image pg))).
  { apply (page_set_canvas s pg _ Hp); by destruct s. }
  assert (Hr1 : stack_of (redo_stacks s1) (current_page_idx s1)
                = fresh (dom (store s))
                  :: stack_of (redo_stacks s) (current_page_idx s)).
  { destruct s; simpl. by rewrite stack_of_insert. }
  exists s1, (redo_state s1 (mkPage last (bg_image pg)) (fresh (dom (store s)))
                (stack_of (redo_stacks s) (current_page_idx s))).
  split; [by apply undo_spec|]. split; [by apply redo_spec|].
  set (s2 := redo_state _ _ _ _).
  assert (Hp2 : page s2 = Some (mkPage (fresh (dom (store s))) (bg_image pg))).
  { apply (page_set_canvas s1 _ _ Hp1); by destruct s. }
  split; [|split; [by destruct s | by rewrite Hp2]].
  assert (Hs1 : store s1 = <[fresh (dom (store s)) := pixmap_at s (canvas pg)]> (store s))
    by by destruct s.
  assert (Hs2 : store s2 = <[fresh (dom (store s1)) := pixmap_at s1 last]> (store s1))
    by by destruct s.
  assert (HU : stack_of (undo_stacks s2) (current_page_idx s2)
               = fresh (dom (store s1)) :: u').
  { destruct s; simpl. by rewrite !stack_of_insert. }
  assert (HR : stack_of (redo_stacks s2) (current_page_idx s2)
               = stack_of (redo_stacks s) (current_page_idx s)).
  { destruct s; simpl. by rewrite !stack_of_insert. }
  assert (Hc : canvas pg ∈ dom (store s)) by by apply Hd, refs_canvas.
  assert (Hl : ∀ l, l ∈ last :: u' → l ∈ dom (store s)).
  { intros l Hl. apply Hd. apply (refs_undo_stack s (current_page_idx s)).
    by rewrite Hu. }
  assert (Hlast : pixmap_at s1 last = pixmap_at s last).
  { unfold pixmap_at. rewrite Hs1, lookup_alloc_old; [done|]. apply Hl. left. }
  unfold view, stack_pixels, live_buffer. rewrite HU, HR, Hu, Hp, Hp2.
  rewrite !fmap_cons. cbn [mbind option_bind canvas].
  rewrite Hs2, Hs1, Hlast. f_equal; [f_equal|].
  - f_equal.
    + rewrite lookup_insert_eq. unfold pixmap_at.
      assert (H : last ∈ dom (store s)) by (apply Hl; left).
      by apply elem_of_dom in H as [x ->].
    + apply lookup_two_allocs. intros l Hl'. apply Hl. by right.
  - rewrite lookup_alloc_old by (rewrite dom_insert; set_solver).
    rewrite lookup_insert_eq. unfold pixmap_at.
    by apply elem_of_dom in Hc as [x ->].
  - apply lookup_two_allocs. intros l Hl'. apply Hd.
    by apply (refs_redo_stack s (current_page_idx s)).
Qed.

Lemma redo_then_undo_state s pg next_img r' :
  (∀ l, l ∈ refs s → l ∈ dom (store s)) →
  page s = Some pg →
  stack_of (redo_stacks s) (current_page_idx s) = next_img :: r' →
  ∃ s1 s2,
    redo s = (Ok tt, s1) ∧ undo s1 = (Ok tt, s2) ∧
    view s2 = view s ∧
    current_page_idx s2 = current_page_idx s ∧
    (bg_image <$> page s2) = Some (bg_image pg).
Proof.
  intros Hd Hp Hu.
  set (s1 := redo_state s pg next_img r').
  assert (Hp1 : page s1 = Some (mkPage next_img (bg_image pg))).
  { apply (page_set_canvas s pg _ Hp); by destruct s. }
  assert (Hr1 : stack_of (undo_stacks s1) (current_page_idx s1)
                = fresh (dom (store s))
                  :: stack_of (undo_stacks s) (current_page_idx s)).
  { destruct s; simpl. by rewrite stack_of_insert. }
  exists s1, (undo_state s1 (mkPage next_img (bg_image pg)) (fresh (dom (store s)))
                (stack_of (undo_stacks s) (current_page_idx s))).
  split; [by apply redo_spec|]. split; [by apply undo_spec|].
  set (s2 := undo_state _ _ _ _).
  assert (Hp2 : page s2 = Some (mkPage (fresh (dom (store s))) (bg_image pg))).
  { apply (page_set_canvas s1 _ _ Hp1); by destruct s. }
  split; [|split; [by destruct s | by rewrite Hp2]].
  assert (Hs1 : store s1 = <[fresh (dom (store s)) := pixmap_at s (canvas pg)]> (store s))
    by by destruct s.
  assert (Hs2 : store s2 = <[fresh (dom (store s1)) := pixmap_at s1 next_img]> (store s1))
    by by destruct s.
  assert (HR : stack_of (redo_stacks s2) (current_page_idx s2)
               = fresh (dom (store s1)) :: r').
  { destruct s; simpl. by rewrite !stack_of_insert. }
  assert (HU : stack_of (undo_stacks s2) (current_page_idx s2)
               = stack_of (undo_stacks s) (current_page_idx s)).
  { destruct s; simpl. by rewrite !stack_of_insert. }
  assert (Hc : canvas pg ∈ dom (store s)) by by apply Hd, refs_canvas.
  assert (Hl : ∀ l, l ∈ next_img :: r' → l ∈ dom (store s)).
  { intros l Hl. apply Hd. apply (refs_redo_stack s (current_page_idx s)).
    by rewrite Hu. }
  assert (Hnext : pixmap_at s1 next_img = pixmap_at s next_img).
  { unfold pixmap_at. rewrite Hs1, lookup_alloc_old; [done|]. apply Hl. left. }
  unfold view, stack_pixels, live_buffer. rewrite HU, HR, Hu, Hp, Hp2.
  rewrite !fmap_cons. cbn [mbind option_bind canvas].
  rewrite Hs2, Hs1, Hnext. f_equal; [f_equal|].
  - apply lookup_two_allocs. intros l Hl'. apply Hd.
    by apply (refs_undo_stack s (current_page_idx s)).
  - rewrite lookup_alloc_old by (rewrite dom_insert; set_solver).
    rewrite lookup_insert_eq. unfold pixmap_at.
    by apply elem_of_dom in Hc as [x ->].
  - f_equal.
    + rewrite lookup_insert_eq. unfold pixmap_at.
      assert (H : next_img ∈ dom (store s)) by (apply Hl; left).
      by apply elem_of_dom in H as [x ->].
    + apply lookup_two_allocs. intros l Hl'. apply Hl. by right.
Qed.

Lemma history_page s :
  book_ok s →
  stack_of (undo_stacks s) (current_page_idx s) ≠ [] ∨
  stack_of (redo_stacks s) (current_page_idx s) ≠ [] →
  is_Some (page s).
Proof.
  intros [Hi Hn] H. destruct (page s) eqn:Hp; [eauto|].
  destruct (page_None_empty _ Hi Hp) as [_ Hx].
  destruct (Hn (current_page_idx s)) as [Hu Hr]; [lia|].
  destruct H as [H|H]; congruence.
Qed.

(** X5.  Ctrl+Z then Ctrl+Y.  In every state the window can reach in which the
    undo stack of the active page is not empty, an undo followed by a redo
    both return and leave what the user has of the page as it was: the
    pixels of its buffer, the pixels of the snapshots on its undo stack
    and on its redo stack, in their order, its position and its background
    reference. *)
Theorem undo_then_redo (s : Notebook) :
  reachable mix loadPixmap resample drawLine s →
  stack_of (undo_stacks s) (current_page_idx s) ≠ [] →
  ∃ s1 s2,
    undo s = (Ok tt, s1) ∧ redo s1 = (Ok tt, s2) ∧
    view s2 = view s ∧
    current_page_idx s2 = current_page_idx s ∧
    (bg_image <$> page s2) = (bg_image <$> page s).
Proof.
  intros Hr Hu. pose proof (reachable_inv _ Hr) as [_ Hd].
  apply reachable_book in Hr.
  destruct (history_page s Hr) as [pg Hp]; [by left|].
  destruct (stack_of (undo_stacks s) (current_page_idx s)) as [|last u'] eqn:E;
    [done|].
  rewrite Hp. by apply (undo_then_redo_state s pg last u').
Qed.

(** X6.  Ctrl+Y then Ctrl+Z, likewise, where the redo stack of the active page
    is not empty. *)
Theorem redo_then_undo (s : Notebook) :
  reachable mix loadPixmap resample drawLine s →
  stack_of (redo_stacks s) (current_page_idx s) ≠ [] →
  ∃ s1 s2,
    redo s = (Ok tt, s1) ∧ undo s1 = (Ok tt, s2) ∧
    view s2 = view s ∧
    current_page_idx s2 = current_page_idx s ∧
    (bg_image <$> page s2) = (bg_image <$> page s).
Proof.
  intros Hr Hu. pose proof (reachable_inv _ Hr) as [_ Hd].
  apply reachable_book in Hr.
  destruct (history_page s Hr) as [pg Hp]; [by right|].
  destruct (stack_of (redo_stacks s) (current_page_idx s)) as [|next r'] eqn:E;
    [done|].
  rewrite Hp. by apply (redo_then_undo_state s pg next r').
Qed.

(** ** Deleting a page *)

(** X7.  Deleting the active page, at position [k].  The call returns; the
    pages before [k] stay where they are and the pages after it move down
    by one position; the page before the deleted one becomes the active
    one (the first page if [k] is [0], none if no page is left).  Of the
    history only the stacks under the key [k] are removed: every other
    key still holds what it held, so the stacks of the pages that moved
    are left under their old positions.  No pixmap changes. *)
Theorem delete_current_page_positions (s : Notebook) (pg : Page) :
  page s = Some pg →
  ∃ s',
    delete_current_page s = (Ok tt, s') ∧
    store s' = store s ∧
    length (pages s') = pred (length (pages s)) ∧
    (∀ j : nat, Z.of_nat j < current_page_idx s → pages s' !! j = pages s !! j) ∧
    (∀ j : nat, current_page_idx s ≤ Z.of_nat j → pages s' !! j = pages s !! S j) ∧
    ((pages s' = [] ∧ current_page_idx s' = -1) ∨
     (pages s' ≠ [] ∧ current_page_idx s' = Z.max 0 (current_page_idx s - 1))) ∧
    history s' (current_page_idx s) = (None, None) ∧
    (∀ j, j ≠ current_page_idx s → history s' j = history s j).
Proof.
  intros Hp. pose proof (page_Some_range _ _ Hp) as Hr.
  eexists. split; [by apply (delete_current_page_spec s pg)|].
  split; [by destruct s|]. split.
  { destruct s; simpl in *. rewrite length_delete; [lia|].
    apply lookup_lt_is_Some_2. lia. }
  split.
  { intros j Hj. destruct s; simpl in *. apply list_lookup_delete_lt. lia. }
  split.
  { intros j Hj. destruct s; simpl in *. apply list_lookup_delete_ge. lia. }
  split.
  { destruct s; simpl in *. destruct (delete _ _); [by left|by right]. }
  split.
  - destruct s; unfold history; simpl. by rewrite !lookup_delete_eq.
  - intros j Hj. destruct s; unfold history; simpl in *.
    by rewrite !lookup_delete_ne.
Qed.

(** ** Adding a page *)

(** The store, the active page and its buffer after [add_page()]. *)
Lemma add_page_state_store g s :
  let bg := match page s with Some p => bg_image p | None => None end in
  let px0 := Page_pixels mix loadPixmap resample (Z.max 200 (win_width g))
               (Z.max 200 (win_height g - toolbar_height g)) bg in
  let m1 := <[fresh (dom (store s)) := px0]> (store s) in
  store (add_page_state mix loadPixmap resample g s) = <[fresh (dom m1) := px0]> m1.
Proof.
  intros bg px0 m1. subst m1 px0 bg.
  destruct s; unfold add_page_state, snapshot_state, pixmap_at; simpl.
  by rewrite lookup_insert_eq.
Qed.

Lemma add_page_state_page g s :
  let bg := match page s with Some p => bg_image p | None => None end in
  page (add_page_state mix loadPixmap resample g s)
  = Some (Page_made (fresh (dom (store s))) bg).
Proof. intros bg. apply (page_last _ _ (pages s)); by destruct s. Qed.

Lemma add_page_state_live g s :
  let bg := match page s with Some p => bg_image p | None => None end in
  live_buffer (add_page_state mix loadPixmap resample g s)
  = Some (Page_pixels mix loadPixmap resample (Z.max 200 (win_width g))
            (Z.max 200 (win_height g - toolbar_height g)) bg).
Proof.
  intros bg. unfold live_buffer. rewrite add_page_state_page.
  cbn [mbind option_bind canvas Page_made]. rewrite add_page_state_store.
  rewrite lookup_alloc_old by (rewrite dom_insert; apply elem_of_union; left;
                               by apply elem_of_singleton).
  by rewrite lookup_insert_eq.
Qed.

Lemma add_page_state_undo g s :
  let bg := match page s with Some p => bg_image p | None => None end in
  let px0 := Page_pixels mix loadPixmap resample (Z.max 200 (win_width g))
               (Z.max 200 (win_height g - toolbar_height g)) bg in
  let m1 := <[fresh (dom (store s)) := px0]> (store s) in
  current_page_idx (add_page_state mix loadPixmap resample g s)
    = Z.of_nat (length (pages s)) ∧
  undo_stacks (add_page_state mix loadPixmap resample g s)
    !! Z.of_nat (length (pages s))
    = Some (fresh (dom m1)
            :: stack_of (undo_stacks s) (Z.of_nat (length (pages s)))).
Proof.
  intros bg px0 m1. subst m1 px0 bg. split; [by destruct s|].
  destruct s; unfold add_page_state, snapshot_state; simpl.
  by rewrite lookup_insert_eq.
Qed.

(** X8.  [add_page()] returns in every state.  It appends one page, on a new
    canvas object, and makes it the active page; the page has the
    background reference of the page that was active (none if it had
    none, or if no page was active) and the pixels [Page.__init__] gives
    it: white, [max(200, width)] by [max(200, height - top)], when there
    is no background or its file cannot be decoded.  A copy of these pixels is pushed on the undo stack
    kept under the new position, on top of whatever that key held, and
    the redo stack of the position is empty.  No object that existed
    changes, and no other key of the history is touched. *)
Theorem add_page_appends_page (g : Geometry) (s : Notebook) :
  let n := Z.of_nat (length (pages s)) in
  let bg := match page s with Some p => bg_image p | None => None end in
  let w := Z.max 200 (win_width g) in
  let h := Z.max 200 (win_height g - toolbar_height g) in
  ∃ s' l c,
    add_page mix loadPixmap resample g s = (Ok tt, s') ∧
    (l ∉ dom (store s)) ∧ (c ∉ dom (store s)) ∧ c ≠ l ∧
    pages s' = pages s ++ [mkPage l (if truthy bg then bg else None)] ∧
    current_page_idx s' = n ∧
    page s' = Some (mkPage l (if truthy bg then bg else None)) ∧
    live_buffer s' = Some (Page_pixels mix loadPixmap resample w h bg) ∧
    (truthy bg = false → live_buffer s' = Some (filled w h white)) ∧
    (∀ path, bg = Some path → isNull (loadPixmap path) = true →
       live_buffer s' = Some (filled w h white)) ∧
    undo_stacks s' !! n = Some (c :: stack_of (undo_stacks s) n) ∧
    store s' !! c = live_buffer s' ∧
    redo_stacks s' !! n = Some [] ∧
    store s ⊆ store s' ∧
    (∀ j, j ≠ n → history s' j = history s j).
Proof.
  intros n bg w h.
  set (l := fresh (dom (store s))).
  set (m1 := <[l := Page_pixels mix loadPixmap resample w h bg]> (store s)).
  exists (add_page_state mix loadPixmap resample g s), l, (fresh (dom m1)).
  assert (Hl : l ∉ dom (store s)) by apply is_fresh.
  assert (Hc : fresh (dom m1) ∉ dom m1) by apply is_fresh.
  assert (Hd1 : dom m1 = {[l]} ∪ dom (store s)) by apply dom_insert_L.
  assert (Hst := add_page_state_store g s). cbv zeta in Hst. fold bg w h l m1 in Hst.
  assert (Hlive := add_page_state_live g s). cbv zeta in Hlive. fold bg w h in Hlive.
  destruct (add_page_state_undo g s) as [Hix HU]. fold bg w h l m1 n in Hix, HU.
  split; [apply add_page_run|]. split; [done|]. split.
  { intros E. apply Hc. rewrite Hd1 in E |- *. apply elem_of_union. by right. }
  split.
  { intros E. apply Hc. rewrite E. rewrite Hd1. apply elem_of_union. left.
    by apply elem_of_singleton. }
  split; [by destruct s|]. split; [done|].
  split; [apply add_page_state_page|]. split; [done|]. split.
  { intros Ht. rewrite Hlive. unfold Page_pixels. by rewrite Ht. }
  split.
  { intros path Hbg Hnull. rewrite Hlive, Hbg. unfold Page_pixels, scaled.
    rewrite Hnull. cbn [orb]. destruct (truthy (Some path)); [|done].
    by rewrite drawPixmap_null. }
  split; [done|].
  split; [by rewrite Hlive, Hst, lookup_insert_eq|]. split.
  { destruct s; unfold add_page_state, snapshot_state; simpl.
    by rewrite lookup_insert_eq. }
  split.
  { rewrite Hst. etrans; [|apply store_alloc_subseteq]. apply store_alloc_subseteq. }
  intros j Hj. destruct s; unfold add_page_state, snapshot_state, history; simpl in *.
  by rewrite !lookup_insert_ne.
Qed.

(** ** Mouse moves and strokes *)

Lemma mouseMoveEvent_cases g e s :
  run (mouseMoveEvent drawLine g e) s = set_canvas_top (toolbar_height g) s ∨
  (∃ pg fi, page s = Some pg ∧ floating_image s = Some fi ∧
     move_mode s = true ∧ drawing s = true ∧
     run (mouseMoveEvent drawLine g e) s = drag_state g e s pg fi) ∨
  (∃ pg, page s = Some pg ∧ floating_image s = None ∧
     move_mode s = false ∧ drawing s = true ∧ left_held e = true ∧
     in_canvas s (psub (pos e) (mkPoint 0 (toolbar_height g))) = true ∧
     run (mouseMoveEvent drawLine g e) s = segment_state drawLine g e s pg).
Proof.
  set (r := run (mouseMoveEvent drawLine g e) s).
  assert (Hr : r = run (mouseMoveEvent drawLine g e) s) by done. clearbody r.
  unfold run, mouseMoveEvent in Hr. unfold bind at 1 in Hr.
  destruct (drawing_rect_run g s) as (w & h & E). rewrite E in Hr. clear E.
  cbv beta iota in Hr. unfold bind at 1, get at 1 in Hr. cbv beta iota in Hr.
  unfold topLeft in Hr; cbn [rx ry] in Hr.
  assert (page (set_canvas_top (toolbar_height g) s) = page s) as E
    by by destruct s.
  rewrite E in Hr. clear E.
  destruct (page s) as [pg|] eqn:Hp; [|by left].
  assert (Hin : in_canvas (set_canvas_top (toolbar_height g) s)
                  (psub (pos e) (mkPoint 0 (toolbar_height g)))
                = in_canvas s (psub (pos e) (mkPoint 0 (toolbar_height g))))
    by by destruct s.
  rewrite Hin in Hr. clear Hin.
  destruct (in_canvas s _) eqn:Hin.
  all: unfold move_branch in Hr;
    destruct s as [st dr lp pc pw er ey ea fi fp mm us rs ps ix ct];
    simpl in *.
  all: destruct fi as [fi|], mm, dr, (left_held e); simpl in Hr; subst r.
  all: first [ by left
             | right; left; by eexists _, _
             | right; right; by eexists ].
Qed.

Lemma same_book_page s s' : same_book s s' → page s' = page s.
Proof. intros (Hp & Hi & _). by apply page_same. Qed.

Lemma moved_refl s : moved s s.
Proof. by repeat split. Qed.

Lemma moved_trans s1 s2 s3 : moved s1 s2 → moved s2 s3 → moved s1 s3.
Proof.
  intros (Hb1 & Ho1 & Hd1 & Hs1) (Hb2 & Ho2 & Hd2 & Hs2).
  pose proof (same_book_page _ _ Hb1) as Hp.
  split; [|split; [|split]].
  - destruct Hb1 as (? & ? & ? & ?), Hb2 as (? & ? & ? & ?).
    repeat split; congruence.
  - by eapply same_overlay_trans.
  - congruence.
  - intros l Hl. rewrite Hs2; [by apply Hs1|]. by rewrite Hp.
Qed.

Lemma moved_fields s s' :
  store s' = store s → pages s' = pages s →
  current_page_idx s' = current_page_idx s →
  undo_stacks s' = undo_stacks s → redo_stacks s' = redo_stacks s →
  floating_image s' = floating_image s → move_mode s' = move_mode s →
  moved s s'.
Proof.
  intros Hs ? ? ? ? ? ?. repeat split; try done; by rewrite Hs.
Qed.

Lemma moved_mouseMoveEvent g e s : moved s (run (mouseMoveEvent drawLine g e) s).
Proof.
  destruct (mouseMoveEvent_cases g e s)
    as [->|[(pg & fi & Hp & Hf & Hm & Hd & ->)|(pg & Hp & Hf & Hm & Hd & Hl & Hin & ->)]].
  - apply moved_fields; by destruct s.
  - apply moved_fields; by destruct s.
  - split; [by destruct s|]. split; [by destruct s|]. split.
    + destruct s; simpl. apply dom_alter_L.
    + intros l Hne. destruct s; simpl in *. apply lookup_alter_ne. by apply Hne.
Qed.

Lemma moved_moves evs : ∀ s,
  moved s (steps mix loadPixmap resample drawLine s
             ((λ ge, EvMouseMove ge.1 ge.2) <$> evs)).
Proof.
  induction evs as [|[g e] evs IH]; intros s; [apply moved_refl|].
  eapply moved_trans; [apply (moved_mouseMoveEvent g e s)|]. apply IH.
Qed.

Lemma moved_mouseReleaseEvent e s : moved s (run (mouseReleaseEvent e) s).
Proof.
  unfold mouseReleaseEvent, run. destruct (button e); mrun;
    apply moved_fields; by destruct s.
Qed.

Lemma steps_gesture g e evs e' s :
  steps mix loadPixmap resample drawLine s (gesture g e evs e')
  = run (mouseReleaseEvent e')
      (steps mix loadPixmap resample drawLine (run (mousePressEvent g e) s)
         ((λ ge, EvMouseMove ge.1 ge.2) <$> evs)).
Proof. unfold gesture, steps. cbn [foldl]. by rewrite foldl_app. Qed.

(** X9.  A stroke is one step of the history.  A press that begins a stroke on
    the active page, any mouse moves and a release push one snapshot:
    after them one undo returns and shows the pixels the page had before
    the press, with the undo stack of the page as it was before the press,
    and one redo after it brings back the pixels of the finished stroke. *)
Theorem stroke_is_one_undo_step (g : Geometry) (e e' : MouseEvent)
    (evs : list (Geometry * MouseEvent)) (s : Notebook) (pg : Page) (b : Pixmap) :
  page s = Some pg →
  store s !! canvas pg = Some b →
  button e = LeftButton →
  press_branch s (psub (pos e) (mkPoint 0 (toolbar_height g))) = BeginStroke →
  ∃ s4 s5,
    undo (steps mix loadPixmap resample drawLine s (gesture g e evs e')) = (Ok tt, s4) ∧
    live_buffer s4 = Some b ∧
    stack_of (undo_stacks s4) (current_page_idx s4)
      = stack_of (undo_stacks s) (current_page_idx s) ∧
    redo s4 = (Ok tt, s5) ∧
    is_Some (live_buffer s5) ∧
    live_buffer s5
      = live_buffer (steps mix loadPixmap resample drawLine s (gesture g e evs e')).
Proof.
  intros Hp Hb Hbtn Hbr. rewrite steps_gesture.
  assert (run (mousePressEvent g e) s
          = snapshot_state
              (set_last_point (psub (pos e) (mkPoint 0 (toolbar_height g)))
                 (set_drawing true (set_canvas_top (toolbar_height g) s))) pg) as ->.
  { unfold run. by rewrite (mousePressEvent_stroke g e s pg Hbtn Hp Hbr). }
  set (sp := set_last_point _ _).
  set (c := fresh (dom (store s))).
  assert (Hc : canvas pg ∈ dom (store s)) by (apply elem_of_dom; eauto).
  assert (Hcc : canvas pg ≠ c) by by apply fresh_store_ne.
  set (s1 := snapshot_state sp pg).
  assert (Hp1 : page s1 = Some pg).
  { subst s1. rewrite page_snapshot_state. subst sp. by destruct s. }
  assert (Hs1c : store s1 !! c = Some b).
  { assert (store s1 = <[c := pixmap_at sp (canvas pg)]> (store s)) as ->
      by by destruct s.
    rewrite lookup_insert_eq. unfold pixmap_at.
    assert (store sp = store s) as -> by by destruct s.
    by rewrite Hb. }
  assert (Hd1 : dom (store s1) = {[c]} ∪ dom (store s)).
  { subst s1 sp c. destruct s; simpl. by rewrite dom_insert_L. }
  assert (HU1 : stack_of (undo_stacks s1) (current_page_idx s1)
                = c :: stack_of (undo_stacks s) (current_page_idx s)).
  { subst s1 sp c. destruct s; simpl. by rewrite stack_of_insert. }
  assert (HR1 : stack_of (redo_stacks s1) (current_page_idx s1) = []).
  { subst s1 sp c. destruct s; simpl. by rewrite stack_of_insert. }
  set (s3 := run (mouseReleaseEvent e') _).
  assert (Hm : moved s1 s3).
  { eapply moved_trans; [apply moved_moves|apply moved_mouseReleaseEvent]. }
  clearbody s3 s1.
  destruct Hm as ((Hps & Hix & Hus & Hrs) & _ & Hd3 & Hst3).
  assert (Hp3 : page s3 = Some pg) by (rewrite <- Hp1; by apply page_same).
  assert (HU3 : stack_of (undo_stacks s3) (current_page_idx s3)
                = c :: stack_of (undo_stacks s) (current_page_idx s))
    by by rewrite Hus, Hix.
  assert (HR3 : stack_of (redo_stacks s3) (current_page_idx s3) = [])
    by by rewrite Hrs, Hix.
  assert (Hs3c : store s3 !! c = Some b).
  { rewrite Hst3; [done|]. intros pg' Hpg'. congruence. }
  assert (Hc3 : canvas pg ∈ dom (store s3)).
  { rewrite Hd3, Hd1. apply elem_of_union. by right. }
  apply elem_of_dom in Hc3 as [b3 Hb3].
  set (s4 := undo_state s3 pg c (stack_of (undo_stacks s) (current_page_idx s))).
  set (c4 := fresh (dom (store s3))).
  assert (Hp4 : page s4 = Some (mkPage c (bg_image pg))).
  { apply (page_set_canvas s3 pg _ Hp3); by destruct s3. }
  assert (Hs4 : store s4 = <[c4 := b3]> (store s3)).
  { assert (store s4 = <[c4 := pixmap_at s3 (canvas pg)]> (store s3)) as ->
      by by destruct s3.
    unfold pixmap_at. by rewrite Hb3. }
  assert (HR4 : stack_of (redo_stacks s4) (current_page_idx s4) = [c4]).
  { subst s4 c4. destruct s3; simpl in *. by rewrite stack_of_insert, HR3. }
  set (s5 := redo_state s4 (mkPage c (bg_image pg)) c4 []).
  assert (Hp5 : page s5 = Some (mkPage c4 (bg_image pg))).
  { apply (page_set_canvas s4 _ _ Hp4); by destruct s3. }
  exists s4, s5.
  split; [by apply undo_spec|]. split.
  { unfold live_buffer. rewrite Hp4. cbn [mbind option_bind canvas].
    rewrite Hs4. unfold c4. rewrite lookup_alloc_old; [done|].
    apply elem_of_dom; eauto. }
  split.
  { subst s4. destruct s3; simpl in *. by rewrite stack_of_insert. }
  split; [by apply redo_spec|].
  assert (Hl5 : live_buffer s5 = Some b3).
  { unfold live_buffer. rewrite Hp5. cbn [mbind option_bind canvas].
    assert (store s5 = <[fresh (dom (store s4)) := pixmap_at s4 c]> (store s4)) as ->
      by by destruct s3.
    rewrite lookup_alloc_old
      by (rewrite Hs4, dom_insert; apply elem_of_union; left; by apply elem_of_singleton).
    by rewrite Hs4, lookup_insert_eq. }
  split; [by rewrite Hl5|]. rewrite Hl5.
  unfold live_buffer. rewrite Hp3. cbn [mbind option_bind]. done.
Qed.

Lemma idle_moves evs : ∀ s,
  drawing s = false →
  ∃ t, steps mix loadPixmap resample drawLine s
         ((λ ge, EvMouseMove ge.1 ge.2) <$> evs) = set_canvas_top t s.
Proof.
  induction evs as [|[g e] evs IH]; intros s Hd.
  { exists (canvas_top s). by destruct s. }
  assert (E : run (mouseMoveEvent drawLine g e) s
              = set_canvas_top (toolbar_height g) s).
  { destruct (mouseMoveEvent_cases g e s)
      as [->|[(pg & fi & _ & _ & _ & Hd' & _)|(pg & _ & _ & _ & Hd' & _)]];
      [done|congruence..]. }
  destruct (IH (set_canvas_top (toolbar_height g) s)) as [t Ht]; [by destruct s|].
  exists t.
  change (steps mix loadPixmap resample drawLine s
            ((λ ge, EvMouseMove ge.1 ge.2) <$> (g, e) :: evs))
    with (steps mix loadPixmap resample drawLine
            (run (mouseMoveEvent drawLine g e) s)
            ((λ ge, EvMouseMove ge.1 ge.2) <$> evs)).
  rewrite E, Ht. by destruct s.
Qed.

(** X10.  After the release of the left button mouse moves do nothing.  However
    many they are and wherever the pointer goes, they paint on no canvas
    and move no floating image: the state after them is the state after
    the release, but for the cached toolbar height. *)
Theorem moves_after_release_do_nothing (e' : MouseEvent)
    (evs : list (Geometry * MouseEvent)) (s : Notebook) :
  button e' = LeftButton →
  ∃ t,
    steps mix loadPixmap resample drawLine s
      (EvMouseRelease e' :: ((λ ge, EvMouseMove ge.1 ge.2) <$> evs))
    = set_canvas_top t (set_drawing false s).
Proof.
  intros Hb.
  change (steps mix loadPixmap resample drawLine s
            (EvMouseRelease e' :: ((λ ge, EvMouseMove ge.1 ge.2) <$> evs)))
    with (steps mix loadPixmap resample drawLine (run (mouseReleaseEvent e') s)
            ((λ ge, EvMouseMove ge.1 ge.2) <$> evs)).
  assert (run (mouseReleaseEvent e') s = set_drawing false s) as ->.
  { unfold mouseReleaseEvent, run. by rewrite Hb. }
  apply idle_moves. by destruct s.
Qed.

(** ** What an event can paint on *)

Lemma store_grows_refl s : store_grows s s.
Proof. by unfold store_grows. Qed.

Lemma store_grows_trans s1 s2 s3 :
  store_grows s1 s2 → store_grows s2 s3 → store_grows s1 s3.
Proof. unfold store_grows. by etrans. Qed.

Lemma grows_alloc p : keeps store_grows (alloc p).
Proof. intros s. unfold alloc, run, store_grows; simpl. destruct s; simpl. apply store_alloc_subseteq. Qed.

Ltac grows_atoms _ :=
  lazymatch goal with
  | |- keeps _ (alloc _) => apply grows_alloc
  end.

Ltac grows_leaf :=
  lazymatch goal with
  | |- store_grows ?s _ => unfold store_grows; by destruct s
  end.

Lemma lookup_grows s s' l :
  store_grows s s' → l ∈ dom (store s) → store s' !! l = store s !! l.
Proof.
  intros H [x Hx]%elem_of_dom. rewrite Hx. by eapply lookup_weaken.
Qed.

Lemma lookup_snapshot_state s pg l :
  l ∈ dom (store s) → store (snapshot_state s pg) !! l = store s !! l.
Proof. intros H. destruct s; simpl in *. by apply lookup_alloc_old. Qed.

Lemma step_active_canvas_only (s : Notebook) (ev : Event) (l : loc) :
  l ∈ dom (store s) →
  (∀ pg, page s = Some pg → canvas pg ≠ l) →
  store (step mix loadPixmap resample drawLine s ev) !! l = store s !! l.
Proof.
  intros Hl Hne. unfold step.
  destruct ev; cbn [handle];
    try (apply lookup_grows; [|done];
         match goal with |- store_grows ?s (run ?m ?s) =>
           refine ((_ : keeps store_grows m) s) end;
         frame store_grows_refl store_grows_trans grows_atoms; grows_leaf).
  - (* set_background_image *)
    unfold run.
    destruct (truthy (Some fname) && bool_decide (is_Some (page s))) eqn:Hc.
    + apply andb_prop in Hc as [Ht Hp]. apply bool_decide_eq_true in Hp as [pg Hp].
      rewrite (set_background_image_run _ _ _ Ht Hp).
      unfold background_state. cbn [snd].
      assert (∀ f ps s0, store (set_pages ps (set_store f s0)) = f) as ->
        by (intros ? ? []; done).
      rewrite lookup_alter_ne by by apply Hne.
      by apply lookup_snapshot_state.
    + by rewrite (set_background_image_skip _ _ Hc).
  - (* add_page *)
    unfold add_page_same_bg, run. rewrite add_page_run. cbn [snd].
    unfold add_page_state. rewrite lookup_snapshot_state.
    + destruct s; simpl in *. by apply lookup_alloc_old.
    + destruct s; simpl in *. rewrite dom_insert. apply elem_of_union. by right.
  - (* toggle_move_mode *)
    unfold run. destruct (floating_image s) as [fi|] eqn:Hf.
    + destruct (move_mode s) eqn:Hm.
      * destruct (page s) as [pg|] eqn:Hp.
        -- rewrite (toggle_move_mode_stamp s fi pg Hf Hm Hp). cbn [snd].
           unfold stamp_state.
           assert (∀ f b o s0,
                     store (set_move_mode b (set_floating_image o (set_store f s0))) = f)
             as -> by (intros ? ? ? []; done).
           rewrite lookup_alter_ne by by apply Hne.
           by apply lookup_snapshot_state.
        -- rewrite (toggle_move_mode_raises s fi Hf Hm Hp). by destruct s.
      * unfold toggle_move_mode, toggle_branch. mrun. by rewrite Hf, Hm.
    + unfold toggle_move_mode, toggle_branch. mrun. by rewrite Hf.
  - (* mouseMoveEvent *)
    by apply moved_mouseMoveEvent.
Qed.

Lemma NoDup_canvases s : inv s → NoDup (canvases s).
Proof. intros [H _]. unfold refs in H. by apply NoDup_app in H as [H _]. Qed.

(** X11.  The pixels of the pages that are not active are out of reach.  In
    every state the window can reach, whatever the event, the canvas of a
    page at another position than the active one is an object of the
    store and has the same pixels after the event (the page itself may
    have moved or become the active one). *)
Theorem inactive_pages_untouched (s : Notebook) (ev : Event) (j : nat) (pg' : Page) :
  reachable mix loadPixmap resample drawLine s →
  pages s !! j = Some pg' →
  Z.of_nat j ≠ current_page_idx s →
  is_Some (store s !! canvas pg') ∧
  store (step mix loadPixmap resample drawLine s ev) !! canvas pg'
    = store s !! canvas pg'.
Proof.
  intros Hr%reachable_inv Hj Hne.
  assert (Hc : canvas pg' ∈ canvases s).
  { unfold canvases. apply list_elem_of_fmap_2. by eapply list_elem_of_lookup_2. }
  assert (Hd : canvas pg' ∈ dom (store s)).
  { apply Hr. apply elem_of_app. by left. }
  split; [by apply elem_of_dom|].
  apply step_active_canvas_only; [done|].
  intros pg Hp E. apply Hne.
  pose proof (page_Some_range _ _ Hp) as Hrg.
  apply page_idx_range in Hp.
  assert (j = Z.to_nat (current_page_idx s)); [|lia].
  apply (NoDup_lookup (canvases s) _ _ (canvas pg')); [by apply NoDup_canvases|..];
    unfold canvases; rewrite list_lookup_fmap.
  - by rewrite Hj.
  - rewrite Hp. simpl. by rewrite E.
Qed.

(** ** The history of the other pages *)

Lemma history_local_refl s : history_local s s.
Proof. by split. Qed.

Lemma history_local_trans s1 s2 s3 :
  history_local s1 s2 → history_local s2 s3 → history_local s1 s3.
Proof.
  intros [Hi1 H1] [Hi2 H2]. split; [congruence|].
  intros j Hj. rewrite H2; [by apply H1|congruence].
Qed.

Ltac local_leaf :=
  lazymatch goal with
  | |- history_local ?s _ => split; [by destruct s|intros ? ?; by destruct s]
  end.

Lemma local_alloc p : keeps history_local (alloc p).
Proof. intros s. unfold alloc, run; simpl. local_leaf. Qed.

Lemma lookup_setdefault_ne (d : gmap Z (list loc)) i j :
  i ≠ j → setdefault i [] d !! j = d !! j.
Proof.
  intros H. unfold setdefault. destruct (d !! i); [done|]. by rewrite lookup_insert_ne.
Qed.

Lemma local_ensure_stacks : keeps history_local ensure_stacks.
Proof.
  intros s. split; [by destruct s|]. intros j Hj.
  destruct s; unfold history; simpl in *. by rewrite !lookup_setdefault_ne.
Qed.

Lemma local_snapshot_state s pg : history_local s (snapshot_state s pg).
Proof.
  split; [by destruct s|]. intros j Hj.
  destruct s; unfold history; simpl in *. by rewrite !lookup_insert_ne.
Qed.

Lemma local_snapshot : keeps history_local snapshot.
Proof.
  intros s. unfold run. destruct (page s) as [pg|] eqn:Hp.
  - rewrite (snapshot_spec _ _ Hp). apply local_snapshot_state.
  - rewrite (snapshot_raises _ Hp). apply local_ensure_stacks.
Qed.

Lemma local_undo : keeps history_local undo.
Proof.
  intros s. destruct (undo_cases s) as [->|(pg & last & u' & Hp & Hu & ->)].
  - apply local_ensure_stacks.
  - split; [by destruct s|]. intros j Hj.
    destruct s; unfold history; simpl in *. by rewrite !lookup_insert_ne.
Qed.

Lemma local_redo : keeps history_local redo.
Proof.
  intros s. destruct (redo_cases s) as [->|(pg & last & u' & Hp & Hu & ->)].
  - apply local_ensure_stacks.
  - split; [by destruct s|]. intros j Hj.
    destruct s; unfold history; simpl in *. by rewrite !lookup_insert_ne.
Qed.

Ltac local_atoms _ :=
  lazymatch goal with
  | |- keeps _ (alloc _) => apply local_alloc
  | |- keeps _ ensure_stacks => apply local_ensure_stacks
  | |- keeps _ snapshot => apply local_snapshot
  | |- keeps _ undo => apply local_undo
  | |- keeps _ redo => apply local_redo
  end.

Lemma delete_current_page_history_ne s j :
  j ≠ current_page_idx s →
  history (run delete_current_page s) j = history s j.
Proof.
  intros Hj. unfold delete_current_page, run. mrun.
  destruct (pages s) as [|p0 ps0] eqn:Hps; [done|].
  destruct (py_index _ _) as [k|]; [|done]. simpl.
  assert (∀ (ps : list Page) (s0 : Notebook),
            history ((match ps with
                      | [] => modify (set_current_page_idx (-1))
                      | _ :: _ =>
                          modify (set_current_page_idx
                                    (Z.max 0 (current_page_idx s - 1)))
                      end) s0).2 j = history s0 j) as H.
  { intros [|? ?] []; done. }
  etrans; [apply H|].
  destruct s; unfold history; simpl in *. by rewrite !lookup_delete_ne.
Qed.

(** X12.  The history of a position belongs to the events at that position.
    Whatever the state and the event, the undo and redo stacks kept under
    a key that is the active index neither before nor after the event are
    the same after it as before. *)
Theorem history_is_local (s : Notebook) (ev : Event) (j : Z) :
  j ≠ current_page_idx s →
  j ≠ current_page_idx (step mix loadPixmap resample drawLine s ev) →
  history (step mix loadPixmap resample drawLine s ev) j = history s j.
Proof.
  intros Hj Hj'. unfold step in *.
  destruct ev; cbn [handle] in *;
    try (match goal with |- history (run ?m ?s) ?j = _ =>
           let H := fresh in
           assert (H : keeps history_local m); [|exact (proj2 (H s) j Hj)]
         end;
         frame history_local_refl history_local_trans local_atoms; local_leaf).
  - (* add_page *)
    revert Hj'. unfold add_page_same_bg, run. rewrite add_page_run. cbn [snd].
    intros Hj'. destruct s; unfold add_page_state, history in *; simpl in *.
    by rewrite !lookup_insert_ne.
  - by apply delete_current_page_history_ne.
  - unfold change_page, run. mrun. destruct (_ && _); by destruct s.
Qed.

(** ** Dragging the floating image *)

Lemma mousePressEvent_begin_drag g e s :
  button e = LeftButton →
  inside_overlay s (local_point (g, e)) = true →
  mousePressEvent g e s =
    (Ok tt,
     set_last_point (local_point (g, e))
       (set_drawing true (set_canvas_top (toolbar_height g) s))).
Proof.
  intros Hb Hin. press_start g s. rewrite Hb.
  unfold bind at 1, get at 1. cbv beta iota. unfold press_branch.
  assert (inside_overlay (set_canvas_top (toolbar_height g) s)
            (psub (pos e) (mkPoint 0 (toolbar_height g))) = true) as ->.
  { rewrite <- Hin. by destruct s. }
  reflexivity.
Qed.

Lemma clamp_id x hi : 0 ≤ x ≤ hi → clamp x hi = x.
Proof. unfold clamp. lia. Qed.

Lemma foldl_last {A} (xs : list A) : ∀ x0,
  foldl (λ _ x, x) x0 xs = default x0 (last xs).
Proof.
  induction xs as [|x xs IH]; intros x0; [done|]. cbn [foldl]. rewrite IH.
  rewrite last_cons. by destruct (last xs).
Qed.

Lemma drag_moves pg fi evs : ∀ s,
  page s = Some pg → floating_image s = Some fi →
  move_mode s = true → drawing s = true →
  Forall (λ ge, fits (Page_size s pg).1 (Page_size s pg).2 fi
                  (padd (floating_pos s) (psub (local_point ge) (last_point s))))
    evs →
  let s' := steps mix loadPixmap resample drawLine s
              ((λ ge, EvMouseMove ge.1 ge.2) <$> evs) in
  floating_pos s'
    = padd (floating_pos s)
        (psub (foldl (λ _ x, x) (last_point s) (local_point <$> evs)) (last_point s)) ∧
  store s' = store s ∧ pages s' = pages s ∧
  current_page_idx s' = current_page_idx s ∧
  undo_stacks s' = undo_stacks s ∧ redo_stacks s' = redo_stacks s ∧
  floating_image s' = Some fi ∧ move_mode s' = true ∧ drawing s' = true.
Proof.
  induction evs as [|[g e] evs IH]; intros s Hp Hf Hm Hd Hall.
  { cbn. repeat split; try done.
    destruct (floating_pos s), (last_point s). unfold padd, psub; simpl.
    f_equal; lia. }
  apply Forall_cons in Hall as [[Hx Hy] Hall]. cbn [fst snd] in Hx, Hy.
  assert (E : steps mix loadPixmap resample drawLine s
                ((λ ge, EvMouseMove ge.1 ge.2) <$> (g, e) :: evs)
              = steps mix loadPixmap resample drawLine (drag_state g e s pg fi)
                  ((λ ge, EvMouseMove ge.1 ge.2) <$> evs)).
  { change (steps mix loadPixmap resample drawLine s
              ((λ ge, EvMouseMove ge.1 ge.2) <$> (g, e) :: evs))
      with (steps mix loadPixmap resample drawLine
              (run (mouseMoveEvent drawLine g e) s)
              ((λ ge, EvMouseMove ge.1 ge.2) <$> evs)).
    unfold run. by rewrite (mouseMoveEvent_drag g e s pg fi Hp Hf Hm Hd). }
  cbv zeta. rewrite E. clear E.
  set (s1 := drag_state g e s pg fi) in *.
  assert (Hfp : floating_pos s1
                = padd (floating_pos s) (psub (local_point (g, e)) (last_point s))).
  { subst s1. unfold drag_state, local_point, Page_size in *. destruct s; simpl in *.
    rewrite !clamp_id by done. done. }
  assert (Hlp : last_point s1 = local_point (g, e)) by by destruct s.
  assert (Hsz : Page_size s1 pg = Page_size s pg) by by destruct s.
  destruct (IH s1) as (H1 & H2 & H3 & H4 & H5 & H6 & H7 & H8 & H9);
    try by destruct s.
  { rewrite Hsz, Hfp, Hlp. eapply Forall_impl; [exact Hall|].
    intros ge. cbv beta.
    assert (padd (padd (floating_pos s) (psub (local_point (g, e)) (last_point s)))
              (psub (local_point ge) (local_point (g, e)))
            = padd (floating_pos s) (psub (local_point ge) (last_point s))) as ->; [|done].
    destruct (floating_pos s), (last_point s), (local_point ge), (local_point (g, e)).
    unfold padd, psub; simpl. f_equal; lia. }
  rewrite H1, H2, H3, H4, H5, H6, H7, H8, H9, Hfp, Hlp.
  repeat split; try by destruct s.
  change (local_point <$> (g, e) :: evs) with (local_point (g, e) :: (local_point <$> evs)).
  cbn [foldl].
  destruct (floating_pos s), (last_point s), (local_point (g, e)),
    (foldl _ _ _). unfold padd, psub; simpl. f_equal; lia.
Qed.

(** X13.  The floating image follows the pointer.  A press of the left button
    on the floating image, mouse moves and a release: if every pointer
    position keeps the image inside the page, the image ends displaced by
    exactly as much as the pointer went from the press to the last move
    (not at all without a move).  The drag changes no pixmap, no page and
    no history, and the image is still floating in move mode. *)
Theorem drag_follows_pointer (g : Geometry) (e e' : MouseEvent)
    (evs : list (Geometry * MouseEvent)) (s : Notebook) (pg : Page) (fi : Pixmap) :
  page s = Some pg → floating_image s = Some fi → move_mode s = true →
  button e = LeftButton →
  inside_overlay s (local_point (g, e)) = true →
  Forall (λ ge, fits (Page_size s pg).1 (Page_size s pg).2 fi
                  (padd (floating_pos s)
                     (psub (local_point ge) (local_point (g, e))))) evs →
  floating_pos (steps mix loadPixmap resample drawLine s (gesture g e evs e'))
    = padd (floating_pos s)
        (psub (default (local_point (g, e)) (last (local_point <$> evs)))
           (local_point (g, e))) ∧
  store (steps mix loadPixmap resample drawLine s (gesture g e evs e')) = store s ∧
  same_book s (steps mix loadPixmap resample drawLine s (gesture g e evs e')) ∧
  same_overlay s (steps mix loadPixmap resample drawLine s (gesture g e evs e')).
Proof.
  intros Hp Hf Hm Hb Hin Hall. rewrite steps_gesture.
  assert (run (mousePressEvent g e) s
          = set_last_point (local_point (g, e))
              (set_drawing true (set_canvas_top (toolbar_height g) s))) as ->.
  { unfold run. by rewrite (mousePressEvent_begin_drag g e s Hb Hin). }
  set (s1 := set_last_point _ _).
  destruct (drag_moves pg fi evs s1) as (H1 & H2 & H3 & H4 & H5 & H6 & H7 & H8 & H9);
    try by destruct s.
  set (s2 := steps _ _ _ _ s1 _) in *. clearbody s2.
  assert (Hrel : ∀ s0, let s3 := run (mouseReleaseEvent e') s0 in
            floating_pos s3 = floating_pos s0 ∧ store s3 = store s0 ∧
            same_book s0 s3 ∧ same_overlay s0 s3).
  { intros s0. unfold mouseReleaseEvent, run. destruct (button e'); mrun;
      by destruct s0. }
  destruct (Hrel s2) as (R1 & R2 & (R3 & R4 & R5 & R6) & (R7 & R8)).
  rewrite R1, R2, H1, H2. rewrite foldl_last.
  split; [by destruct s|]. split; [by destruct s|].
  split.
  - unfold same_book. rewrite R3, R4, R5, R6, H3, H4, H5, H6. by destruct s.
  - unfold same_overlay. rewrite R7, R8, H7, H8. by destruct s.
Qed.

(** ** Cloning a page *)

(** X14.  [Page.clone] makes a deep copy.  For a page whose canvas is an object
    of the store, the call returns a page on a new canvas object with the
    same pixels, the same size and the same background reference; no
    object that existed has changed, and painting on either canvas
    afterwards leaves the pixels of the other. *)
Theorem Page_clone_independent (pg : Page) (s : Notebook) (b : Pixmap) :
  store s !! canvas pg = Some b →
  ∃ pg' s',
    Page_clone mix loadPixmap resample pg s = (Ok pg', s') ∧
    (canvas pg' ∉ dom (store s)) ∧ canvas pg' ≠ canvas pg ∧
    store s' !! canvas pg' = Some b ∧
    bg_image pg' = bg_image pg ∧
    Page_size s' pg' = Page_size s pg ∧
    store s ⊆ store s' ∧
    (∀ f, store (run (paint (canvas pg') f) s') !! canvas pg = Some b) ∧
    (∀ f, store (run (paint (canvas pg) f) s') !! canvas pg' = Some b).
Proof.
  intros Hb.
  assert (Hd : canvas pg ∈ dom (store s)) by (apply elem_of_dom; eauto).
  set (l := fresh (dom (store s))).
  set (m1 := <[l := Page_pixels mix loadPixmap resample
                      (Page_size s pg).1 (Page_size s pg).2 None]> (store s)).
  assert (Hb1 : m1 !! canvas pg = Some b).
  { subst m1 l. by rewrite lookup_alloc_old. }
  assert (Hd1 : canvas pg ∈ dom m1) by (apply elem_of_dom; eauto).
  exists (mkPage (fresh (dom m1)) (bg_image pg)),
         (set_store (<[fresh (dom m1) := b]> m1) s).
  assert (Hne : fresh (dom m1) ≠ canvas pg).
  { symmetry. by apply fresh_store_ne. }
  assert (Hsub : store s ⊆ <[fresh (dom m1) := b]> m1).
  { etrans; [apply store_alloc_subseteq|]. apply store_alloc_subseteq. }
  split.
  { unfold Page_clone. unfold bind at 1, get at 1. cbv beta iota.
    destruct (Page_size s pg) as [w h] eqn:Hsz. unfold bind at 1.
    rewrite Page_init_run. cbv beta iota.
    unfold copy, bind, get, alloc, ret, pixmap_at. cbv beta iota.
    assert (∀ v, store (set_store v s) = v) as Hst by (intros; by destruct s).
    rewrite !Hst. fold l. cbn [fst snd] in m1. fold m1. rewrite Hb1. simpl.
    by destruct s. }
  split.
  { cbn [canvas]. intros H. assert (H' : fresh (dom m1) ∈ dom m1).
    { subst m1. rewrite dom_insert_L in H |- *. apply elem_of_union. by right. }
    by apply is_fresh in H'. }
  split; [done|].
  assert (∀ v, store (set_store v s) = v) as Hst by (intros; by destruct s).
  split; [by rewrite Hst, lookup_insert_eq|]. split; [done|]. split.
  { unfold Page_size, pixmap_at. rewrite Hst. cbn [canvas].
    by rewrite lookup_insert_eq, Hb. }
  split; [by rewrite Hst|]. split.
  - intros f. unfold paint, run, modify. cbn [snd canvas].
    assert (∀ v s0, store (set_store v s0) = v) as Hst' by (intros ? []; done).
    rewrite Hst', Hst. rewrite lookup_alter_ne by done.
    by rewrite lookup_insert_ne.
  - intros f. unfold paint, run, modify. cbn [snd canvas].
    assert (∀ v s0, store (set_store v s0) = v) as Hst' by (intros ? []; done).
    rewrite Hst', Hst. rewrite lookup_alter_ne by done.
    by rewrite lookup_insert_eq.
Qed.

(** ** Undoing a background and a stamp *)

Lemma undo_restores s pg c U0 b :
  page s = Some pg →
  stack_of (undo_stacks s) (current_page_idx s) = c :: U0 →
  store s !! c = Some b →
  ∃ s',
    undo s = (Ok tt, s') ∧
    page s' = Some (mkPage c (bg_image pg)) ∧
    live_buffer s' = Some b ∧
    stack_of (undo_stacks s') (current_page_idx s') = U0 ∧
    floating_image s' = floating_image s ∧ move_mode s' = move_mode s.
Proof.
  intros Hp Hu Hc. exists (undo_state s pg c U0).
  assert (Hp' : page (undo_state s pg c U0) = Some (mkPage c (bg_image pg))).
  { apply (page_set_canvas s pg _ Hp); by destruct s. }
  split; [by apply undo_spec|]. split; [done|]. split.
  { unfold live_buffer. rewrite Hp'. cbn [mbind option_bind canvas].
    assert (store (undo_state s pg c U0)
            = <[fresh (dom (store s)) := pixmap_at s (canvas pg)]> (store s)) as ->
      by by destruct s.
    rewrite lookup_alloc_old; [done|]. apply elem_of_dom; eauto. }
  split; [|by destruct s].
  destruct s; simpl. by rewrite stack_of_insert.
Qed.

(** X15.  Undo after "Set Background Image" restores the pixels, not the
    reference.  With a file chosen and a page active, the call returns and
    one undo after it shows the pixels the page had before; but the
    background reference of the page is still the chosen file, which is
    what [add_page] gives the next page. *)
Theorem background_undo_keeps_reference (fname : string) (s : Notebook)
    (pg : Page) (b : Pixmap) :
  fname ≠ EmptyString →
  page s = Some pg →
  store s !! canvas pg = Some b →
  ∃ s1 s2,
    set_background_image mix loadPixmap resample fname s = (Ok tt, s1) ∧
    undo s1 = (Ok tt, s2) ∧
    live_buffer s2 = Some b ∧
    (bg_image <$> page s2) = Some (Some fname) ∧
    stack_of (undo_stacks s2) (current_page_idx s2)
      = stack_of (undo_stacks s) (current_page_idx s).
Proof.
  intros Hf Hp Hb.
  assert (Ht : truthy (Some fname) = true) by by destruct fname.
  set (s1 := background_state mix loadPixmap resample fname s pg).
  set (c := fresh (dom (store s))).
  assert (Hd : canvas pg ∈ dom (store s)) by (apply elem_of_dom; eauto).
  assert (Hp1 : page s1 = Some (mkPage (canvas pg) (Some fname))).
  { apply (page_set_canvas s pg _ Hp); by destruct s. }
  assert (HU : stack_of (undo_stacks s1) (current_page_idx s1)
               = c :: stack_of (undo_stacks s) (current_page_idx s)).
  { subst s1 c. destruct s; simpl. by rewrite stack_of_insert. }
  assert (Hc : store s1 !! c = Some b).
  { assert (∃ f, store s1 = alter f (canvas pg)
                              (<[c := pixmap_at s (canvas pg)]> (store s)))
      as [f ->] by (eexists; by destruct s).
    rewrite lookup_alter_ne by by apply fresh_store_ne.
    rewrite lookup_insert_eq. unfold pixmap_at. by rewrite Hb. }
  destruct (undo_restores s1 _ c _ b Hp1 HU Hc) as (s2 & E & Hp2 & Hl & HU2 & _).
  exists s1, s2. split; [by apply set_background_image_run|].
  split; [done|]. split; [done|]. split; [by rewrite Hp2|done].
Qed.

(** X16.  Undo after a stamp restores the pixels, not the floating image.  With
    an image floating in move mode on a page, Ctrl+M returns and one undo
    after it shows the pixels the page had before the stamp; there is no
    floating image any more and move mode is off. *)
Theorem stamp_undo_drops_overlay (s : Notebook) (pg : Page) (fi b : Pixmap) :
  floating_image s = Some fi → move_mode s = true →
  page s = Some pg →
  store s !! canvas pg = Some b →
  ∃ s1 s2,
    toggle_move_mode mix s = (Ok tt, s1) ∧
    undo s1 = (Ok tt, s2) ∧
    live_buffer s2 = Some b ∧
    floating_image s2 = None ∧ move_mode s2 = false ∧
    stack_of (undo_stacks s2) (current_page_idx s2)
      = stack_of (undo_stacks s) (current_page_idx s).
Proof.
  intros Hf Hm Hp Hb.
  set (s1 := stamp_state mix s pg fi).
  set (c := fresh (dom (store s))).
  assert (Hd : canvas pg ∈ dom (store s)) by (apply elem_of_dom; eauto).
  assert (Hp1 : page s1 = Some pg).
  { rewrite <- Hp. apply page_same; by destruct s. }
  assert (HU : stack_of (undo_stacks s1) (current_page_idx s1)
               = c :: stack_of (undo_stacks s) (current_page_idx s)).
  { subst s1 c. destruct s; simpl. by rewrite stack_of_insert. }
  assert (Hc : store s1 !! c = Some b).
  { assert (∃ f, store s1 = alter f (canvas pg)
                              (<[c := pixmap_at s (canvas pg)]> (store s)))
      as [f ->] by (eexists; by destruct s).
    rewrite lookup_alter_ne by by apply fresh_store_ne.
    rewrite lookup_insert_eq. unfold pixmap_at. by rewrite Hb. }
  destruct (undo_restores s1 _ c _ b Hp1 HU Hc) as (s2 & E & Hp2 & Hl & HU2 & Hfi & Hmm).
  exists s1, s2. split; [by apply toggle_move_mode_stamp|].
  split; [done|]. split; [done|].
  split; [rewrite Hfi; by destruct s|]. split; [rewrite Hmm; by destruct s|done].
Qed.

(** X17.  The first undo on a new page shows no change.  The snapshot
    [add_page()] pushes is a copy of the new page itself: the undo right
    after it returns, takes that snapshot for the canvas and moves the
    canvas to the redo stack, and the page shows the same pixels as
    before. *)
Theorem new_page_first_undo (g : Geometry) (s : Notebook) :
  ∃ s1 s2,
    add_page mix loadPixmap resample g s = (Ok tt, s1) ∧
    undo s1 = (Ok tt, s2) ∧
    is_Some (live_buffer s1) ∧
    live_buffer s2 = live_buffer s1 ∧
    (canvas <$> page s2) ≠ (canvas <$> page s1) ∧
    stack_of (undo_stacks s2) (current_page_idx s2)
      = stack_of (undo_stacks s) (Z.of_nat (length (pages s))).
Proof.
  set (s1 := add_page_state mix loadPixmap resample g s).
  pose proof (add_page_state_page g s) as Hp. cbv zeta in Hp. fold s1 in Hp.
  pose proof (add_page_state_live g s) as Hlive. cbv zeta in Hlive. fold s1 in Hlive.
  pose proof (add_page_state_store g s) as Hst. cbv zeta in Hst. fold s1 in Hst.
  destruct (add_page_state_undo g s) as [Hix HU]. fold s1 in Hix, HU.
  set (px0 := Page_pixels _ _ _ _ _ _) in *.
  set (m1 := <[fresh (dom (store s)) := px0]> (store s)) in *.
  assert (HU' : stack_of (undo_stacks s1) (current_page_idx s1)
                = fresh (dom m1)
                  :: stack_of (undo_stacks s) (Z.of_nat (length (pages s)))).
  { unfold stack_of at 1. by rewrite Hix, HU. }
  assert (Hsc : store s1 !! fresh (dom m1) = Some px0)
    by by rewrite Hst, lookup_insert_eq.
  destruct (undo_restores s1 _ _ _ _ Hp HU' Hsc) as (s2 & E2 & Hp2 & Hl2 & HU2 & _).
  exists s1, s2. split; [apply add_page_run|]. split; [done|].
  split; [by rewrite Hlive|].
  split; [by rewrite Hl2, Hlive|]. split; [|done].
  assert (Hne : fresh (dom m1) ≠ fresh (dom (store s))).
  { intros E. assert (H : fresh (dom m1) ∈ dom m1).
    { rewrite E. subst m1. rewrite dom_insert_L. apply elem_of_union. left.
      by apply elem_of_singleton. }
    by apply is_fresh in H. }
  rewrite Hp, Hp2. simpl. congruence.
Qed.

(** ** Selecting pages *)

(** X18.  Selecting a row of the page list and then the row of the page that
    was active gives back the state, in every state the window can reach;
    a row outside the list is ignored, and a row of the list makes its
    page the active one. *)
Theorem select_page_round_trip (s : Notebook) (row : Z) :
  reachable mix loadPixmap resample drawLine s →
  steps mix loadPixmap resample drawLine s
    [EvSelectPage row; EvSelectPage (current_page_idx s)] = s ∧
  (¬ (0 ≤ row < Z.of_nat (length (pages s))) →
   step mix loadPixmap resample drawLine s (EvSelectPage row) = s) ∧
  (0 ≤ row < Z.of_nat (length (pages s)) →
   page (step mix loadPixmap resample drawLine s (EvSelectPage row))
   = pages s !! Z.to_nat row).
Proof.
  intros [Hi _]%reachable_book.
  assert (Hsel : ∀ s0 r,
            step mix loadPixmap resample drawLine s0 (EvSelectPage r)
            = if (0 <=? r) && (r <? Z.of_nat (length (pages s0)))
              then set_current_page_idx r s0 else s0).
  { intros s0 r. unfold step, run. cbn [handle]. unfold change_page. mrun.
    by destruct (_ && _). }
  split; [|split].
  - unfold steps. cbn [foldl]. rewrite !Hsel.
    destruct ((0 <=? row) && (row <? Z.of_nat (length (pages s)))) eqn:E.
    + apply andb_prop in E as [H1%Z.leb_le H2%Z.ltb_lt].
      assert (Hr : 0 ≤ current_page_idx s < Z.of_nat (length (pages s))).
      { destruct Hi as [[Hp _]|H]; [|done]. rewrite Hp in H2. simpl in H2. lia. }
      assert (pages (set_current_page_idx row s) = pages s) as -> by by destruct s.
      replace (_ && _) with true
        by (symmetry; rewrite andb_true_iff, Z.leb_le, Z.ltb_lt; lia).
      by destruct s.
    + destruct ((0 <=? current_page_idx s) && _); [|done]. clear. by destruct s.
  - intros Hn. rewrite Hsel. destruct (_ && _) eqn:E; [|done].
    apply andb_prop in E as [H1%Z.leb_le H2%Z.ltb_lt]. lia.
  - intros Hr. rewrite Hsel.
    replace (_ && _) with true
      by (symmetry; rewrite andb_true_iff, Z.leb_le, Z.ltb_lt; lia).
    unfold page. assert (∀ r s0, pages (set_current_page_idx r s0) = pages s0) as ->
      by (intros ? []; done).
    assert (∀ r s0, current_page_idx (set_current_page_idx r s0) = r) as ->
      by (intros ? []; done).
    by replace (_ && _) with true
      by (symmetry; rewrite andb_true_iff, Z.leb_le, Z.ltb_lt; lia).
Qed.

(** ** The cached toolbar height *)

Ltac top_leaf :=
  unfold pres;
  lazymatch goal with
  | |- canvas_top ?s = _ → _ => by destruct s
  end.

Lemma top_alloc t p : keeps (pres (λ s, canvas_top s = t)) (alloc p).
Proof. intros s. unfold alloc, run; simpl. top_leaf. Qed.

Ltac top_atoms _ :=
  lazymatch goal with
  | |- keeps _ (alloc _) => apply top_alloc
  end.

(** X19.  [to_canvas_point] agrees with the mouse handlers.  After a mouse press
    or a mouse move, whatever it did, the cached [canvas_top] is the
    toolbar height the handler saw, so that [to_canvas_point] maps the
    position of the event to the point [event.pos() - rect.topLeft()] the
    handler worked with. *)
Theorem to_canvas_point_after_mouse_event (g : Geometry) (e : MouseEvent)
    (s : Notebook) :
  to_canvas_point (run (mousePressEvent g e) s) (pos e) = local_point (g, e) ∧
  to_canvas_point (run (mouseMoveEvent drawLine g e) s) (pos e) = local_point (g, e).
Proof.
  assert (H : ∀ s', canvas_top s' = toolbar_height g →
                    to_canvas_point s' (pos e) = local_point (g, e)).
  { intros s' Hs'. unfold to_canvas_point, local_point, psub. rewrite Hs'. simpl.
    f_equal. lia. }
  split; apply H.
  - unfold mousePressEvent. rewrite run_bind.
    destruct (drawing_rect_run g s) as (w & h & ->).
    match goal with |- canvas_top (run ?m ?s0) = ?t =>
      refine ((_ : keeps (pres (λ s, canvas_top s = t)) m) s0 _);
        [|by destruct s] end.
    frame (pres_refl (λ s, canvas_top s = toolbar_height g))
          (pres_trans (λ s, canvas_top s = toolbar_height g)) top_atoms; top_leaf.
  - destruct (mouseMoveEvent_cases g e s)
      as [->|[(pg & fi & _ & _ & _ & _ & ->)|(pg & _ & _ & _ & _ & _ & _ & ->)]];
      by destruct s.
Qed.

End Properties.

(** * Concrete runs *)

(** C1 on the code.  Three pages, the first one active, and the first one
    deleted.  The active index becomes [0] and the stacks of position [0]
    are gone, but the stacks stay keyed by the old positions: the page that
    was second is now at position [0] and has no history, and the page
    that was third is now at position [1] and has the history of the page
    that was second. *)
Theorem delete_current_page_reassigns_history :
  let s := ex_three_pages in
  let s' := ex_step s EvDeletePage in
  pages s = [mkPage 1%positive None; mkPage 3%positive None; mkPage 5%positive None] ∧
  current_page_idx s = 0 ∧
  history s 1 = (Some [4%positive], Some []) ∧
  history s 2 = (Some [6%positive], Some []) ∧
  pages s' = [mkPage 3%positive None; mkPage 5%positive None] ∧
  current_page_idx s' = 0 ∧
  history s' 0 = (None, None) ∧
  history s' 1 = history s 1 ∧
  history s' 1 ≠ history s 2.
Proof. vm_compute. repeat split; try reflexivity. discriminate. Qed.

Lemma undo_redo_inverse_witness :
  page ex_small = Some (mkPage 1%positive None) ∧
  canvas (mkPage 1%positive None) ∈ dom (store ex_small) ∧
  ∃ s1 s2 s3,
    operations ex_ops ex_small = (Ok tt, s1) ∧
    times (length ex_ops) undo s1 = (Ok tt, s2) ∧
    times (length ex_ops) redo s2 = (Ok tt, s3) ∧
    is_Some (live_buffer ex_small) ∧
    live_buffer s2 = live_buffer ex_small ∧
    live_buffer s3 = live_buffer s1.
Proof.
  assert (H1 : page ex_small = Some (mkPage 1%positive None)) by reflexivity.
  assert (H2 : canvas (mkPage 1%positive None) ∈ dom (store ex_small)).
  { apply elem_of_dom. eexists. vm_compute. reflexivity. }
  split; [exact H1|]. split; [exact H2|].
  exact (undo_redo_inverse ex_small (mkPage 1%positive None) ex_ops H1 H2).
Defined.

(** C3 as the spec has it fails: no file can be decoded, a stroke has been
    drawn and undone, and the user picks a file as background.  The call
    returns; the undo stack of the page has grown, its redo stack has lost
    the undone stroke, and the page refers to the file. *)
Lemma set_background_undecodable_counterexample :
  isNull (ex_load "bad.png") = true ∧
  set_background_image ex_mix ex_load ex_resample "bad.png" ex_undone
    = (Ok tt, ex_bad_background) ∧
  undo_stacks ex_undone !! 0 = Some [2%positive] ∧
  undo_stacks ex_bad_background !! 0 = Some [5%positive; 2%positive] ∧
  redo_stacks ex_undone !! 0 = Some [4%positive] ∧
  redo_stacks ex_bad_background !! 0 = Some [] ∧
  (bg_image <$> page ex_undone) = Some None ∧
  (bg_image <$> page ex_bad_background) = Some (Some "bad.png"%string).
Proof.
  split; [reflexivity|]. split.
  - unfold ex_bad_background, run.
    by rewrite (set_background_image_run ex_mix ex_load ex_resample "bad.png"
                  ex_undone (mkPage 3%positive None))
      by (vm_compute; reflexivity).
  - repeat split; vm_compute; reflexivity.
Qed.

Lemma set_background_undecodable_witness :
  isNull (ex_load "bad.png") = true ∧
  "bad.png"%string ≠ EmptyString ∧
  page ex_small = Some (mkPage 1%positive None) ∧
  canvas (mkPage 1%positive None) ∈ dom (store ex_small) ∧
  ∃ s' c,
    set_background_image ex_mix ex_load ex_resample "bad.png" ex_small = (Ok tt, s') ∧
    live_buffer s' = live_buffer ex_small ∧
    current_page_idx s' = current_page_idx ex_small ∧
    page s' = Some (mkPage (canvas (mkPage 1%positive None)) (Some "bad.png"%string)) ∧
    undo_stacks s' !! current_page_idx ex_small
      = Some (c :: stack_of (undo_stacks ex_small) (current_page_idx ex_small)) ∧
    store s' !! c = store ex_small !! canvas (mkPage 1%positive None) ∧
    redo_stacks s' !! current_page_idx ex_small = Some [].
Proof.
  assert (H1 : isNull (ex_load "bad.png") = true) by reflexivity.
  assert (H2 : "bad.png"%string ≠ EmptyString) by discriminate.
  assert (H3 : page ex_small = Some (mkPage 1%positive None)) by reflexivity.
  assert (H4 : canvas (mkPage 1%positive None) ∈ dom (store ex_small)).
  { apply elem_of_dom. eexists. vm_compute. reflexivity. }
  split; [exact H1|]. split; [exact H2|]. split; [exact H3|]. split; [exact H4|].
  exact (set_background_undecodable ex_mix ex_load ex_resample ex_small
           (mkPage 1%positive None) "bad.png" H1 H2 H3 H4).
Defined.

Lemma commit_stamps_overlay_witness :
  floating_image ex_overlay = Some (filled 20 20 opaque_red) ∧
  move_mode ex_overlay = true ∧
  page ex_overlay = Some (mkPage 1%positive None) ∧
  store ex_overlay !! canvas (mkPage 1%positive None) = Some (filled 100 100 white) ∧
  ∃ s', toggle_move_mode ex_mix ex_overlay = (Ok tt, s') ∧
        overlay_state s' = Absent ∧
        (live_buffer s' ≫= λ p, pixel p 45 45) = Some opaque_red ∧
        (live_buffer s' ≫= λ p, pixel p 44 45) = Some white.
Proof.
  assert (H1 : floating_image ex_overlay = Some (filled 20 20 opaque_red))
    by reflexivity.
  assert (H2 : move_mode ex_overlay = true) by reflexivity.
  assert (H3 : page ex_overlay = Some (mkPage 1%positive None)) by reflexivity.
  assert (H4 : store ex_overlay !! canvas (mkPage 1%positive None)
               = Some (filled 100 100 white)) by (vm_compute; reflexivity).
  split; [exact H1|]. split; [exact H2|]. split; [exact H3|]. split; [exact H4|].
  destruct (commit_stamps_overlay ex_mix ex_overlay _ _ _ H1 H2 H3 H4)
    as (s' & c & Hrun & _ & _ & _ & _ & _ & _ & Habs & Hpix).
  exists s'. split; [exact Hrun|]. split; [exact Habs|].
  split.
  - apply (Hpix eq_refl eq_refl eq_refl 45 45); lia.
  - apply (Hpix eq_refl eq_refl eq_refl 44 45); lia.
Defined.

Lemma drag_keeps_overlay_in_page_witness :
  page ex_dragging = Some (mkPage 1%positive None) ∧
  floating_image ex_dragging = Some (filled 20 20 opaque_red) ∧
  move_mode ex_dragging = true ∧ drawing ex_dragging = true ∧
  Forall (λ s', overlay_in_page 100 100 (filled 20 20 opaque_red) s')
    (drag_trace ex_drawLine ex_dragging ex_drag_events).
Proof.
  assert (H1 : page ex_dragging = Some (mkPage 1%positive None)) by reflexivity.
  assert (H2 : floating_image ex_dragging = Some (filled 20 20 opaque_red))
    by reflexivity.
  assert (H3 : move_mode ex_dragging = true) by reflexivity.
  assert (H4 : drawing ex_dragging = true) by reflexivity.
  split; [exact H1|]. split; [exact H2|]. split; [exact H3|]. split; [exact H4|].
  destruct (drag_keeps_overlay_in_page ex_drawLine ex_dragging _ _ ex_drag_events
              H1 H2 H3 H4) as [_ Hall].
  eapply Forall_impl; [exact Hall|]. intros s' (_ & _ & Hin). exact Hin.
Defined.

Lemma redo_after_new_snapshot_witness :
  snapshot (run undo ex_small) = (Ok tt, ex_after_undo_snapshot) ∧
  redo_stacks ex_after_undo_snapshot !! current_page_idx ex_after_undo_snapshot
    = Some [] ∧
  redo ex_after_undo_snapshot = (Ok tt, ex_after_undo_snapshot).
Proof.
  assert (H : snapshot (run undo ex_small) = (Ok tt, ex_after_undo_snapshot))
    by (vm_compute; reflexivity).
  split; [exact H|].
  exact (proj1 (redo_after_new_snapshot_is_noop ex_small ex_after_undo_snapshot H)).
Defined.

(** C7 as the spec has it fails: an image of 300 x 300 pasted on the page of
    200 x 200 is put at (0, 0), and centred it would be at (-50, -50). *)
Lemma paste_oversize_not_centred :
  page ex_start = Some (mkPage 1%positive None) ∧
  Page_size ex_start (mkPage 1%positive None) = (200, 200) ∧
  paste_image ex_big_clipboard ex_start = (Ok tt, ex_big_pasted) ∧
  (pm_width <$> floating_image ex_big_pasted) = Some 300 ∧
  (pm_height <$> floating_image ex_big_pasted) = Some 300 ∧
  floating_pos ex_big_pasted = mkPoint 0 0 ∧
  centred_origin 200 200 (filled 300 300 opaque_red) = mkPoint (-50) (-50) ∧
  floating_pos ex_big_pasted ≠ centred_origin 200 200 (filled 300 300 opaque_red).
Proof.
  split; [vm_compute; reflexivity|]. split; [vm_compute; reflexivity|].
  split.
  { unfold ex_big_pasted, run.
    by rewrite (paste_image_spec ex_start ex_big_clipboard (mkPage 1%positive None))
      by (vm_compute; reflexivity). }
  split; [vm_compute; reflexivity|]. split; [vm_compute; reflexivity|].
  split; [vm_compute; reflexivity|]. split; [vm_compute; reflexivity|].
  vm_compute. discriminate.
Qed.

Lemma paste_places_overlay_witness :
  isNull (pasted ex_clipboard) = false ∧
  page ex_overlay = Some (mkPage 1%positive None) ∧
  ∃ s', paste_image ex_clipboard ex_overlay = (Ok tt, s') ∧
        floating_image s' = Some (filled 20 20 opaque_red) ∧
        move_mode s' = true ∧
        floating_pos s' = mkPoint 40 40.
Proof.
  assert (H1 : isNull (pasted ex_clipboard) = false) by reflexivity.
  assert (H2 : page ex_overlay = Some (mkPage 1%positive None)) by reflexivity.
  split; [exact H1|]. split; [exact H2|].
  destruct (paste_places_overlay ex_clipboard ex_overlay) as (_ & _ & Hmain).
  destruct (Hmain _ H1 H2) as (s' & Hrun & Hf & Hm & _ & Hpos & _).
  exists s'. split; [exact Hrun|]. split; [exact Hf|]. split; [exact Hm|].
  vm_compute in Hpos. exact (proj1 Hpos).
Defined.

Lemma eyedropper_press_witness :
  button ex_pick_press = LeftButton ∧
  eyedropper ex_eyedropper = true ∧
  page ex_eyedropper = Some (mkPage 1%positive None) ∧
  ∃ s', mousePressEvent (mkGeometry 200 200 8) ex_pick_press ex_eyedropper
          = (Ok tt, s') ∧
        pen_color s' = white ∧ eyedropper s' = false ∧ eraser s' = false ∧
        undo_stacks s' = undo_stacks ex_eyedropper ∧
        store s' = store ex_eyedropper.
Proof.
  assert (H1 : button ex_pick_press = LeftButton) by reflexivity.
  assert (H2 : eyedropper ex_eyedropper = true) by reflexivity.
  assert (H3 : page ex_eyedropper = Some (mkPage 1%positive None)) by reflexivity.
  split; [exact H1|]. split; [exact H2|]. split; [exact H3|].
  destruct (eyedropper_press_picks_color (mkGeometry 200 200 8) ex_pick_press
              ex_eyedropper _ H1 H2 H3)
    as (s' & Hrun & _ & _ & Hq & He & Her & Hst & _ & _ & Hu & _);
    [vm_compute; reflexivity..|].
  exists s'. split; [exact Hrun|]. split.
  { apply (Hq white). vm_compute. reflexivity. }
  split; [exact He|]. split; [exact Her|]. split; [exact Hu|exact Hst].
Defined.

Lemma snapshot_isolation_witness :
  reachable ex_mix ex_load ex_resample ex_drawLine ex_stroke_started ∧
  stored ex_stroke_started 3%positive ∧
  stored (step ex_mix ex_load ex_resample ex_drawLine ex_stroke_started
            (EvMouseMove ex_geometry ex_move)) 3%positive ∧
  store (steps ex_mix ex_load ex_resample ex_drawLine ex_stroke_started ex_moves)
    !! 3%positive
  = store ex_stroke_started !! 3%positive.
Proof.
  assert (H1 : reachable ex_mix ex_load ex_resample ex_drawLine ex_stroke_started).
  { apply reachable_step, reachable_init. }
  assert (H2 : stored ex_stroke_started 3%positive).
  { exists 0, [3%positive; 2%positive]. split; [left; vm_compute; reflexivity|].
    constructor. }
  assert (H3 : stored (step ex_mix ex_load ex_resample ex_drawLine ex_stroke_started
            (EvMouseMove ex_geometry ex_move)) 3%positive).
  { exists 0, [3%positive; 2%positive]. split; [left; vm_compute; reflexivity|].
    constructor. }
  assert (H4 : Forall (λ s', stored s' 3%positive)
                 (trace ex_mix ex_load ex_resample ex_drawLine
                    ex_stroke_started ex_moves)).
  { apply Forall_cons. split; [exact H2|].
    apply Forall_cons. split; [exact H3|]. constructor. }
  split; [exact H1|]. split; [exact H2|]. split; [exact H3|].
  exact (proj2 (proj2 (snapshot_isolation ex_mix ex_load ex_resample ex_drawLine
                         ex_stroke_started 3%positive ex_moves H1 H2 H4))).
Defined.

Lemma overlay_implies_move_mode_witness :
  reachable ex_mix ex_load ex_resample ex_drawLine ex_pasted ∧
  is_Some (floating_image ex_pasted) ∧
  move_mode ex_pasted = true ∧
  toggle_branch ex_pasted ≠ ReEnter.
Proof.
  assert (H1 : reachable ex_mix ex_load ex_resample ex_drawLine ex_pasted).
  { apply reachable_step, reachable_init. }
  assert (H2 : is_Some (floating_image ex_pasted)).
  { eexists. vm_compute. reflexivity. }
  split; [exact H1|]. split; [exact H2|].
  destruct (overlay_implies_move_mode ex_mix ex_load ex_resample ex_drawLine
              ex_pasted H1) as (Ht & Hm).
  split; [exact (proj1 (Hm H2))|exact Ht].
Defined.

(** ** Runs of the further properties *)

Lemma ex_three_pages_reachable :
  reachable ex_mix ex_load ex_resample ex_drawLine ex_three_pages.
Proof. do 3 apply reachable_step. apply reachable_init. Qed.

Lemma ex_orphan_reachable :
  reachable ex_mix ex_load ex_resample ex_drawLine ex_orphan.
Proof. do 2 apply reachable_step. apply reachable_init. Qed.

Lemma ex_undone_reachable :
  reachable ex_mix ex_load ex_resample ex_drawLine ex_undone.
Proof. do 4 apply reachable_step. apply reachable_init. Qed.

Lemma reachable_book_ok_witness :
  reachable ex_mix ex_load ex_resample ex_drawLine ex_orphan ∧
  ∀ i, i < 0 →
    stack_of (undo_stacks ex_orphan) i = [] ∧ stack_of (redo_stacks ex_orphan) i = [].
Proof.
  split; [exact ex_orphan_reachable|].
  exact (proj2 (reachable_book_ok ex_mix ex_load ex_resample ex_drawLine
                  ex_orphan ex_orphan_reachable)).
Defined.

Lemma only_toggle_move_mode_raises_witness :
  reachable ex_mix ex_load ex_resample ex_drawLine ex_orphan ∧
  EvUndo ≠ EvToggleMove ∧
  (handle ex_mix ex_load ex_resample ex_drawLine EvUndo ex_orphan).1 = Ok tt.
Proof.
  assert (H : EvUndo ≠ EvToggleMove) by discriminate.
  split; [exact ex_orphan_reachable|]. split; [exact H|].
  exact (only_toggle_move_mode_raises ex_mix ex_load ex_resample ex_drawLine
           ex_orphan EvUndo ex_orphan_reachable H).
Defined.

Lemma toggle_move_mode_raises_without_page_witness :
  reachable ex_mix ex_load ex_resample ex_drawLine ex_orphan ∧
  is_Some (floating_image ex_orphan) ∧ pages ex_orphan = [] ∧
  (toggle_move_mode ex_mix ex_orphan).1 = Raise AttributeError.
Proof.
  assert (H1 : is_Some (floating_image ex_orphan)).
  { eexists. vm_compute. reflexivity. }
  assert (H2 : pages ex_orphan = []) by (vm_compute; reflexivity).
  split; [exact ex_orphan_reachable|]. split; [exact H1|]. split; [exact H2|].
  exact (proj2 (proj1 (toggle_move_mode_raises_without_page ex_mix ex_load
                         ex_resample ex_drawLine ex_orphan ex_orphan_reachable))
           (conj H1 H2)).
Defined.

Lemma undo_then_redo_witness :
  reachable ex_mix ex_load ex_resample ex_drawLine ex_start ∧
  stack_of (undo_stacks ex_start) (current_page_idx ex_start) ≠ [] ∧
  ∃ s1 s2,
    undo ex_start = (Ok tt, s1) ∧ redo s1 = (Ok tt, s2) ∧ view s2 = view ex_start.
Proof.
  assert (H1 : reachable ex_mix ex_load ex_resample ex_drawLine ex_start)
    by apply reachable_init.
  assert (H2 : stack_of (undo_stacks ex_start) (current_page_idx ex_start) ≠ []).
  { vm_compute. intros H. discriminate H. }
  split; [exact H1|]. split; [exact H2|].
  destruct (undo_then_redo ex_mix ex_load ex_resample ex_drawLine ex_start H1 H2)
    as (s1 & s2 & E1 & E2 & Hv & _).
  exists s1, s2. split; [exact E1|]. split; [exact E2|exact Hv].
Defined.

Lemma redo_then_undo_witness :
  reachable ex_mix ex_load ex_resample ex_drawLine ex_undone ∧
  stack_of (redo_stacks ex_undone) (current_page_idx ex_undone) ≠ [] ∧
  ∃ s1 s2,
    redo ex_undone = (Ok tt, s1) ∧ undo s1 = (Ok tt, s2) ∧ view s2 = view ex_undone.
Proof.
  assert (H2 : stack_of (redo_stacks ex_undone) (current_page_idx ex_undone) ≠ []).
  { vm_compute. intros H. discriminate H. }
  split; [exact ex_undone_reachable|]. split; [exact H2|].
  destruct (redo_then_undo ex_mix ex_load ex_resample ex_drawLine ex_undone
              ex_undone_reachable H2)
    as (s1 & s2 & E1 & E2 & Hv & _).
  exists s1, s2. split; [exact E1|]. split; [exact E2|exact Hv].
Defined.

Lemma delete_current_page_positions_witness :
  page ex_three_pages = Some (mkPage 1%positive None) ∧
  ∃ s',
    delete_current_page ex_three_pages = (Ok tt, s') ∧
    pages s' !! 0%nat = pages ex_three_pages !! 1%nat ∧
    history s' 1 = history ex_three_pages 1.
Proof.
  assert (H1 : page ex_three_pages = Some (mkPage 1%positive None))
    by (vm_compute; reflexivity).
  split; [exact H1|].
  destruct (delete_current_page_positions ex_three_pages (mkPage 1%positive None) H1)
    as (s' & E & _ & _ & _ & Hge & _ & _ & Hh).
  exists s'. split; [exact E|]. split.
  - apply Hge. vm_compute. intros H. discriminate H.
  - apply Hh. vm_compute. intros H. discriminate H.
Defined.

Lemma reachable_tools_ok_witness :
  reachable ex_mix ex_load ex_resample ex_drawLine ex_tools ∧
  eraser ex_tools = eraser_act ex_tools ∧
  ¬ (eraser ex_tools = true ∧ eyedropper ex_tools = true).
Proof.
  assert (H : reachable ex_mix ex_load ex_resample ex_drawLine ex_tools).
  { do 2 apply reachable_step. apply reachable_init. }
  split; [exact H|].
  exact (reachable_tools_ok ex_mix ex_load ex_resample ex_drawLine ex_tools H).
Defined.

Lemma stroke_is_one_undo_step_witness :
  page ex_small = Some (mkPage 1%positive None) ∧
  store ex_small !! canvas (mkPage 1%positive None) = Some (filled 4 4 white) ∧
  button ex_small_press = LeftButton ∧
  press_branch ex_small
    (psub (pos ex_small_press) (mkPoint 0 (toolbar_height ex_geometry))) = BeginStroke ∧
  ∃ s4,
    undo (steps ex_mix ex_load ex_resample ex_drawLine ex_small
            (gesture ex_geometry ex_small_press ex_small_moves ex_small_press))
      = (Ok tt, s4) ∧
    live_buffer s4 = Some (filled 4 4 white).
Proof.
  assert (H1 : page ex_small = Some (mkPage 1%positive None)) by reflexivity.
  assert (H2 : store ex_small !! canvas (mkPage 1%positive None)
               = Some (filled 4 4 white)) by (vm_compute; reflexivity).
  assert (H3 : button ex_small_press = LeftButton) by reflexivity.
  assert (H4 : press_branch ex_small
                 (psub (pos ex_small_press) (mkPoint 0 (toolbar_height ex_geometry)))
               = BeginStroke) by (vm_compute; reflexivity).
  split; [exact H1|]. split; [exact H2|]. split; [exact H3|]. split; [exact H4|].
  destruct (stroke_is_one_undo_step ex_mix ex_load ex_resample ex_drawLine
              ex_geometry ex_small_press ex_small_press ex_small_moves ex_small
              (mkPage 1%positive None) (filled 4 4 white) H1 H2 H3 H4)
    as (s4 & s5 & E & Hl & _).
  exists s4. split; [exact E|exact Hl].
Defined.

Lemma inactive_pages_untouched_witness :
  reachable ex_mix ex_load ex_resample ex_drawLine ex_three_pages ∧
  pages ex_three_pages !! 1%nat = Some (mkPage 3%positive None) ∧
  Z.of_nat 1 ≠ current_page_idx ex_three_pages ∧
  store (step ex_mix ex_load ex_resample ex_drawLine ex_three_pages
           (EvSetBackground "bg.png"))
    !! canvas (mkPage 3%positive None)
  = store ex_three_pages !! canvas (mkPage 3%positive None).
Proof.
  assert (H2 : pages ex_three_pages !! 1%nat = Some (mkPage 3%positive None))
    by (vm_compute; reflexivity).
  assert (H3 : Z.of_nat 1 ≠ current_page_idx ex_three_pages).
  { vm_compute. intros H. discriminate H. }
  split; [exact ex_three_pages_reachable|]. split; [exact H2|]. split; [exact H3|].
  exact (proj2 (inactive_pages_untouched ex_mix ex_load ex_resample ex_drawLine
                  ex_three_pages (EvSetBackground "bg.png") 1%nat
                  (mkPage 3%positive None) ex_three_pages_reachable H2 H3)).
Defined.

Lemma history_is_local_witness :
  1 ≠ current_page_idx ex_three_pages ∧
  1 ≠ current_page_idx
        (step ex_mix ex_load ex_resample ex_drawLine ex_three_pages
           (EvAddPage ex_geometry)) ∧
  history (step ex_mix ex_load ex_resample ex_drawLine ex_three_pages
             (EvAddPage ex_geometry)) 1
  = history ex_three_pages 1.
Proof.
  assert (H1 : 1 ≠ current_page_idx ex_three_pages).
  { vm_compute. intros H. discriminate H. }
  assert (H2 : 1 ≠ current_page_idx
                     (step ex_mix ex_load ex_resample ex_drawLine ex_three_pages
                        (EvAddPage ex_geometry))).
  { vm_compute. intros H. discriminate H. }
  split; [exact H1|]. split; [exact H2|].
  exact (history_is_local ex_mix ex_load ex_resample ex_drawLine ex_three_pages
           (EvAddPage ex_geometry) 1 H1 H2).
Defined.

Lemma drag_follows_pointer_witness :
  page ex_overlay = Some (mkPage 1%positive None) ∧
  floating_image ex_overlay = Some (filled 20 20 opaque_red) ∧
  move_mode ex_overlay = true ∧
  button ex_overlay_press = LeftButton ∧
  inside_overlay ex_overlay (local_point (ex_geometry, ex_overlay_press)) = true ∧
  floating_pos
    (steps ex_mix ex_load ex_resample ex_drawLine ex_overlay
       (gesture ex_geometry ex_overlay_press ex_overlay_moves ex_overlay_press))
  = mkPoint 25 65.
Proof.
  assert (H1 : page ex_overlay = Some (mkPage 1%positive None)) by reflexivity.
  assert (H2 : floating_image ex_overlay = Some (filled 20 20 opaque_red))
    by reflexivity.
  assert (H3 : move_mode ex_overlay = true) by reflexivity.
  assert (H4 : button ex_overlay_press = LeftButton) by reflexivity.
  assert (H5 : inside_overlay ex_overlay (local_point (ex_geometry, ex_overlay_press))
               = true) by (vm_compute; reflexivity).
  assert (H6 : Forall (λ ge, fits (Page_size ex_overlay (mkPage 1%positive None)).1
                             (Page_size ex_overlay (mkPage 1%positive None)).2
                             (filled 20 20 opaque_red)
                             (padd (floating_pos ex_overlay)
                                (psub (local_point ge)
                                   (local_point (ex_geometry, ex_overlay_press)))))
                 ex_overlay_moves).
  { apply Forall_cons. split.
    { vm_compute. repeat split; intros H; discriminate H. }
    apply Forall_cons. split.
    { vm_compute. repeat split; intros H; discriminate H. }
    constructor. }
  split; [exact H1|]. split; [exact H2|]. split; [exact H3|]. split; [exact H4|].
  split; [exact H5|].
  etrans.
  - exact (proj1 (drag_follows_pointer ex_mix ex_load ex_resample ex_drawLine
                    ex_geometry ex_overlay_press ex_overlay_press ex_overlay_moves
                    ex_overlay (mkPage 1%positive None) (filled 20 20 opaque_red)
                    H1 H2 H3 H4 H5 H6)).
  - vm_compute. reflexivity.
Defined.

Lemma Page_clone_independent_witness :
  store ex_small !! canvas (mkPage 1%positive None) = Some (filled 4 4 white) ∧
  ∃ pg' s',
    Page_clone ex_mix ex_load ex_resample (mkPage 1%positive None) ex_small
      = (Ok pg', s') ∧
    canvas pg' ≠ canvas (mkPage 1%positive None) ∧
    store s' !! canvas pg' = Some (filled 4 4 white).
Proof.
  assert (H : store ex_small !! canvas (mkPage 1%positive None)
              = Some (filled 4 4 white)) by (vm_compute; reflexivity).
  split; [exact H|].
  destruct (Page_clone_independent ex_mix ex_load ex_resample
              (mkPage 1%positive None) ex_small (filled 4 4 white) H)
    as (pg' & s' & E & _ & Hne & Hc & _).
  exists pg', s'. split; [exact E|]. split; [exact Hne|exact Hc].
Defined.

Lemma background_undo_keeps_reference_witness :
  "bg.png"%string ≠ EmptyString ∧
  page ex_small = Some (mkPage 1%positive None) ∧
  store ex_small !! canvas (mkPage 1%positive None) = Some (filled 4 4 white) ∧
  ∃ s1 s2,
    set_background_image ex_mix ex_load ex_resample "bg.png" ex_small = (Ok tt, s1) ∧
    undo s1 = (Ok tt, s2) ∧
    live_buffer s2 = Some (filled 4 4 white) ∧
    (bg_image <$> page s2) = Some (Some "bg.png"%string).
Proof.
  assert (H1 : "bg.png"%string ≠ EmptyString) by discriminate.
  assert (H2 : page ex_small = Some (mkPage 1%positive None)) by reflexivity.
  assert (H3 : store ex_small !! canvas (mkPage 1%positive None)
               = Some (filled 4 4 white)) by (vm_compute; reflexivity).
  split; [exact H1|]. split; [exact H2|]. split; [exact H3|].
  destruct (background_undo_keeps_reference ex_mix ex_load ex_resample "bg.png"
              ex_small (mkPage 1%positive None) (filled 4 4 white) H1 H2 H3)
    as (s1 & s2 & E1 & E2 & Hl & Hb & _).
  exists s1, s2. split; [exact E1|]. split; [exact E2|]. split; [exact Hl|exact Hb].
Defined.

Lemma stamp_undo_drops_overlay_witness :
  floating_image ex_overlay = Some (filled 20 20 opaque_red) ∧
  move_mode ex_overlay = true ∧
  page ex_overlay = Some (mkPage 1%positive None) ∧
  store ex_overlay !! canvas (mkPage 1%positive None) = Some (filled 100 100 white) ∧
  ∃ s1 s2,
    toggle_move_mode ex_mix ex_overlay = (Ok tt, s1) ∧
    undo s1 = (Ok tt, s2) ∧
    live_buffer s2 = Some (filled 100 100 white) ∧
    floating_image s2 = None.
Proof.
  assert (H1 : floating_image ex_overlay = Some (filled 20 20 opaque_red))
    by reflexivity.
  assert (H2 : move_mode ex_overlay = true) by reflexivity.
  assert (H3 : page ex_overlay = Some (mkPage 1%positive None)) by reflexivity.
  assert (H4 : store ex_overlay !! canvas (mkPage 1%positive None)
               = Some (filled 100 100 white)) by reflexivity.
  split; [exact H1|]. split; [exact H2|]. split; [exact H3|]. split; [exact H4|].
  destruct (stamp_undo_drops_overlay ex_mix ex_overlay (mkPage 1%positive None)
              (filled 20 20 opaque_red) (filled 100 100 white) H1 H2 H3 H4)
    as (s1 & s2 & E1 & E2 & Hl & Hf & _).
  exists s1, s2. split; [exact E1|]. split; [exact E2|]. split; [exact Hl|exact Hf].
Defined.

Lemma select_page_round_trip_witness :
  reachable ex_mix ex_load ex_resample ex_drawLine ex_three_pages ∧
  steps ex_mix ex_load ex_resample ex_drawLine ex_three_pages
    [EvSelectPage 2; EvSelectPage (current_page_idx ex_three_pages)]
  = ex_three_pages.
Proof.
  split; [exact ex_three_pages_reachable|].
  exact (proj1 (select_page_round_trip ex_mix ex_load ex_resample ex_drawLine
                  ex_three_pages 2 ex_three_pages_reachable)).
Defined.

Lemma moves_after_release_do_nothing_witness :
  button ex_small_press = LeftButton ∧
  ∃ t,
    steps ex_mix ex_load ex_resample ex_drawLine ex_stroke_started
      (EvMouseRelease ex_small_press
       :: ((λ ge, EvMouseMove ge.1 ge.2) <$> ex_small_moves))
    = set_canvas_top t (set_drawing false ex_stroke_started).
Proof.
  assert (H : button ex_small_press = LeftButton) by reflexivity.
  split; [exact H|].
  exact (moves_after_release_do_nothing ex_mix ex_load ex_resample ex_drawLine
           ex_small_press ex_small_moves ex_stroke_started H).
Defined.
